(** * Calculadora de subredes IPv4: modelo y verificación

    Shallow embedding of the arithmetic core of the subnet calculator
    ([CalculadoraSubredes], [Validador], [ResultadoIp]), of what the page
    reads from its form and puts on display ([GestorInterfaz]) and of the
    handler of a submission ([AplicacionCalculadoraIP]), with the proofs
    of the specified properties and of further properties of the code.

    Conventions of the model.
    - A JavaScript number that holds an integer is a [Z].  The 32-bit
      operators ([<<], [>>>], [&], [|], [~]) wrap their operands with
      [ToInt32] / [ToUint32] exactly as the language does; [+], [-] and [*]
      are exact on the integers that occur (all far below 2^53).  A
      number is printed ([String], as [parseInt] does to its argument)
      and read from a form field as a safe integer, of absolute value up
      to 2^53 - 1; larger ones are outside the model, but for 10^21 and
      10^22, which print in exponent notation.
    - [Math.ceil(Math.log2(x))] is the exact ceiling of the binary
      logarithm; the one quotient that is printed with [toFixed] is
      computed in binary64, with the operations of [SpecFloat].
    - A JavaScript string is the [string] of the bytes of its UTF-8
      encoding: the code splits strings at a dot, compares them and
      strips their white space, which reads the same on the bytes, and
      it counts and slices only strings of ASCII characters.  A regular
      expression is matched by derivatives.
    - An array that is sorted in place lives in a store of arrays.
    - A computation that may throw, or that leaves the modelled fragment of
      the language, lives in the monad [res].

    Layout: the language primitives, the classes of the source, the
    operations in the words of the specification, sample evaluations, the
    lemmas, the specified properties [C1] to [C10], and last the further
    properties [X1] to [X25]. *)

From stdpp Require Import gmap.
From Stdlib Require Import ZArith List String Ascii Bool Lia.
From Stdlib Require Import DecimalString QArith SpecFloat.
From Stdlib Require DecimalPos.
From Stdlib Require Import Sorted Permutation.
Import ListNotations.

#[local] Open Scope list_scope.
#[local] Open Scope string_scope.
#[local] Open Scope Z_scope.

#[local] Arguments String.append !_ _ : simpl nomatch.

(* ================================================================== *)
(** * Results of JavaScript computations *)

Module JS.

(** Exceptions the modelled code can raise. *)
Inductive excepcion : Type :=
| Error (mensaje : string)   (* [throw new Error(mensaje)] *)
| RangeError                 (* [String.prototype.repeat] with a bad count *)
| TypeError.                 (* calling a method that the value lacks *)

(** [Val v]: the code returns [v].  [Exc e]: the code throws [e].
    [FueraDelModelo]: the input leaves the fragment of JavaScript that the
    model covers (a string that is not a run of decimal digits handed to
    [Number], an array too short, a reference to no array, a number that
    [toFixed] prints in exponent notation). *)
Inductive res (A : Type) : Type :=
| Val (a : A)
| Exc (e : excepcion)
| FueraDelModelo.

Arguments Val {A} a.
Arguments Exc {A} e.
Arguments FueraDelModelo {A}.

(** A number: an integer, or one of the values that the logarithm of a
    non-positive argument brings in. *)
Inductive numero : Type :=
| Entero (z : Z)
| Infinito
| MenosInfinito
| NaN.

(** [a - n], [a + n] and [n > a] for an integer [a]. *)
Definition restarDe (a : Z) (n : numero) : numero :=
  match n with
  | Entero z => Entero (a - z)
  | Infinito => MenosInfinito
  | MenosInfinito => Infinito
  | NaN => NaN
  end.

Definition sumarA (a : Z) (n : numero) : numero :=
  match n with
  | Entero z => Entero (a + z)
  | _ => n
  end.

Definition mayorQue (n : numero) (a : Z) : bool :=
  match n with
  | Entero z => z >? a
  | Infinito => true
  | MenosInfinito | NaN => false
  end.

Definition bind {A B : Type} (m : res A) (k : A -> res B) : res B :=
  match m with
  | Val a => k a
  | Exc e => Exc e
  | FueraDelModelo => FueraDelModelo
  end.

Definition de_opcion {A : Type} (o : option A) : res A :=
  match o with
  | Some a => Val a
  | None => FueraDelModelo
  end.

Module Notaciones.
Notation "'let*' x ':=' m 'in' k" := (bind m (fun x => k))
  (at level 10, x name, m at level 100, k at level 200).
End Notaciones.
Import Notaciones.

Fixpoint mapM {A B : Type} (f : A -> res B) (l : list A) : res (list B) :=
  match l with
  | [] => Val []
  | x :: xs => let* y := f x in let* ys := mapM f xs in Val (y :: ys)
  end.

End JS.

Import JS.
Import JS.Notaciones.

(* ================================================================== *)
(** * 32-bit integer operators *)

Module Int32.

Definition ToUint32 (x : Z) : Z := x mod 2 ^ 32.

Definition ToInt32 (x : Z) : Z := (x + 2 ^ 31) mod 2 ^ 32 - 2 ^ 31.

(** [a << n] *)
Definition shl (a n : Z) : Z := ToInt32 (Z.shiftl (ToInt32 a) (ToUint32 n mod 32)).

(** [a >>> n] *)
Definition shru (a n : Z) : Z := Z.shiftr (ToUint32 a) (ToUint32 n mod 32).

(** [a & b] *)
Definition and (a b : Z) : Z := Z.land (ToInt32 a) (ToInt32 b).

(** [a | b] *)
Definition or (a b : Z) : Z := Z.lor (ToInt32 a) (ToInt32 b).

(** [~a] *)
Definition not (a : Z) : Z := Z.lnot (ToInt32 a).

End Int32.

(* ================================================================== *)
(** * Strings *)

Module Str.

(** Value of a decimal digit character, [None] for any other character. *)
Definition digito (c : ascii) : option Z :=
  let n := Z.of_N (N_of_ascii c) in
  if (48 <=? n) && (n <=? 57) then Some (n - 48) else None.

(** [s.split(sep)] for a one-character separator: always at least one
    piece; an empty [s] gives one empty piece. *)
Fixpoint split (sep : ascii) (s : string) : list string :=
  match s with
  | EmptyString => [EmptyString]
  | String c s' =>
      if Ascii.eqb c sep then EmptyString :: split sep s'
      else match split sep s' with
           | [] => [String c EmptyString]
           | x :: xs => String c x :: xs
           end
  end.

(** [a.join(sep)] on an array of strings. *)
Fixpoint join (sep : string) (l : list string) : string :=
  match l with
  | [] => EmptyString
  | [x] => x
  | x :: xs => x ++ sep ++ join sep xs
  end.

(** [s.split('')]: the characters of [s]. *)
Definition chars (s : string) : list ascii := list_ascii_of_string s.

Fixpoint repeatNat (c : ascii) (n : nat) : string :=
  match n with
  | O => EmptyString
  | S n' => String c (repeatNat c n')
  end.

(** [c.repeat(n)] for a one-character string: a negative or infinite
    count throws, [NaN] counts as zero. *)
Definition repeat (c : ascii) (n : numero) : res string :=
  match n with
  | Entero z => if z <? 0 then Exc RangeError else Val (repeatNat c (Z.to_nat z))
  | NaN => Val ""
  | Infinito | MenosInfinito => Exc RangeError
  end.

(** [s.substr(inicio, largo)] for a non-negative start. *)
Definition substr (inicio largo : nat) (s : string) : string :=
  String.substring inicio largo s.

(** [s.padStart(n, '0')]. *)
Definition padStart0 (n : nat) (s : string) : string :=
  repeatNat "0" (n - String.length s) ++ s.

(** [String(z)] for a safe integer [z]: its decimal digits, after a minus
    sign when it is negative. *)
Definition deNumero (z : Z) : string := NilZero.string_of_int (Z.to_int z).

Fixpoint binPos (p : positive) : string :=
  match p with
  | xH => "1"
  | xO q => binPos q ++ "0"
  | xI q => binPos q ++ "1"
  end.

(** [z.toString(2)]. *)
Definition toString2 (z : Z) : string :=
  match z with
  | Z0 => "0"
  | Zpos p => binPos p
  | Zneg p => String "-" (binPos p)
  end.

Fixpoint valorDecimal (acc : Z) (s : string) : option Z :=
  match s with
  | EmptyString => Some acc
  | String c s' =>
      match digito c with
      | Some d => valorDecimal (10 * acc + d) s'
      | None => None
      end
  end.

(** [Number(s)] on the fragment the model covers: a run of decimal digits
    (leading zeros allowed, read in base ten), and the empty string, which
    is [0].  Any other string is outside the model. *)
Definition Number (s : string) : res Z := de_opcion (valorDecimal 0 s).

(** Value of [c] as a digit of the given radix (letters count from ten). *)
Definition digitoRadix (radix : Z) (c : ascii) : option Z :=
  let n := Z.of_N (N_of_ascii c) in
  let d := if (48 <=? n) && (n <=? 57) then n - 48
           else if (97 <=? n) && (n <=? 122) then n - 87
           else if (65 <=? n) && (n <=? 90) then n - 55
           else 36 in
  if d <? radix then Some d else None.

(** Longest prefix of [s] made of digits of the given radix, as a value;
    [acc] when that prefix is empty. *)
Fixpoint prefijoNumerico (radix : Z) (acc : option Z) (s : string) : option Z :=
  match s with
  | EmptyString => acc
  | String c s' =>
      match digitoRadix radix c with
      | Some d => prefijoNumerico radix (Some (radix * default 0 acc + d)) s'
      | None => acc
      end
  end.

(** UTF-8 bytes of a code point below 2^16. *)
Definition utf8 (n : Z) : string :=
  let byte (b : Z) := ascii_of_N (Z.to_N b) in
  if n <? 128 then String (byte n) ""
  else if n <? 2048 then
    String (byte (192 + n / 64)) (String (byte (128 + n mod 64)) "")
  else
    String (byte (224 + n / 4096))
      (String (byte (128 + (n / 64) mod 64)) (String (byte (128 + n mod 64)) "")).

(** The code points that [trim] and [parseInt] strip: the white space of
    the language (TAB, VT, FF, SP, NBSP, ZWNBSP and the space separators
    of Unicode) and its line terminators (LF, CR, LS, PS). *)
Definition codigosEspacio : list Z :=
  [9; 10; 11; 12; 13; 32; 160; 5760;
   8192; 8193; 8194; 8195; 8196; 8197; 8198; 8199; 8200; 8201; 8202;
   8232; 8233; 8239; 8287; 12288; 65279].

Definition espacios : list string := map utf8 codigosEspacio.

(** [s] without its prefix [p], when it starts with [p]. *)
Fixpoint sinPrefijo (p s : string) : option string :=
  match p, s with
  | EmptyString, _ => Some s
  | String a p', String b s' => if Ascii.eqb a b then sinPrefijo p' s' else None
  | String _ _, EmptyString => None
  end.

(** [s] without the first of [ws] that it starts with. *)
Fixpoint sinPrimero (ws : list string) (s : string) : option string :=
  match ws with
  | [] => None
  | w :: ws' =>
      match sinPrefijo w s with
      | Some s' => Some s'
      | None => sinPrimero ws' s
      end
  end.

(** Strips leading members of [ws], at most [n] of them. *)
Fixpoint sinPrimeros (ws : list string) (n : nat) (s : string) : string :=
  match n with
  | O => s
  | S n' =>
      match sinPrimero ws s with
      | Some s' => sinPrimeros ws n' s'
      | None => s
      end
  end.

Definition invertir (s : string) : string :=
  string_of_list_ascii (List.rev (list_ascii_of_string s)).

(** [s.trimStart()]: a string has no more white-space characters than
    bytes. *)
Definition trimStart (s : string) : string :=
  sinPrimeros espacios (String.length s) s.

(** [s.trimEnd()]: the same from the other end. *)
Definition trimEnd (s : string) : string :=
  invertir (sinPrimeros (map invertir espacios) (String.length s) (invertir s)).

(** [s.trim()]. *)
Definition trim (s : string) : string := trimEnd (trimStart s).

Definition quitarSigno (s : string) : Z * string :=
  match s with
  | String "-" s' => (-1, s')
  | String "+" s' => (1, s')
  | _ => (1, s)
  end.

(** [parseInt(s, radix)] with an explicit radix other than 16: leading
    white space and a sign are skipped, then the longest run of digits is
    read.  [None] is [NaN]. *)
Definition parseIntRadix (radix : Z) (s : string) : option Z :=
  let '(signo, s1) := quitarSigno (trimStart s) in
  option_map (Z.mul signo) (prefijoNumerico radix None s1).

(** [parseInt(s)]: as above in base ten, or in base sixteen after a
    [0x] / [0X] prefix.  [None] is [NaN].  The value is the integer that
    the digits write; the code holds that integer up to [2^53] and, for
    more digits, a number next to it, on the same side of every integer
    below [2^53]. *)
Definition parseInt (s : string) : option Z :=
  let '(signo, s1) := quitarSigno (trimStart s) in
  match s1 with
  | String "0" (String "x" s2) | String "0" (String "X" s2) =>
      option_map (Z.mul signo) (prefijoNumerico 16 None s2)
  | _ => option_map (Z.mul signo) (prefijoNumerico 10 None s1)
  end.

End Str.

(* ================================================================== *)
(** * Regular expressions

    The three patterns of the source ([ipRegex], [patronMascara]) are
    anchored at both ends and use only classes, concatenation, alternation,
    [?] and [*]; for such a pattern [RegExp.prototype.test] answers whether
    the whole string belongs to the language of the pattern.  [test] decides
    that by derivatives. *)

Module Regex.

Inductive regex : Type :=
| Nada
| Eps
| Clase (p : ascii -> bool)
| Cat (r1 r2 : regex)
| Alt (r1 r2 : regex)
| Estrella (r : regex).

(** [c] *)
Definition Car (c : ascii) : regex := Clase (Ascii.eqb c).

Definition enRango (a b c : ascii) : bool :=
  (N_of_ascii a <=? N_of_ascii c)%N && (N_of_ascii c <=? N_of_ascii b)%N.

(** [[a-b]] *)
Definition Rango (a b : ascii) : regex := Clase (enRango a b).

(** [r?] *)
Definition Opc (r : regex) : regex := Alt r Eps.

Fixpoint anulable (r : regex) : bool :=
  match r with
  | Nada => false
  | Eps => true
  | Clase _ => false
  | Cat r1 r2 => anulable r1 && anulable r2
  | Alt r1 r2 => anulable r1 || anulable r2
  | Estrella _ => true
  end.

Fixpoint derivada (c : ascii) (r : regex) : regex :=
  match r with
  | Nada => Nada
  | Eps => Nada
  | Clase p => if p c then Eps else Nada
  | Cat r1 r2 =>
      if anulable r1 then Alt (Cat (derivada c r1) r2) (derivada c r2)
      else Cat (derivada c r1) r2
  | Alt r1 r2 => Alt (derivada c r1) (derivada c r2)
  | Estrella r1 => Cat (derivada c r1) (Estrella r1)
  end.

(** [/^r$/.test(s)] *)
Fixpoint test (r : regex) (s : string) : bool :=
  match s with
  | EmptyString => anulable r
  | String c s' => test (derivada c r) s'
  end.

(** The language of a pattern. *)
Inductive En : regex -> string -> Prop :=
| En_eps : En Eps ""
| En_clase p c : p c = true -> En (Clase p) (String c "")
| En_cat r1 r2 s1 s2 : En r1 s1 -> En r2 s2 -> En (Cat r1 r2) (s1 ++ s2)
| En_alt_i r1 r2 s : En r1 s -> En (Alt r1 r2) s
| En_alt_d r1 r2 s : En r2 s -> En (Alt r1 r2) s
| En_estrella_0 r : En (Estrella r) ""
| En_estrella_mas r s1 s2 :
    En r s1 -> En (Estrella r) s2 -> En (Estrella r) (s1 ++ s2).

End Regex.

(** JavaScript values that reach the host-count parameter: the form hands
    over a number, the documentation of the validator also allows a string. *)
Inductive valor : Type :=
| VNum (z : Z)
| VStr (s : string).

(** [Number.MAX_SAFE_INTEGER]: up to it, in absolute value, every integer
    is a number of the language. *)
Definition MAX_SAFE_INTEGER : Z := 2 ^ 53 - 1.

(** [String(v)].  A safe integer prints as its decimal digits.  A larger
    number prints the fewest digits that tell it from its neighbours, in
    exponent notation from 10^21 on: of those the model has the two powers
    of ten that are numbers of the language, 10^21 and 10^22, whose one
    digit is forced, and leaves the others out. *)
Definition aCadena (v : valor) : res string :=
  match v with
  | VNum z =>
      if Z.abs z <=? MAX_SAFE_INTEGER then Val (Str.deNumero z)
      else if z =? 10 ^ 21 then Val "1e+21"
      else if z =? 10 ^ 22 then Val "1e+22"
      else FueraDelModelo
  | VStr s => Val s
  end.

(* ================================================================== *)
(** * Validador (src/js/validador.js) *)

Module Validador.

Import Regex.

(** [(25[0-5]|2[0-4][0-9]|[01]?[0-9][0-9]?)] *)
Definition octetoRegex : regex :=
  Alt (Cat (Car "2") (Cat (Car "5") (Rango "0" "5")))
      (Alt (Cat (Car "2") (Cat (Rango "0" "4") (Rango "0" "9")))
           (Cat (Opc (Rango "0" "1")) (Cat (Rango "0" "9") (Opc (Rango "0" "9"))))).

(** [/^octeto\.octeto\.octeto\.octeto$/] *)
Definition ipRegex : regex :=
  Cat octetoRegex (Cat (Car ".")
 (Cat octetoRegex (Cat (Car ".")
 (Cat octetoRegex (Cat (Car ".") octetoRegex))))).

(** [/^1*0*$/] *)
Definition patronMascara : regex :=
  Cat (Estrella (Car "1")) (Estrella (Car "0")).

(** [ip.split('.').map(Number)] *)
Definition octetosDe (ip : string) : res (list Z) :=
  mapM Str.Number (Str.split "." ip).

(** [octetos.map(o => o.toString(2).padStart(8, '0')).join('')] *)
Definition binarioDe (octetos : list Z) : string :=
  Str.join "" (map (fun octeto => Str.padStart0 8 (Str.toString2 octeto)) octetos).

Definition esDireccionIPValida (ip : string) : res bool :=
  if String.eqb ip "" then Val false
  else if negb (test ipRegex ip) then Val false
  else
    let* octetos := octetosDe ip in
    if forallb (fun octeto => octeto =? 0) octetos then Val false
    else if forallb (fun octeto => octeto =? 255) octetos then Val false
    else Val true.

Definition esMascaraSubredValida (mascara : string) : res bool :=
  let* valida := esDireccionIPValida mascara in
  if negb valida then Val false
  else
    let* octetos := octetosDe mascara in
    let mascaraBinaria := binarioDe octetos in
    Val (test patronMascara mascaraBinaria).

(** [parseInt] prints its argument before it reads it. *)
Definition esNumeroHostsValido (hosts : valor) : res bool :=
  let* texto := aCadena hosts in
  match Str.parseInt texto with
  | None => Val false
  | Some numHosts =>
      if numHosts <? 1 then Val false
      else if numHosts >? 16777214 then Val false
      else Val true
  end.

(** [!valor || valor.trim() === ''] : a number has no [trim]. *)
Definition estaVacio (v : valor) : res bool :=
  match v with
  | VStr s => Val (String.eqb s "" || String.eqb (Str.trim s) "")
  | VNum z => if z =? 0 then Val true else Exc TypeError
  end.

(** [valor === s] *)
Definition esCadena (v : valor) (s : string) : bool :=
  match v with
  | VStr t => String.eqb t s
  | VNum _ => false
  end.

Definition obtenerMensajeError (tipo : string) (v : valor) : res string :=
  if String.eqb tipo "ip" then
    let* vacio := estaVacio v in
    if vacio then Val "Por favor, ingresa una dirección IP."
    else if esCadena v "0.0.0.0" then
      Val "La dirección 0.0.0.0 no es válida para cálculos de subred."
    else if esCadena v "255.255.255.255" then
      Val "La dirección 255.255.255.255 es una dirección de broadcast global."
    else Val "Por favor, ingresa una dirección IP válida (ej: 192.168.1.100)."
  else if String.eqb tipo "mascara" then
    let* vacio := estaVacio v in
    if vacio then Val "Por favor, ingresa una máscara de subred."
    else Val "Por favor, ingresa una máscara de subred válida (ej: 255.255.255.0)."
  else if String.eqb tipo "hosts" then
    let* vacio := estaVacio v in
    if vacio then Val "Por favor, ingresa el número de hosts."
    else
      let* texto := aCadena v in
      let numHosts := Str.parseInt texto in
      if match numHosts with Some n => n <? 1 | None => false end then
        Val "El número de hosts debe ser mayor a 0."
      else if match numHosts with Some n => n >? 16777214 | None => false end then
        Val "El número de hosts es demasiado grande (máximo: 16,777,214)."
      else Val "Por favor, ingresa un número válido de hosts (mínimo 1)."
  else Val "Error en la validación de datos.".

(** [{ esValido, mensaje }] *)
Record validacion : Type := {
  esValido : bool;
  mensaje : option string
}.

Definition validarEntradaCompleta
    (ip tipoEntrada mascara : string) (numeroHosts : valor) : res validacion :=
  let* ipValida := esDireccionIPValida ip in
  if negb ipValida then
    let* m := obtenerMensajeError "ip" (VStr ip) in
    Val {| esValido := false; mensaje := Some m |}
  else if String.eqb tipoEntrada "hosts" then
    let* hostsValido := esNumeroHostsValido numeroHosts in
    if negb hostsValido then
      let* m := obtenerMensajeError "hosts" numeroHosts in
      Val {| esValido := false; mensaje := Some m |}
    else Val {| esValido := true; mensaje := None |}
  else if String.eqb tipoEntrada "mascara" then
    let* mascaraValida := esMascaraSubredValida mascara in
    if negb mascaraValida then
      let* m := obtenerMensajeError "mascara" (VStr mascara) in
      Val {| esValido := false; mensaje := Some m |}
    else Val {| esValido := true; mensaje := None |}
  else Val {| esValido := true; mensaje := None |}.

(** A test on an array element that may be missing: every comparison
    with [undefined] is false. *)
Definition cumple (x : option Z) (p : Z -> bool) : bool :=
  match x with
  | Some n => p n
  | None => false
  end.

Definition esIPPrivada (ip : string) : res bool :=
  let* valida := esDireccionIPValida ip in
  if negb valida then Val false
  else
    let* octetos := octetosDe ip in
    let a := nth_error octetos 0 in
    let b := nth_error octetos 1 in
    if cumple a (fun a => a =? 10) then Val true
    else if cumple a (fun a => a =? 172) && cumple b (fun b => b >=? 16)
            && cumple b (fun b => b <=? 31) then Val true
    else if cumple a (fun a => a =? 192) && cumple b (fun b => b =? 168) then Val true
    else if cumple a (fun a => a =? 127) then Val true
    else Val false.

(** The class letter, or [None] for [null]. *)
Definition obtenerClaseIP (ip : string) : res (option string) :=
  let* valida := esDireccionIPValida ip in
  if negb valida then Val None
  else
    let primerOcteto :=
      match Str.split "." ip with
      | x :: _ => Str.parseInt x
      | [] => None
      end in
    let entre (lo hi : Z) :=
      match primerOcteto with
      | Some n => (n >=? lo) && (n <=? hi)
      | None => false
      end in
    if entre 1 126 then Val (Some "A")
    else if entre 128 191 then Val (Some "B")
    else if entre 192 223 then Val (Some "C")
    else if entre 224 239 then Val (Some "D")
    else if entre 240 255 then Val (Some "E")
    else Val None.

Definition esMascaraApropiadaParaClase (ip mascara : string) : res bool :=
  let* clase := obtenerClaseIP ip in
  match clase with
  | None => Val false
  | Some clase =>
      if String.eqb clase "" then Val false
      else
        let* mascaraValida := esMascaraSubredValida mascara in
        if negb mascaraValida then Val false
        else
          let* octetos := octetosDe mascara in
          let es255 (i : nat) := cumple (nth_error octetos i) (fun o => o =? 255) in
          if String.eqb clase "A" then Val (es255 0%nat)
          else if String.eqb clase "B" then Val (es255 0%nat && es255 1%nat)
          else if String.eqb clase "C" then Val (es255 0%nat && es255 1%nat && es255 2%nat)
          else Val true
  end.

End Validador.

(* ================================================================== *)
(** * ResultadoIp (src/js/resultado-ip.js) *)

Module ResultadoIp.

Record t : Type := nuevo {
  networkIP : string;
  subnetMask : string;
  broadcastIP : string;
  firstHostIP : string;
  lastHostIP : string;
  gatewayIP : string;
  totalHosts : Z
}.

Definition getRangoHosts (r : t) : string :=
  firstHostIP r ++ " - " ++ lastHostIP r.

Definition _calcularCIDR (r : t) : res Z :=
  let* octets := Validador.octetosDe (subnetMask r) in
  let binaryMask := Validador.binarioDe octets in
  Val (Z.of_nat (List.length (List.filter (Ascii.eqb "1") (Str.chars binaryMask)))).

Definition getRedCIDR (r : t) : res string :=
  let* cidr := _calcularCIDR r in
  Val (networkIP r ++ "/" ++ Str.deNumero cidr).

(** Truth value of the chain of [&&]: a string is truthy when it is not
    empty. *)
Definition esValido (r : t) : bool :=
  negb (String.eqb (networkIP r) "") &&
  negb (String.eqb (subnetMask r) "") &&
  negb (String.eqb (broadcastIP r) "") &&
  negb (String.eqb (firstHostIP r) "") &&
  negb (String.eqb (lastHostIP r) "") &&
  negb (String.eqb (gatewayIP r) "") &&
  (totalHosts r >=? 0).

(** The plain object that [toJSON] builds and [fromObject] reads. *)
Module Plano.
Record t : Type := {
  networkIP : string;
  subnetMask : string;
  broadcastIP : string;
  firstHostIP : string;
  lastHostIP : string;
  gatewayIP : string;
  totalHosts : Z;
  rangoHosts : string;
  redCIDR : string
}.
End Plano.

Definition toJSON (r : t) : res Plano.t :=
  let rango := getRangoHosts r in
  let* cidr := getRedCIDR r in
  Val {| Plano.networkIP := networkIP r;
         Plano.subnetMask := subnetMask r;
         Plano.broadcastIP := broadcastIP r;
         Plano.firstHostIP := firstHostIP r;
         Plano.lastHostIP := lastHostIP r;
         Plano.gatewayIP := gatewayIP r;
         Plano.totalHosts := totalHosts r;
         Plano.rangoHosts := rango;
         Plano.redCIDR := cidr |}.

Definition fromObject (data : Plano.t) : t :=
  nuevo (Plano.networkIP data) (Plano.subnetMask data) (Plano.broadcastIP data)
        (Plano.firstHostIP data) (Plano.lastHostIP data) (Plano.gatewayIP data)
        (Plano.totalHosts data).

(** [equals] between two instances. *)
Definition equals (r otroResultado : t) : bool :=
  String.eqb (networkIP r) (networkIP otroResultado) &&
  String.eqb (subnetMask r) (subnetMask otroResultado) &&
  String.eqb (broadcastIP r) (broadcastIP otroResultado) &&
  String.eqb (firstHostIP r) (firstHostIP otroResultado) &&
  String.eqb (lastHostIP r) (lastHostIP otroResultado) &&
  String.eqb (gatewayIP r) (gatewayIP otroResultado) &&
  (totalHosts r =? totalHosts otroResultado).

End ResultadoIp.

(* ================================================================== *)
(** * Floating point: the quotient printed by [toFixed]

    Binary64 arithmetic as the Standard Library specifies it
    ([SpecFloat]): every operation rounds to nearest, ties to even. *)

Module Flotante.

Definition prec : Z := 53.
Definition emax : Z := 1024.

(** The number that holds the integer [z]. *)
Definition deEntero (z : Z) : spec_float := binary_normalize prec emax z 0 false.

(** [x / y] and [x * y] *)
Definition dividir (x y : spec_float) : spec_float := SFdiv prec emax x y.
Definition multiplicar (x y : spec_float) : spec_float := SFmul prec emax x y.

(** [100 * (m * 2^e)] rounded to the nearest integer, halves upwards. *)
Definition centesimas (m : positive) (e : Z) : Z :=
  if 0 <=? e then 100 * Zpos m * 2 ^ e
  else (200 * Zpos m + 2 ^ (- e)) / (2 * 2 ^ (- e)).

(** [m * 2^e >= 10^21] *)
Definition enorme (m : positive) (e : Z) : bool :=
  if 0 <=? e then 10 ^ 21 <=? Zpos m * 2 ^ e
  else 10 ^ 21 * 2 ^ (- e) <=? Zpos m.

(** The digits of [n] hundredths with the point before the last two. *)
Definition conDosDecimales (n : Z) : string :=
  let cifras := Str.padStart0 3 (Str.deNumero n) in
  let k := String.length cifras in
  String.substring 0 (k - 2) cifras ++ "." ++ String.substring (k - 2) 2 cifras.

(** [x.toFixed(2)].  A magnitude of [10^21] or more is printed in
    exponent notation, which the model leaves out. *)
Definition toFixed2 (x : spec_float) : res string :=
  match x with
  | S754_nan => Val "NaN"
  | S754_infinity false => Val "Infinity"
  | S754_infinity true => Val "-Infinity"
  | S754_zero _ => Val "0.00"
  | S754_finite s m e =>
      if enorme m e then FueraDelModelo
      else Val ((if s then "-" else "") ++ conDosDecimales (centesimas m e))
  end.

End Flotante.

(* ================================================================== *)
(** * Arrays of numbers

    An array is an object: a variable holds a reference to it, and
    [Array.prototype.sort] reorders the array it is called on.  The store
    maps references to the contents of the arrays. *)

Module Arreglos.

Abbreviation ref := nat (only parsing).
Abbreviation memoria := (gmap nat (list Z)) (only parsing).

(** [[...a]]: a new array with the given contents. *)
Definition nuevoArreglo (xs : list Z) (m : memoria) : ref * memoria :=
  let r := fresh (dom m) in (r, <[r := xs]> m).

Section Ordenar.

Context {A : Type}.

(** [cmp a b <= 0]: [a] may stay before [b]. *)
Variable cmp : A -> A -> Z.

Fixpoint insertar (x : A) (l : list A) : list A :=
  match l with
  | [] => [x]
  | y :: l' => if cmp x y <=? 0 then x :: y :: l' else y :: insertar x l'
  end.

(** The order [Array.prototype.sort] produces for a consistent
    comparison function: sorted, and stable (elements that compare equal
    keep their order).  Insertion from the right computes it. *)
Fixpoint ordenar (l : list A) : list A :=
  match l with
  | [] => []
  | x :: l' => insertar x (ordenar l')
  end.

End Ordenar.

(** [a.sort(cmp)] on the array behind [r], in place. *)
Definition sort (cmp : Z -> Z -> Z) (r : ref) (m : memoria) : res memoria :=
  let* xs := de_opcion (m !! r) in
  Val (<[r := ordenar cmp xs]> m).

End Arreglos.

(* ================================================================== *)
(** * CalculadoraSubredes *)

Module CalculadoraSubredes.

Import Int32.

(** [Math.ceil(Math.log2(x))] for an integer [x].  For [x >= 1] it is
    taken as the exact mathematical value, the least [k] with [x <= 2^k]:
    the library logarithm is exact on powers of two, and elsewhere it
    stays clear of the integers by far more than its rounding error for
    every [x] below 2^53.  The logarithm of [0] is [-Infinity], that of a
    negative number is [NaN]. *)
Definition ceilLog2 (x : Z) : numero :=
  if x <? 0 then NaN
  else if x =? 0 then MenosInfinito
  else Entero (Z.log2_up x).

(** [Math.pow(2, n)], used with an integer exponent of 2 or more, or
    with [NaN]. *)
Definition potencia2 (n : numero) : numero :=
  match n with
  | Entero z => Entero (2 ^ z)
  | _ => NaN
  end.

(** [String(v)] for the result of [parseInt]: [None] is [NaN]. *)
Definition deNumeroONaN (v : option Z) : string :=
  match v with
  | Some z => Str.deNumero z
  | None => "NaN"
  end.

(** The loop shared by [calcularMascaraDesdeHosts] and
    [dividirEnSubredes]: the four octets of a 32-character binary string,
    joined with dots. *)
Definition octetosDeBinario (mascaraBinaria : string) : string :=
  Str.join "."
    (map (fun i => deNumeroONaN (Str.parseIntRadix 2 (Str.substr (i * 8) 8 mascaraBinaria)))
         [0; 1; 2; 3]%nat).

Definition ipANumero (ip : string) : res Z :=
  let* octetos := Validador.octetosDe ip in
  match octetos with
  | o0 :: o1 :: o2 :: o3 :: _ => Val (shl o0 24 + shl o1 16 + shl o2 8 + o3)
  | _ => FueraDelModelo
  end.

Definition numeroAIp (numero : Z) : string :=
  Str.join "."
    (map Str.deNumero
         [and (shru numero 24) 255;
          and (shru numero 16) 255;
          and (shru numero 8) 255;
          and numero 255]).

Definition calcularMascaraDesdeHosts (hosts : Z) : res string :=
  let bitsHost := ceilLog2 (hosts + 2) in
  let bitsRed := restarDe 32 bitsHost in
  let* unos := Str.repeat "1" bitsRed in
  let* ceros := Str.repeat "0" bitsHost in
  let mascaraBinaria := unos ++ ceros in
  Val (octetosDeBinario mascaraBinaria).

Definition calcularHostsDesdeMascara (mascara : string) : res Z :=
  let* octetos := Validador.octetosDe mascara in
  let mascaraBinaria := Validador.binarioDe octetos in
  let bitsHost := Z.of_nat (List.length (List.filter (Ascii.eqb "0") (Str.chars mascaraBinaria))) in
  Val (2 ^ bitsHost - 2).

Definition calcularIpRed (ip mascara : string) : res string :=
  let* ipNum := ipANumero ip in
  let* mascaraNum := ipANumero mascara in
  let redNum := and ipNum mascaraNum in
  Val (numeroAIp redNum).

Definition calcularIpBroadcast (ipRed mascara : string) : res string :=
  let* redNum := ipANumero ipRed in
  let* mascaraNum := ipANumero mascara in
  let broadcastNum := or redNum (shru (not mascaraNum) 0) in
  Val (numeroAIp broadcastNum).

Definition calcularPrimerHost (ipRed : string) : res string :=
  let* redNum := ipANumero ipRed in
  Val (numeroAIp (redNum + 1)).

Definition calcularUltimoHost (ipBroadcast : string) : res string :=
  let* broadcastNum := ipANumero ipBroadcast in
  Val (numeroAIp (broadcastNum - 1)).

Definition calcularGateway (ipRed : string) : res string :=
  calcularPrimerHost ipRed.

Record infoAdicional : Type := {
  notacionCIDR : Z;
  bitsRed : Z;
  bitsHost : Z;
  numeroSubredes : Q;
  mascaraBinaria : string
}.

Definition obtenerInfoAdicional (mascara : string) : res infoAdicional :=
  let* octetos := Validador.octetosDe mascara in
  let mascaraBinaria := Validador.binarioDe octetos in
  let bitsRed := Z.of_nat (List.length (List.filter (Ascii.eqb "1") (Str.chars mascaraBinaria))) in
  let bitsHost := 32 - bitsRed in
  let numeroSubredes := Qpower 2 (bitsRed - 8) in
  Val {| notacionCIDR := bitsRed;
         bitsRed := bitsRed;
         bitsHost := bitsHost;
         numeroSubredes := numeroSubredes;
         mascaraBinaria := mascaraBinaria |}.

Definition calcularSubredCompleta (ip mascara : string) : res ResultadoIp.t :=
  let* ipRed := calcularIpRed ip mascara in
  let* ipBroadcast := calcularIpBroadcast ipRed mascara in
  let* primerHost := calcularPrimerHost ipRed in
  let* ultimoHost := calcularUltimoHost ipBroadcast in
  let* gateway := calcularGateway ipRed in
  let* totalHosts := calcularHostsDesdeMascara mascara in
  Val (ResultadoIp.nuevo ipRed mascara ipBroadcast primerHost ultimoHost gateway totalHosts).

Definition calcularSubredPorHosts (ip : string) (hosts : Z) : res ResultadoIp.t :=
  let* mascara := calcularMascaraDesdeHosts hosts in
  calcularSubredCompleta ip mascara.

Definition calcularDesdeHosts (ip : string) (hosts : Z) : res ResultadoIp.t :=
  calcularSubredPorHosts ip hosts.

Definition calcularDesdeMascara (ip mascara : string) : res ResultadoIp.t :=
  calcularSubredCompleta ip mascara.

(** Indices [0, 1, ..., n-1] visited by [for (let i = 0; i < n; i++)]. *)
Definition indices (n : Z) : list Z := map Z.of_nat (seq 0 (Z.to_nat n)).

Definition dividirEnSubredes (ip mascara : string) (numeroSubredes : Z)
    : res (list ResultadoIp.t) :=
  let bitsAdicionales := ceilLog2 numeroSubredes in
  let* infoActual := obtenerInfoAdicional mascara in
  let nuevaBitsRed := sumarA (bitsRed infoActual) bitsAdicionales in
  if mayorQue nuevaBitsRed 30 then
    Exc (Error "No es posible crear tantas subredes con hosts válidos")
  else
    let* unos := Str.repeat "1" nuevaBitsRed in
    let* ceros := Str.repeat "0" (restarDe 32 nuevaBitsRed) in
    let nuevaMascaraBinaria := unos ++ ceros in
    let mascaraSubred := octetosDeBinario nuevaMascaraBinaria in
    let tamanoSubred := potencia2 (restarDe 32 nuevaBitsRed) in
    let* ipRed := calcularIpRed ip mascara in
    let* redPrincipal := ipANumero ipRed in
    mapM (fun i =>
            match tamanoSubred with
            | Entero tamano =>
                let ipSubred := numeroAIp (redPrincipal + i * tamano) in
                calcularSubredCompleta ipSubred mascaraSubred
            | _ => FueraDelModelo
            end)
         (indices numeroSubredes).

Definition ipEstaEnSubred (ip ipRed mascara : string) : res bool :=
  let* ipNum := ipANumero ip in
  let* redNum := ipANumero ipRed in
  let* mascaraNum := ipANumero mascara in
  Val (and ipNum mascaraNum =? redNum).

Definition calcularSiguienteSubred (ipRed mascara : string) : res string :=
  let* redNum := ipANumero ipRed in
  let* mascaraNum := ipANumero mascara in
  let tamanoSubred := shru (not mascaraNum) 0 + 1 in
  Val (numeroAIp (redNum + tamanoSubred)).

(** The objects pushed by [optimizarSubredes].  The field [notacionCIDR]
    is [notacionCIDR_] here, the plain name being the field of
    [infoAdicional]; [eficiencia] is a string, or outside the model when
    [toFixed] is. *)
Record subredOptimizada : Type := {
  indice : Z;
  hostsRequeridos : Z;
  hostsDisponibles : Z;
  mascara : string;
  notacionCIDR_ : Z;
  eficiencia : res string
}.

(** [(hosts / disponibles * 100).toFixed(2) + '%'] *)
Definition porcentaje (hosts disponibles : Z) : res string :=
  let cociente := Flotante.dividir (Flotante.deEntero hosts) (Flotante.deEntero disponibles) in
  let* texto := Flotante.toFixed2 (Flotante.multiplicar cociente (Flotante.deEntero 100)) in
  Val (texto ++ "%").

(** The body of the [forEach] callback. *)
Definition optimizarUna (hosts index : Z) : res subredOptimizada :=
  let* mascara := calcularMascaraDesdeHosts hosts in
  let* info := obtenerInfoAdicional mascara in
  let* disponibles := calcularHostsDesdeMascara mascara in
  let* disponibles2 := calcularHostsDesdeMascara mascara in
  Val {| indice := index;
         hostsRequeridos := hosts;
         hostsDisponibles := disponibles;
         mascara := mascara;
         notacionCIDR_ := notacionCIDR info;
         eficiencia := porcentaje hosts disponibles2 |}.

(** [a.forEach((x, index) => ...)], collecting what the callback pushes. *)
Fixpoint forEach {B : Type} (f : Z -> Z -> res B) (index : Z) (l : list Z) : res (list B) :=
  match l with
  | [] => Val []
  | x :: l' =>
      let* y := f x index in
      let* ys := forEach f (index + 1) l' in
      Val (y :: ys)
  end.

(** [listaHosts] is a reference into the store [m]; the result is the
    array of entries and the store afterwards. *)
Definition optimizarSubredes (listaHosts : Arreglos.ref) (m : Arreglos.memoria)
    : res (list subredOptimizada * Arreglos.memoria) :=
  let* contenido := de_opcion (m !! listaHosts) in
  let '(hostsOrdenados, m1) := Arreglos.nuevoArreglo contenido m in
  let* m2 := Arreglos.sort (fun a b => b - a) hostsOrdenados m1 in
  let* ordenados := de_opcion (m2 !! hostsOrdenados) in
  let* subredesOptimizadas := forEach optimizarUna 0 ordenados in
  Val (subredesOptimizadas, m2).

End CalculadoraSubredes.

(* ================================================================== *)
(** * GestorInterfaz: what the page reads and what it shows *)

Module GestorInterfaz.

(** The values of the four form controls. *)
Record formulario : Type := {
  entradaIP : string;
  selectorTipoEntrada : string;
  entradaHosts : string;
  entradaMascara : string
}.

(** [{ ip, tipoEntrada, numeroHosts, mascara }] *)
Record datos : Type := {
  ip : string;
  tipoEntrada : string;
  numeroHosts : Z;
  mascara : string
}.

(** [parseInt(...) || 0]: [NaN] and zero are falsy.  The record holds
    the integer read when that is a safe integer; a longer run of digits
    is rounded by the language, which the model leaves out. *)
Definition obtenerDatosFormulario (f : formulario) : res datos :=
  let* numero :=
    match Str.parseInt (Str.trim (entradaHosts f)) with
    | Some n =>
        if Z.abs n <=? MAX_SAFE_INTEGER then Val (if n =? 0 then 0 else n)
        else FueraDelModelo
    | None => Val 0
    end in
  Val {| ip := Str.trim (entradaIP f);
         tipoEntrada := selectorTipoEntrada f;
         numeroHosts := numero;
         mascara := Str.trim (entradaMascara f) |}.

(** What is on display after a submission: the error box with its
    message and the results hidden, or the results section filled from a
    record and the error box hidden. *)
Inductive pantalla : Type :=
| ConError (mensaje : string)
| ConResultados (resultado : ResultadoIp.t).

Definition mostrarError (mensaje : string) : pantalla := ConError mensaje.

Definition mostrarResultados (resultado : ResultadoIp.t) : pantalla :=
  if negb (ResultadoIp.esValido resultado) then
    mostrarError "Error: Los resultados del cálculo no son válidos."
  else ConResultados resultado.

(** The style a field gets when the user leaves it: marked as wrong when
    it is not empty and the check rejects it. *)
Definition marcadoEnRojo (comprobar : string -> res bool) (campo : string) : res bool :=
  let texto := Str.trim campo in
  if String.eqb texto "" then Val false
  else
    let* valido := comprobar texto in
    Val (negb valido).

Definition validarIPEnTiempoReal (f : formulario) : res bool :=
  marcadoEnRojo Validador.esDireccionIPValida (entradaIP f).

Definition validarMascaraEnTiempoReal (f : formulario) : res bool :=
  marcadoEnRojo Validador.esMascaraSubredValida (entradaMascara f).

(** The masks that [configurarSugerencias] offers for the mask field. *)
Definition mascarasComunes : list string :=
  ["255.255.255.0"; "255.255.255.128"; "255.255.255.192"; "255.255.255.224";
   "255.255.255.240"; "255.255.255.248"; "255.255.255.252"].

End GestorInterfaz.

(* ================================================================== *)
(** * AplicacionCalculadoraIP (src/js/script.js) *)

Module AplicacionCalculadoraIP.

Import GestorInterfaz.

(** [try { ... } catch (error) { ... }]: whatever is thrown ends in the
    handler. *)
Definition capturar {A : Type} (m : res A) (manejador : excepcion -> res A) : res A :=
  match m with
  | Exc e => manejador e
  | _ => m
  end.

(** The message of a failed validation is a string; [null] shows as the
    empty text. *)
Definition textoDe (mensaje : option string) : string :=
  match mensaje with
  | Some m => m
  | None => ""
  end.

Definition manejarEnvioFormulario (f : formulario) : res pantalla :=
  capturar
    (let* datosFormulario := obtenerDatosFormulario f in
     let* validacion :=
       Validador.validarEntradaCompleta
         (ip datosFormulario) (tipoEntrada datosFormulario)
         (mascara datosFormulario) (VNum (numeroHosts datosFormulario)) in
     if negb (Validador.esValido validacion) then
       Val (mostrarError (textoDe (Validador.mensaje validacion)))
     else
       let* resultado :=
         if String.eqb (tipoEntrada datosFormulario) "hosts" then
           CalculadoraSubredes.calcularDesdeHosts
             (ip datosFormulario) (numeroHosts datosFormulario)
         else
           CalculadoraSubredes.calcularDesdeMascara
             (ip datosFormulario) (mascara datosFormulario) in
       Val (mostrarResultados resultado))
    (fun _ =>
       Val (mostrarError
              "Error interno al procesar los datos. Por favor, inténtelo de nuevo.")).

End AplicacionCalculadoraIP.

(* ================================================================== *)
(** * The operations as the specification words them

    Unsigned 32-bit readings of addresses, against which the signed
    arithmetic of the code is compared. *)

Module Spec.

(** Big-endian packing of four octets. *)
Definition empaquetar (o0 o1 o2 o3 : Z) : Z :=
  o0 * 2 ^ 24 + o1 * 2 ^ 16 + o2 * 2 ^ 8 + o3.

(** [addressToInteger]: split on the dot, read four decimal octets, pack
    them big-endian into an unsigned 32-bit value. *)
Definition addressToInteger (ip : string) : Z :=
  match map (fun o => default 0 (Str.valorDecimal 0 o)) (Str.split "." ip) with
  | [o0; o1; o2; o3] => empaquetar o0 o1 o2 o3
  | _ => 0
  end.

(** [integerToAddress]: the four bytes, most significant first, in
    decimal, joined with dots. *)
Definition integerToAddress (n : Z) : string :=
  Str.join "."
    (map Str.deNumero
         [n / 2 ^ 24 mod 256; n / 2 ^ 16 mod 256; n / 2 ^ 8 mod 256; n mod 256]).

(** The 32 bits of [n], most significant first. *)
Definition expansion32 (n : Z) : list bool :=
  map (fun i => Z.testbit n (31 - Z.of_nat i)) (seq 0 32).

(** Prefix length: the number of one bits. *)
Definition prefixLength (m : Z) : Z :=
  Z.of_nat (List.length (List.filter (fun b : bool => b) (expansion32 m))).

(** Ones then zeros: [a] one bits followed by [b] zero bits. *)
Definition unosCeros (a b : nat) : list bool :=
  (List.repeat true a ++ List.repeat false b)%list.

(** The mask with [p] leading one bits. *)
Definition maskFromPrefix (p : Z) : Z := 2 ^ 32 - 2 ^ (32 - p).

(** An octet string without a superfluous leading zero. *)
Definition octetoCanonico (o : string) : bool :=
  match o with
  | String "0" (String _ _) => false
  | _ => true
  end.

(** A dotted string all of whose octets are canonical. *)
Definition canonica (s : string) : bool :=
  forallb octetoCanonico (Str.split "." s).


(** The elements of a list paired with their positions, from [i] on. *)
Fixpoint etiquetar (i : Z) (l : list Z) : list (Z * Z) :=
  match l with
  | [] => []
  | x :: l' => (x, i) :: etiquetar (i + 1) l'
  end.

(** [x] goes before [y]: larger key, or same key and earlier in the
    input. *)
Definition antes {A : Type} (clave pos : A -> Z) (x y : A) : Prop :=
  clave x > clave y \/ (clave x = clave y /\ pos x < pos y).

(** [10000 * a / b] rounded to the nearest integer, halves upwards, for
    a positive [b]: the hundredths of the percentage that [a] is of
    [b]. *)
Definition centesimasDe (a b : Z) : Z := (20000 * a + b) / (2 * b).

(** [n] hundredths in decimal: the units, a point, the tenths and the
    hundredths. *)
Definition dosDecimales (n : Z) : string :=
  Str.deNumero (n / 100) ++ "." ++
  Str.deNumero (n / 10 mod 10) ++ Str.deNumero (n mod 10).

(** [a / b] expressed as a percentage with two decimals. *)
Definition eficienciaDe (a b : Z) : string :=
  dosDecimales (centesimasDe a b) ++ "%".

Import CalculadoraSubredes.

(** What every entry reports about its requirement: the mask built for
    it, the hosts available under that mask, the prefix length, and the
    required hosts as a percentage of the available ones.  A requirement
    of zero hosts gets the mask /31 with no host available, and one of
    minus one host the mask /32 with minus one host: their quotients are
    [NaN] and one. *)
Definition entradaCorrecta (e : CalculadoraSubredes.subredOptimizada) : Prop :=
  CalculadoraSubredes.calcularMascaraDesdeHosts (hostsRequeridos e) = Val (mascara e) /\
  CalculadoraSubredes.calcularHostsDesdeMascara (mascara e) = Val (hostsDisponibles e) /\
  hostsRequeridos e <= hostsDisponibles e /\
  notacionCIDR_ e = prefixLength (addressToInteger (mascara e)) /\
  (1 <= hostsRequeridos e ->
   eficiencia e = Val (eficienciaDe (hostsRequeridos e) (hostsDisponibles e))) /\
  (hostsRequeridos e = 0 -> eficiencia e = Val "NaN%") /\
  (hostsRequeridos e = -1 -> eficiencia e = Val "100.00%").

End Spec.

(* ================================================================== *)
(** * The model on sample inputs *)

Example split_ip : Str.split "." "192.168.1.100" = ["192"; "168"; "1"; "100"].
Proof. reflexivity. Qed.

Example split_vacio : Str.split "." "a..b." = ["a"; ""; "b"; ""].
Proof. reflexivity. Qed.

Example join_ip : Str.join "." (map Str.deNumero [192; 168; 1; 0]) = "192.168.1.0".
Proof. reflexivity. Qed.

Example number_ceros : Str.Number "010" = Val 10.
Proof. reflexivity. Qed.

Example parseInt_prefijo : Str.parseInt " 12abc" = Some 12.
Proof. reflexivity. Qed.

Example parseInt_hex : Str.parseInt "0x1F" = Some 31.
Proof. reflexivity. Qed.

Example parseInt_nan : Str.parseInt "abc" = None.
Proof. reflexivity. Qed.

Example parseInt_bin : Str.parseIntRadix 2 "11000000" = Some 192.
Proof. reflexivity. Qed.

Example toString2_pad : Str.padStart0 8 (Str.toString2 5) = "00000101".
Proof. reflexivity. Qed.

Example substr_fuera : Str.substr 8 8 "0123456789" = "89" /\ Str.substr 16 8 "0123" = "".
Proof. split; reflexivity. Qed.

Example trim_ej : Str.trim "  a b  " = "a b".
Proof. reflexivity. Qed.

Example utf8_ej :
  Str.utf8 160 = String "194" (String "160" "") /\
  Str.utf8 8232 = String "226" (String "128" (String "168" "")) /\
  Str.utf8 65279 = String "239" (String "187" (String "191" "")).
Proof. repeat split; reflexivity. Qed.

Example trim_unicode :
  Str.trim (Str.utf8 160 ++ "10.0.0.1" ++ Str.utf8 65279 ++ Str.utf8 10) = "10.0.0.1".
Proof. reflexivity. Qed.

Example parseInt_unicode : Str.parseInt (Str.utf8 8232 ++ " 42") = Some 42.
Proof. reflexivity. Qed.

Example ip_valida : Validador.esDireccionIPValida "192.168.1.100" = Val true.
Proof. reflexivity. Qed.

Example ip_cero : Validador.esDireccionIPValida "0.0.0.0" = Val false.
Proof. reflexivity. Qed.

Example ip_256 : Validador.esDireccionIPValida "256.1.1.1" = Val false.
Proof. reflexivity. Qed.

Example ip_ceros_izquierda : Validador.esDireccionIPValida "192.168.01.1" = Val true.
Proof. reflexivity. Qed.

Example mascara_24 : Validador.esMascaraSubredValida "255.255.255.0" = Val true.
Proof. reflexivity. Qed.

Example ipANumero_con_signo :
  CalculadoraSubredes.ipANumero "192.168.1.100" = Val (-1062731420).
Proof. reflexivity. Qed.

Example numeroAIp_con_signo :
  CalculadoraSubredes.numeroAIp (-1062731420) = "192.168.1.100".
Proof. reflexivity. Qed.

Example mascara_50 : CalculadoraSubredes.calcularMascaraDesdeHosts 50 = Val "255.255.255.192".
Proof. reflexivity. Qed.

Example completa_10 :
  CalculadoraSubredes.calcularSubredCompleta "10.0.0.50" "255.255.255.0"
  = Val (ResultadoIp.nuevo "10.0.0.0" "255.255.255.0" "10.0.0.255"
           "10.0.0.1" "10.0.0.254" "10.0.0.1" 254).
Proof. reflexivity. Qed.

Example toFixed2_binario :
  Flotante.toFixed2 (Flotante.dividir (Flotante.deEntero 1005) (Flotante.deEntero 1000))
  = Val "1.00".
Proof. vm_compute. reflexivity. Qed.

Example porcentaje_50 : CalculadoraSubredes.porcentaje 50 62 = Val "80.65%".
Proof. vm_compute. reflexivity. Qed.

Example porcentaje_sin_hosts :
  CalculadoraSubredes.porcentaje 0 0 = Val "NaN%" /\
  CalculadoraSubredes.porcentaje (-1) (-1) = Val "100.00%".
Proof. split; vm_compute; reflexivity. Qed.

Example eficienciaDe_ej :
  Spec.eficienciaDe 50 62 = "80.65%" /\ Spec.eficienciaDe 1 2 = "50.00%" /\
  Spec.eficienciaDe 1 6 = "16.67%" /\ Spec.eficienciaDe 62 62 = "100.00%" /\
  Spec.eficienciaDe 1 16777214 = "0.00%".
Proof. repeat split; vm_compute; reflexivity. Qed.

Example aCadena_numeros :
  aCadena (VNum (-254)) = Val "-254" /\
  aCadena (VNum MAX_SAFE_INTEGER) = Val "9007199254740991" /\
  aCadena (VNum (10 ^ 21)) = Val "1e+21" /\
  aCadena (VNum (2 ^ 53 + 2)) = FueraDelModelo.
Proof. repeat split; vm_compute; reflexivity. Qed.

Example hosts_1e21 :
  Validador.esNumeroHostsValido (VNum (10 ^ 21)) = Val true /\
  CalculadoraSubredes.calcularDesdeHosts "10.0.0.50" (10 ^ 21) = Exc RangeError.
Proof. split; vm_compute; reflexivity. Qed.

Example formulario_con_nbsp :
  GestorInterfaz.obtenerDatosFormulario
    {| GestorInterfaz.entradaIP := Str.utf8 160 ++ "10.0.0.50" ++ Str.utf8 8239;
       GestorInterfaz.selectorTipoEntrada := "hosts";
       GestorInterfaz.entradaHosts := Str.utf8 12288 ++ "20";
       GestorInterfaz.entradaMascara := Str.utf8 160 |}
  = Val {| GestorInterfaz.ip := "10.0.0.50"; GestorInterfaz.tipoEntrada := "hosts";
           GestorInterfaz.numeroHosts := 20; GestorInterfaz.mascara := "" |}.
Proof. vm_compute. reflexivity. Qed.

Example campo_solo_nbsp :
  GestorInterfaz.validarIPEnTiempoReal
    {| GestorInterfaz.entradaIP := Str.utf8 160;
       GestorInterfaz.selectorTipoEntrada := "hosts";
       GestorInterfaz.entradaHosts := "20";
       GestorInterfaz.entradaMascara := "" |} = Val false /\
  AplicacionCalculadoraIP.manejarEnvioFormulario
    {| GestorInterfaz.entradaIP := Str.utf8 160;
       GestorInterfaz.selectorTipoEntrada := "hosts";
       GestorInterfaz.entradaHosts := "20";
       GestorInterfaz.entradaMascara := "" |}
  = Val (GestorInterfaz.ConError "Por favor, ingresa una dirección IP.").
Proof. split; vm_compute; reflexivity. Qed.

Example mascara_log_menos_infinito :
  CalculadoraSubredes.calcularMascaraDesdeHosts (-2) = Exc RangeError.
Proof. reflexivity. Qed.

Example mascara_log_nan :
  CalculadoraSubredes.calcularMascaraDesdeHosts (-5) = Val "NaN.NaN.NaN.NaN".
Proof. reflexivity. Qed.

Example mascara_demasiados_hosts :
  CalculadoraSubredes.calcularMascaraDesdeHosts 4294967295 = Exc RangeError.
Proof. reflexivity. Qed.

Example dividir_en_cero :
  CalculadoraSubredes.dividirEnSubredes "192.168.1.0" "255.255.255.0" 0 = Exc RangeError.
Proof. reflexivity. Qed.

Example dividir_en_negativo :
  CalculadoraSubredes.dividirEnSubredes "192.168.1.0" "255.255.255.0" (-3) = Val [].
Proof. reflexivity. Qed.

Example dividir_sin_capacidad :
  CalculadoraSubredes.dividirEnSubredes "192.168.1.0" "255.255.255.0" 128
  = Exc (Error "No es posible crear tantas subredes con hosts válidos").
Proof. vm_compute. reflexivity. Qed.

Example mensaje_hosts_numero :
  Validador.validarEntradaCompleta "192.168.1.1" "hosts" "" (VNum 0)
  = Val {| Validador.esValido := false;
           Validador.mensaje := Some "Por favor, ingresa el número de hosts." |}.
Proof. reflexivity. Qed.

(* ================================================================== *)
(** * Facts about strings *)

Section CadenaFacts.

Lemma append_vacio_d (s : string) : s ++ "" = s.
Proof. induction s as [|c s IH]; simpl; [reflexivity | now rewrite IH]. Qed.

Lemma append_asoc (a b c : string) : (a ++ b) ++ c = a ++ (b ++ c).
Proof. induction a as [|x a IH]; simpl; [reflexivity | now rewrite IH]. Qed.

Lemma append_vacio_inv (a b : string) : a ++ b = "" -> a = "" /\ b = "".
Proof. destruct a; simpl; [auto | discriminate]. Qed.

Lemma length_append (a b : string) :
  String.length (a ++ b) = (String.length a + String.length b)%nat.
Proof. induction a as [|x a IH]; simpl; [reflexivity | now rewrite IH]. Qed.

Lemma chars_append (a b : string) :
  Str.chars (a ++ b) = (Str.chars a ++ Str.chars b)%list.
Proof. induction a as [|x a IH]; simpl; [reflexivity | now f_equal]. Qed.

Lemma chars_iny (a b : string) : Str.chars a = Str.chars b -> a = b.
Proof.
  intros H. rewrite <- (string_of_list_ascii_of_string a),
    <- (string_of_list_ascii_of_string b).
  unfold Str.chars in H. now rewrite H.
Qed.

Lemma chars_repeatNat (c : ascii) (n : nat) :
  Str.chars (Str.repeatNat c n) = List.repeat c n.
Proof. induction n as [|n IH]; simpl; [reflexivity | now f_equal]. Qed.

End CadenaFacts.

(* ================================================================== *)
(** * Correctness of the matcher *)

Module RegexFacts.

Import Regex.

Lemma En_nada_inv s : En Nada s -> False.
Proof. intros H. inversion H. Qed.

Lemma En_eps_inv s : En Eps s -> s = "".
Proof. intros H. now inversion H. Qed.

Lemma En_clase_inv p s : En (Clase p) s -> exists c, s = String c "" /\ p c = true.
Proof. intros H. inversion H; subst. eauto. Qed.

Lemma En_cat_inv r1 r2 s :
  En (Cat r1 r2) s -> exists s1 s2, s = s1 ++ s2 /\ En r1 s1 /\ En r2 s2.
Proof. intros H. inversion H; subst. eauto. Qed.

Lemma En_alt_inv r1 r2 s : En (Alt r1 r2) s -> En r1 s \/ En r2 s.
Proof. intros H. inversion H; subst; auto. Qed.

Lemma En_cat_vacio r1 r2 : En (Cat r1 r2) "" -> En r1 "" /\ En r2 "".
Proof.
  intros H. apply En_cat_inv in H as (s1 & s2 & Heq & H1 & H2).
  symmetry in Heq. apply append_vacio_inv in Heq as [-> ->]. now split.
Qed.

Lemma anulable_spec (r : regex) : anulable r = true <-> En r "".
Proof.
  induction r as [| |p|r1 IH1 r2 IH2|r1 IH1 r2 IH2|r IH]; simpl.
  - split; [discriminate | intros H; inversion H].
  - split; [constructor | reflexivity].
  - split; [discriminate | intros H; inversion H].
  - rewrite andb_true_iff, IH1, IH2. split.
    + intros [H1 H2]. exact (En_cat _ _ "" "" H1 H2).
    + apply En_cat_vacio.
  - rewrite orb_true_iff, IH1, IH2. split.
    + intros [H|H]; [now apply En_alt_i | now apply En_alt_d].
    + apply En_alt_inv.
  - split; [constructor | reflexivity].
Qed.

(** A word of [r*] that starts with [c] splits into a first non-empty
    iteration and the rest. *)
Lemma En_estrella_cabeza r c s :
  En (Estrella r) (String c s) ->
  exists s1 s2, s = s1 ++ s2 /\ En r (String c s1) /\ En (Estrella r) s2.
Proof.
  intros H. remember (Estrella r) as r' eqn:Hr.
  remember (String c s) as w eqn:Hw.
  revert c s Hw.
  induction H as [| | | | | |r0 s1 s2 H1 _ H2 IH2]; try discriminate.
  injection Hr as ->. intros c s Hw.
  destruct s1 as [|c1 s1]; simpl in Hw.
  - now apply IH2.
  - injection Hw as -> <-. now exists s1, s2.
Qed.

Lemma derivada_spec (r : regex) : forall c s,
  En (derivada c r) s <-> En r (String c s).
Proof.
  induction r as [| |p|r1 IH1 r2 IH2|r1 IH1 r2 IH2|r IH]; intros c s; simpl.
  - split; intros H; inversion H.
  - split; intros H; inversion H.
  - destruct (p c) eqn:Hp; split; intros H.
    + apply En_eps_inv in H as ->. now constructor.
    + apply En_clase_inv in H as (c' & Heq & _). injection Heq as _ ->. constructor.
    + now apply En_nada_inv in H.
    + apply En_clase_inv in H as (c' & Heq & Hc). injection Heq as -> _. congruence.
  - assert (Hcat : En (Cat (derivada c r1) r2) s ->
                   En (Cat r1 r2) (String c s)).
    { intros H. apply En_cat_inv in H as (s1 & s2 & -> & H1 & H2).
      apply IH1 in H1. exact (En_cat _ _ _ _ H1 H2). }
    assert (Hinv : En (Cat r1 r2) (String c s) ->
                   En (Cat (derivada c r1) r2) s \/
                   (En r1 "" /\ En (derivada c r2) s)).
    { intros H. apply En_cat_inv in H as (s1 & s2 & Heq & H1 & H2).
      destruct s1 as [|c1 s1]; simpl in Heq.
      - right. subst s2. split; [assumption | now apply IH2].
      - injection Heq as -> ->. left. apply En_cat; [now apply IH1 | assumption]. }
    destruct (anulable r1) eqn:Hn.
    + split.
      * intros H. apply En_alt_inv in H as [H|H]; [now apply Hcat |].
        apply anulable_spec in Hn. apply IH2 in H.
        exact (En_cat _ _ "" _ Hn H).
      * intros H. destruct (Hinv H) as [H'|[_ H']];
          [now apply En_alt_i | now apply En_alt_d].
    + split; [exact Hcat |].
      intros H. destruct (Hinv H) as [H'|[H' _]]; [assumption |].
      apply anulable_spec in H'. congruence.
  - split; intros H; apply En_alt_inv in H as [H|H];
      ((apply En_alt_i; now apply IH1) || (apply En_alt_d; now apply IH2)).
  - split.
    + intros H. apply En_cat_inv in H as (s1 & s2 & -> & H1 & H2).
      apply IH in H1. exact (En_estrella_mas _ _ _ H1 H2).
    + intros H. apply En_estrella_cabeza in H as (s1 & s2 & -> & H1 & H2).
      apply En_cat; [now apply IH | assumption].
Qed.

(** The matcher decides membership in the language of the pattern. *)
Lemma test_spec (s : string) : forall r, test r s = true <-> En r s.
Proof.
  induction s as [|c s IH]; intros r; simpl.
  - apply anulable_spec.
  - rewrite IH. apply derivada_spec.
Qed.

End RegexFacts.

(* ================================================================== *)
(** * Exhaustive checks over characters, octet values and octet strings *)

Module Exhaustivo.

Import Regex RegexFacts.

Definition todosAscii : list ascii := map ascii_of_nat (seq 0 256).

Lemma todosAscii_completo (c : ascii) : In c todosAscii.
Proof.
  unfold todosAscii. rewrite <- (ascii_nat_embedding c).
  apply in_map, in_seq. pose proof (nat_ascii_bounded c). lia.
Qed.

(** A boolean property checked on the 256 characters holds of every one. *)
Lemma para_todo_ascii (P : ascii -> bool) :
  forallb P todosAscii = true -> forall c, P c = true.
Proof.
  intros H c. rewrite forallb_forall in H. apply H, todosAscii_completo.
Qed.

Definition bytes : list Z := map Z.of_nat (seq 0 256).

(** A boolean property checked on [0 .. 255] holds of every octet value. *)
Lemma para_todo_byte (P : Z -> bool) :
  forallb P bytes = true -> forall v, 0 <= v <= 255 -> P v = true.
Proof.
  intros H v Hv. rewrite forallb_forall in H. apply H.
  unfold bytes. rewrite <- (Z2Nat.id v) by lia.
  apply in_map, in_seq. lia.
Qed.

Definition diez : list ascii :=
  ["0"; "1"; "2"; "3"; "4"; "5"; "6"; "7"; "8"; "9"]%char.

Definition esDiez (c : ascii) : bool := existsb (Ascii.eqb c) diez.

Lemma esDiez_In (c : ascii) : esDiez c = true -> In c diez.
Proof.
  unfold esDiez. rewrite existsb_exists. intros (x & Hx & Heq).
  apply Ascii.eqb_eq in Heq. now subst.
Qed.

(** Strings of one, two or three decimal digits. *)
Definition candidatos : list string :=
  flat_map (fun a =>
    String a "" ::
    flat_map (fun b =>
      String a (String b "") ::
      map (fun c => String a (String b (String c ""))) diez) diez) diez.

Lemma candidato1 a : In a diez -> In (String a "") candidatos.
Proof. intros Ha. apply in_flat_map. exists a. split; [assumption | now left]. Qed.

Lemma candidato2 a b : In a diez -> In b diez -> In (String a (String b "")) candidatos.
Proof.
  intros Ha Hb. apply in_flat_map. exists a. split; [assumption | right].
  apply in_flat_map. exists b. split; [assumption | now left].
Qed.

Lemma candidato3 a b c :
  In a diez -> In b diez -> In c diez ->
  In (String a (String b (String c ""))) candidatos.
Proof.
  intros Ha Hb Hc. apply in_flat_map. exists a. split; [assumption | right].
  apply in_flat_map. exists b. split; [assumption | right].
  exact (in_map (fun x => String a (String b (String x ""))) diez c Hc).
Qed.

(** The classes of [octetoRegex] only hold decimal digits. *)
Lemma clase_diez (p : ascii -> bool) :
  forallb (fun c => implb (p c) (esDiez c)) todosAscii = true ->
  forall c, p c = true -> In c diez.
Proof.
  intros H c Hc. apply esDiez_In.
  pose proof (para_todo_ascii _ H c) as Hi. simpl in Hi.
  rewrite Hc in Hi. exact Hi.
Qed.

Ltac inv_En :=
  repeat match goal with
  | H : En (Cat _ _) _ |- _ =>
      apply En_cat_inv in H; destruct H as (? & ? & ? & ? & ?); subst
  | H : En (Alt _ _) _ |- _ => apply En_alt_inv in H; destruct H
  | H : En (Clase _) _ |- _ =>
      apply En_clase_inv in H; destruct H as (? & ? & ?); subst
  | H : En Eps _ |- _ => apply En_eps_inv in H; subst
  | H : En Nada _ |- _ => now apply En_nada_inv in H
  end.

Lemma En_octeto_candidato (a : string) :
  En Validador.octetoRegex a -> In a candidatos.
Proof.
  intros H. unfold Validador.octetoRegex, Car, Rango, Opc in H. inv_En;
    repeat match goal with
    | H : _ = true |- _ => apply clase_diez in H; [| vm_compute; reflexivity]
    end;
    cbn [String.append]; auto using candidato1, candidato2, candidato3.
Qed.

(** The 366 strings of the language of [octetoRegex]. *)
Definition octetosTexto : list string :=
  List.filter (test Validador.octetoRegex) candidatos.

(** A boolean property checked on every octet string holds of every
    string the octet pattern accepts. *)
Lemma para_todo_octeto (P : string -> bool) :
  forallb P octetosTexto = true ->
  forall a, En Validador.octetoRegex a -> P a = true.
Proof.
  intros H a Ha. rewrite forallb_forall in H. apply H.
  apply filter_In. split; [now apply En_octeto_candidato | now apply test_spec].
Qed.

End Exhaustivo.

(* ================================================================== *)
(** * Strings accepted by [ipRegex] *)

Module Forma.

Import Regex RegexFacts Exhaustivo.

Definition sinPunto (a : string) : bool :=
  forallb (fun c => negb (Ascii.eqb c ".")) (Str.chars a).

Lemma split_sin_punto (a r : string) :
  sinPunto a = true -> Str.split "." (a ++ String "." r) = a :: Str.split "." r.
Proof.
  induction a as [|c a IH]; intros H.
  - reflexivity.
  - unfold sinPunto in H. simpl in H. apply andb_true_iff in H as [Hc Ha].
    apply negb_true_iff in Hc. simpl. rewrite Hc, (IH Ha). reflexivity.
Qed.

Lemma split_sin_punto_fin (a : string) :
  sinPunto a = true -> Str.split "." a = [a].
Proof.
  induction a as [|c a IH]; intros H.
  - reflexivity.
  - unfold sinPunto in H. simpl in H. apply andb_true_iff in H as [Hc Ha].
    apply negb_true_iff in Hc. simpl. rewrite Hc, (IH Ha). reflexivity.
Qed.

(** What the model needs of an octet string: no dot inside, and a decimal
    value between 0 and 255. *)
Definition octetoBien (a : string) (v : Z) : Prop :=
  sinPunto a = true /\ Str.valorDecimal 0 a = Some v /\ 0 <= v <= 255.

Definition octetoBienb (a : string) : bool :=
  sinPunto a &&
  match Str.valorDecimal 0 a with
  | Some v => (0 <=? v) && (v <=? 255)
  | None => false
  end.

Lemma En_octeto_bien (a : string) :
  En Validador.octetoRegex a -> exists v, octetoBien a v.
Proof.
  intros H. apply (para_todo_octeto octetoBienb) in H; [| vm_compute; reflexivity].
  unfold octetoBienb in H. apply andb_true_iff in H as [Hp Hv].
  destruct (Str.valorDecimal 0 a) as [v|] eqn:Hd; [| discriminate].
  exists v. unfold octetoBien. repeat split; try assumption; lia.
Qed.

(** The dotted shape: four octet strings separated by dots. *)
Definition punteada (a b c d : string) : string :=
  a ++ String "." (b ++ String "." (c ++ String "." d)).

Lemma ipRegex_forma (s : string) :
  test Validador.ipRegex s = true ->
  exists a b c d, s = punteada a b c d /\
    En Validador.octetoRegex a /\ En Validador.octetoRegex b /\
    En Validador.octetoRegex c /\ En Validador.octetoRegex d.
Proof.
  intros H. apply test_spec in H. unfold Validador.ipRegex, Car in H. inv_En.
  repeat match goal with
  | H : Ascii.eqb _ _ = true |- _ => apply Ascii.eqb_eq in H; subst
  end.
  eexists _, _, _, _. split; [reflexivity | auto].
Qed.

Lemma forma_ipRegex (a b c d : string) :
  En Validador.octetoRegex a -> En Validador.octetoRegex b ->
  En Validador.octetoRegex c -> En Validador.octetoRegex d ->
  test Validador.ipRegex (punteada a b c d) = true.
Proof.
  intros Ha Hb Hc Hd. apply test_spec. unfold Validador.ipRegex, punteada.
  assert (Hp : En (Car ".") (String "." "")) by (now constructor).
  apply En_cat; [assumption |].
  apply (En_cat _ _ (String "." "") _ Hp).
  apply En_cat; [assumption |].
  apply (En_cat _ _ (String "." "") _ Hp).
  apply En_cat; [assumption |].
  apply (En_cat _ _ (String "." "") _ Hp). assumption.
Qed.

Lemma split_punteada (a b c d : string) :
  sinPunto a = true -> sinPunto b = true -> sinPunto c = true -> sinPunto d = true ->
  Str.split "." (punteada a b c d) = [a; b; c; d].
Proof.
  intros Ha Hb Hc Hd. unfold punteada.
  rewrite !split_sin_punto by assumption. now rewrite split_sin_punto_fin.
Qed.

Lemma octetosDe_punteada (a b c d : string) (va vb vc vd : Z) :
  octetoBien a va -> octetoBien b vb -> octetoBien c vc -> octetoBien d vd ->
  Validador.octetosDe (punteada a b c d) = Val [va; vb; vc; vd] /\
  Spec.addressToInteger (punteada a b c d) = Spec.empaquetar va vb vc vd.
Proof.
  intros (Ha & Hva & _) (Hb & Hvb & _) (Hc & Hvc & _) (Hd & Hvd & _).
  unfold Validador.octetosDe, Spec.addressToInteger.
  rewrite split_punteada by assumption.
  simpl. unfold Str.Number. rewrite Hva, Hvb, Hvc, Hvd. split; reflexivity.
Qed.

(** Every string that [ipRegex] accepts reads as four octets in
    [0, 255]; the code and the specification read the same four. *)
Lemma bien_formada_octetos (s : string) :
  test Validador.ipRegex s = true ->
  exists o0 o1 o2 o3,
    Validador.octetosDe s = Val [o0; o1; o2; o3] /\
    Spec.addressToInteger s = Spec.empaquetar o0 o1 o2 o3 /\
    0 <= o0 <= 255 /\ 0 <= o1 <= 255 /\ 0 <= o2 <= 255 /\ 0 <= o3 <= 255.
Proof.
  intros H. apply ipRegex_forma in H as (a & b & c & d & -> & Ha & Hb & Hc & Hd).
  apply En_octeto_bien in Ha as [va Ha], Hb as [vb Hb], Hc as [vc Hc], Hd as [vd Hd].
  exists va, vb, vc, vd.
  destruct (octetosDe_punteada _ _ _ _ _ _ _ _ Ha Hb Hc Hd) as [-> ->].
  unfold octetoBien in *. intuition.
Qed.

End Forma.

(* ================================================================== *)
(** * Facts about the 32-bit operators *)

Module Int32Facts.

Import Int32.

Ltac mod32 := unfold ToInt32, ToUint32 in *; Z.div_mod_to_equations; lia.

Lemma ToInt32_rango (x : Z) : - 2 ^ 31 <= ToInt32 x < 2 ^ 31.
Proof. mod32. Qed.

Lemma ToInt32_mod (x : Z) : ToInt32 x mod 2 ^ 32 = x mod 2 ^ 32.
Proof. mod32. Qed.

Lemma ToInt32_pequeno (x : Z) : - 2 ^ 31 <= x < 2 ^ 31 -> ToInt32 x = x.
Proof. intros H. mod32. Qed.

Lemma ToInt32_ToInt32 (x : Z) : ToInt32 (ToInt32 x) = ToInt32 x.
Proof. apply ToInt32_pequeno, ToInt32_rango. Qed.

(** Two numbers with the same residue have the same signed reading. *)
Lemma ToInt32_congr (x y : Z) : x mod 2 ^ 32 = y mod 2 ^ 32 -> ToInt32 x = ToInt32 y.
Proof. intros H. mod32. Qed.

Lemma land_mod (a b : Z) :
  Z.land a b mod 2 ^ 32 = Z.land (a mod 2 ^ 32) (b mod 2 ^ 32).
Proof.
  rewrite <- !Z.land_ones by lia. apply Z.bits_inj'. intros n Hn.
  rewrite !Z.land_spec. destruct (Z.testbit a n), (Z.testbit b n), (Z.testbit (Z.ones 32) n);
    reflexivity.
Qed.

Lemma lor_mod (a b : Z) :
  Z.lor a b mod 2 ^ 32 = Z.lor (a mod 2 ^ 32) (b mod 2 ^ 32).
Proof.
  rewrite <- !Z.land_ones by lia. apply Z.land_lor_distr_l.
Qed.

Lemma lnot_mod (a : Z) : Z.lnot a mod 2 ^ 32 = 2 ^ 32 - 1 - a mod 2 ^ 32.
Proof. unfold Z.lnot, Z.pred. Z.div_mod_to_equations. lia. Qed.

Lemma and_mod (a b : Z) :
  and a b mod 2 ^ 32 = Z.land (a mod 2 ^ 32) (b mod 2 ^ 32).
Proof. unfold and. now rewrite land_mod, !ToInt32_mod. Qed.

Lemma or_mod (a b : Z) :
  or a b mod 2 ^ 32 = Z.lor (a mod 2 ^ 32) (b mod 2 ^ 32).
Proof. unfold or. now rewrite lor_mod, !ToInt32_mod. Qed.

Lemma not_mod (a : Z) : not a mod 2 ^ 32 = 2 ^ 32 - 1 - a mod 2 ^ 32.
Proof. unfold not. now rewrite lnot_mod, ToInt32_mod. Qed.

Lemma shru_0 (a : Z) : shru a 0 = a mod 2 ^ 32.
Proof. reflexivity. Qed.

(** Sign extension: above bit 31 a signed 32-bit integer repeats bit 31. *)
Lemma testbit_signo (y n : Z) :
  - 2 ^ 31 <= y < 2 ^ 31 -> 31 <= n -> Z.testbit y n = Z.testbit y 31.
Proof.
  intros Hy Hn. destruct (Z_lt_le_dec y 0) as [Hneg|Hpos].
  - assert (Hl : Z.log2 (Z.pred (- y)) < 31).
    { destruct (Z.eq_dec (Z.pred (- y)) 0) as [->|Hz]; [reflexivity |].
      apply Z.log2_lt_pow2; lia. }
    rewrite !Z.bits_above_log2_neg by lia. reflexivity.
  - destruct (Z.eq_dec y 0) as [->|Hz]; [now rewrite !Z.bits_0 |].
    assert (Hl : Z.log2 y < 31) by (apply Z.log2_lt_pow2; lia).
    rewrite !Z.bits_above_log2 by lia. reflexivity.
Qed.

Lemma ToInt32_testbit (x n : Z) :
  0 <= n -> Z.testbit (ToInt32 x) n = Z.testbit x (Z.min n 31).
Proof.
  intros Hn.
  assert (Hbajo : forall k, 0 <= k < 32 -> Z.testbit (ToInt32 x) k = Z.testbit x k).
  { intros k Hk. rewrite <- (Z.mod_pow2_bits_low (ToInt32 x) 32 k) by lia.
    rewrite ToInt32_mod. apply Z.mod_pow2_bits_low. lia. }
  destruct (Z_lt_le_dec n 32) as [Hlt|Hge].
  - rewrite Z.min_l by lia. apply Hbajo. lia.
  - rewrite Z.min_r by lia.
    rewrite (testbit_signo _ n (ToInt32_rango x)) by lia. apply Hbajo. lia.
Qed.

(** [a & b], [a | b] and [~a] are the signed readings of the bitwise
    operations on the integers themselves. *)
Lemma and_signed (a b : Z) : and a b = ToInt32 (Z.land a b).
Proof.
  unfold and. apply Z.bits_inj'. intros n Hn.
  now rewrite Z.land_spec, !ToInt32_testbit, Z.land_spec by assumption.
Qed.

Lemma or_signed (a b : Z) : or a b = ToInt32 (Z.lor a b).
Proof.
  unfold or. apply Z.bits_inj'. intros n Hn.
  now rewrite Z.lor_spec, !ToInt32_testbit, Z.lor_spec by assumption.
Qed.

Lemma not_signed (a : Z) : not a = ToInt32 (Z.lnot a).
Proof. unfold not, Z.lnot, Z.pred. mod32. Qed.

End Int32Facts.

(* ================================================================== *)
(** * Addresses: the code against the unsigned reading *)

Module Direccion.

Import Int32 Int32Facts Regex RegexFacts Exhaustivo Forma CalculadoraSubredes.

(** [s] is a well-formed dotted decimal that denotes the unsigned 32-bit
    integer [u]. *)
Definition direccion (s : string) (u : Z) : Prop :=
  test Validador.ipRegex s = true /\ Spec.addressToInteger s = u.

Lemma shl_octeto (o : Z) (k : Z) :
  0 <= o <= 255 -> k = 8 \/ k = 16 \/ k = 24 -> shl o k = ToInt32 (o * 2 ^ k).
Proof.
  intros Ho Hk. unfold shl. rewrite (ToInt32_pequeno o) by lia.
  destruct Hk as [-> | [-> | ->]]; now rewrite <- Z.shiftl_mul_pow2 by lia.
Qed.

Lemma ipANumero_octetos (s : string) (o0 o1 o2 o3 : Z) :
  Validador.octetosDe s = Val [o0; o1; o2; o3] ->
  0 <= o0 <= 255 -> 0 <= o1 <= 255 -> 0 <= o2 <= 255 -> 0 <= o3 <= 255 ->
  ipANumero s = Val (ToInt32 (Spec.empaquetar o0 o1 o2 o3)).
Proof.
  intros H H0 H1 H2 H3. unfold ipANumero. rewrite H. simpl. f_equal.
  rewrite !shl_octeto by (assumption || auto). unfold Spec.empaquetar. mod32.
Qed.

Lemma direccion_rango (s : string) (u : Z) : direccion s u -> 0 <= u < 2 ^ 32.
Proof.
  intros [H <-]. apply bien_formada_octetos in H
    as (o0 & o1 & o2 & o3 & _ & -> & H0 & H1 & H2 & H3).
  unfold Spec.empaquetar. lia.
Qed.

Lemma direccion_ipANumero (s : string) (u : Z) :
  direccion s u -> ipANumero s = Val (ToInt32 u).
Proof.
  intros [H <-]. apply bien_formada_octetos in H
    as (o0 & o1 & o2 & o3 & Ho & -> & H0 & H1 & H2 & H3).
  now apply ipANumero_octetos.
Qed.

(** The four bytes of an unsigned 32-bit integer. *)
Definition byte (u : Z) (k : Z) : Z := u / 2 ^ (8 * k) mod 256.

Lemma empaquetar_bytes (u : Z) :
  0 <= u < 2 ^ 32 ->
  Spec.empaquetar (byte u 3) (byte u 2) (byte u 1) (byte u 0) = u.
Proof.
  intros Hu. unfold Spec.empaquetar, byte. simpl Z.mul.
  change (u / 2 ^ 0) with (u / 1). rewrite Z.div_1_r.
  Z.div_mod_to_equations. lia.
Qed.

Lemma byte_empaquetar (o0 o1 o2 o3 : Z) :
  0 <= o0 <= 255 -> 0 <= o1 <= 255 -> 0 <= o2 <= 255 -> 0 <= o3 <= 255 ->
  let u := Spec.empaquetar o0 o1 o2 o3 in
  byte u 3 = o0 /\ byte u 2 = o1 /\ byte u 1 = o2 /\ byte u 0 = o3.
Proof.
  intros H0 H1 H2 H3 u. unfold u, Spec.empaquetar, byte. simpl Z.mul.
  change (2 ^ 0) with 1. rewrite Z.div_1_r.
  repeat split; Z.div_mod_to_equations; lia.
Qed.

Lemma byte_rango (u k : Z) : 0 <= byte u k <= 255.
Proof. unfold byte. Z.div_mod_to_equations. lia. Qed.

Lemma numeroAIp_spec (n : Z) :
  numeroAIp n = Spec.integerToAddress (n mod 2 ^ 32).
Proof.
  unfold numeroAIp, Spec.integerToAddress.
  assert (Hand : forall x, and x 255 = x mod 256).
  { intros x. rewrite and_signed. change 255 with (Z.ones 8).
    rewrite Z.land_ones by lia. apply ToInt32_pequeno.
    change (2 ^ 8) with 256. Z.div_mod_to_equations. lia. }
  rewrite !Hand. unfold shru.
  change (ToUint32 24 mod 32) with 24. change (ToUint32 16 mod 32) with 16.
  change (ToUint32 8 mod 32) with 8. rewrite !Z.shiftr_div_pow2 by lia.
  unfold ToUint32.
  replace (n mod 256) with (n mod 2 ^ 32 mod 256) by (Z.div_mod_to_equations; lia).
  reflexivity.
Qed.

Definition byteBienb (b : Z) : bool :=
  sinPunto (Str.deNumero b) &&
  match Str.valorDecimal 0 (Str.deNumero b) with
  | Some v => v =? b
  | None => false
  end &&
  test Validador.octetoRegex (Str.deNumero b).

(** The decimal rendering of a byte is an octet string that reads back as
    the byte. *)
Lemma deNumero_byte (b : Z) :
  0 <= b <= 255 ->
  octetoBien (Str.deNumero b) b /\ En Validador.octetoRegex (Str.deNumero b).
Proof.
  intros Hb. pose proof (para_todo_byte byteBienb) as H.
  specialize (H ltac:(vm_compute; reflexivity) b Hb).
  unfold byteBienb in H. apply andb_true_iff in H as [H Hr].
  apply andb_true_iff in H as [Hp Hv].
  destruct (Str.valorDecimal 0 (Str.deNumero b)) as [v|] eqn:Hd; [| discriminate].
  apply Z.eqb_eq in Hv. subst v. split; [| now apply test_spec].
  unfold octetoBien. auto.
Qed.

Lemma integerToAddress_punteada (u : Z) :
  Spec.integerToAddress u =
  punteada (Str.deNumero (byte u 3)) (Str.deNumero (byte u 2))
           (Str.deNumero (byte u 1)) (Str.deNumero (byte u 0)).
Proof.
  unfold Spec.integerToAddress, byte. simpl Z.mul.
  change (u / 2 ^ 0) with (u / 1). rewrite Z.div_1_r. reflexivity.
Qed.

Lemma integerToAddress_octetos (u : Z) :
  Validador.octetosDe (Spec.integerToAddress u)
  = Val [byte u 3; byte u 2; byte u 1; byte u 0].
Proof.
  rewrite integerToAddress_punteada.
  apply octetosDe_punteada; apply deNumero_byte, byte_rango.
Qed.

(** Rendering an unsigned 32-bit integer gives a well-formed string that
    denotes it. *)
Lemma integerToAddress_direccion (u : Z) :
  0 <= u < 2 ^ 32 -> direccion (Spec.integerToAddress u) u.
Proof.
  intros Hu. unfold direccion. rewrite integerToAddress_punteada. split.
  - apply forma_ipRegex; apply deNumero_byte, byte_rango.
  - transitivity (Spec.empaquetar (byte u 3) (byte u 2) (byte u 1) (byte u 0)).
    + apply octetosDe_punteada; apply deNumero_byte, byte_rango.
    + now apply empaquetar_bytes.
Qed.

Lemma ipANumero_numeroAIp (n : Z) : ipANumero (numeroAIp n) = Val (ToInt32 n).
Proof.
  rewrite numeroAIp_spec.
  rewrite (direccion_ipANumero _ (n mod 2 ^ 32)).
  - f_equal. apply ToInt32_congr. now rewrite Z.mod_mod by lia.
  - apply integerToAddress_direccion. apply Z.mod_pos_bound. lia.
Qed.

Lemma land_u32 (a m : Z) :
  0 <= a < 2 ^ 32 -> 0 <= m < 2 ^ 32 -> 0 <= Z.land a m < 2 ^ 32.
Proof.
  intros Ha Hm. rewrite <- (Z.mod_small a (2 ^ 32)), <- (Z.mod_small m (2 ^ 32)) by lia.
  rewrite <- land_mod. apply Z.mod_pos_bound. lia.
Qed.

Lemma lor_u32 (a m : Z) :
  0 <= a < 2 ^ 32 -> 0 <= m < 2 ^ 32 -> 0 <= Z.lor a m < 2 ^ 32.
Proof.
  intros Ha Hm. rewrite <- (Z.mod_small a (2 ^ 32)), <- (Z.mod_small m (2 ^ 32)) by lia.
  rewrite <- lor_mod. apply Z.mod_pos_bound. lia.
Qed.

Lemma calcularIpRed_spec (ip mascara : string) (a m : Z) :
  direccion ip a -> direccion mascara m ->
  calcularIpRed ip mascara = Val (Spec.integerToAddress (Z.land a m)).
Proof.
  intros Ha Hm. unfold calcularIpRed.
  rewrite (direccion_ipANumero _ _ Ha), (direccion_ipANumero _ _ Hm). simpl.
  apply direccion_rango in Ha, Hm.
  rewrite numeroAIp_spec, and_mod, !ToInt32_mod, !Z.mod_small by lia. reflexivity.
Qed.

Lemma calcularIpBroadcast_spec (ipRed mascara : string) (r m : Z) :
  direccion ipRed r -> direccion mascara m ->
  calcularIpBroadcast ipRed mascara
  = Val (Spec.integerToAddress (Z.lor r (2 ^ 32 - 1 - m))).
Proof.
  intros Hr Hm. unfold calcularIpBroadcast.
  rewrite (direccion_ipANumero _ _ Hr), (direccion_ipANumero _ _ Hm). simpl.
  apply direccion_rango in Hr, Hm.
  rewrite numeroAIp_spec, or_mod, shru_0, Z.mod_mod, not_mod, !ToInt32_mod,
    !Z.mod_small by lia.
  reflexivity.
Qed.

Lemma calcularPrimerHost_spec (ipRed : string) (r : Z) :
  direccion ipRed r -> r + 1 < 2 ^ 32 ->
  calcularPrimerHost ipRed = Val (Spec.integerToAddress (r + 1)).
Proof.
  intros Hr Hlt. unfold calcularPrimerHost.
  rewrite (direccion_ipANumero _ _ Hr). simpl. apply direccion_rango in Hr.
  rewrite numeroAIp_spec. do 2 f_equal. mod32.
Qed.

Lemma calcularUltimoHost_spec (ipBroadcast : string) (b : Z) :
  direccion ipBroadcast b -> 0 <= b - 1 ->
  calcularUltimoHost ipBroadcast = Val (Spec.integerToAddress (b - 1)).
Proof.
  intros Hb Hge. unfold calcularUltimoHost.
  rewrite (direccion_ipANumero _ _ Hb). simpl. apply direccion_rango in Hb.
  rewrite numeroAIp_spec. do 2 f_equal. mod32.
Qed.

End Direccion.

(* ================================================================== *)
(** * The validator on well-formed strings *)

Module ValidadorFacts.

Import Regex RegexFacts Exhaustivo Forma Direccion.
Import Validador.

Lemma test_ipRegex_no_vacia (s : string) : test ipRegex s = true -> s <> "".
Proof. intros H ->. vm_compute in H. discriminate. Qed.

(** The validator always answers. *)
Lemma esDireccionIPValida_total (s : string) :
  exists b, esDireccionIPValida s = Val b.
Proof.
  unfold esDireccionIPValida.
  destruct (String.eqb s ""); [eauto |].
  destruct (test ipRegex s) eqn:Hr; simpl; [| eauto].
  apply bien_formada_octetos in Hr as (o0 & o1 & o2 & o3 & -> & _).
  simpl. repeat match goal with |- context [if ?b then _ else _] => destruct b end; eauto.
Qed.

(** Accepted addresses: well-formed, and neither all zeros nor all ones. *)
Lemma esDireccionIPValida_spec (s : string) :
  esDireccionIPValida s = Val true <->
  exists u, direccion s u /\ u <> 0 /\ u <> 2 ^ 32 - 1.
Proof.
  unfold esDireccionIPValida, direccion. split.
  - destruct (String.eqb s ""); [discriminate |].
    destruct (test ipRegex s) eqn:Hr; simpl; [| discriminate].
    pose proof Hr as Hs.
    apply bien_formada_octetos in Hs
      as (o0 & o1 & o2 & o3 & -> & Hu & H0 & H1 & H2 & H3).
    simpl. rewrite !andb_true_r.
    destruct ((o0 =? 0) && ((o1 =? 0) && ((o2 =? 0) && (o3 =? 0)))) eqn:Hz;
      [discriminate |].
    destruct ((o0 =? 255) && ((o1 =? 255) && ((o2 =? 255) && (o3 =? 255)))) eqn:Hf;
      [discriminate |].
    intros _. exists (Spec.empaquetar o0 o1 o2 o3). split; [now split |].
    unfold Spec.empaquetar.
    rewrite !andb_false_iff, !Z.eqb_neq in Hz, Hf. lia.
  - intros (u & [Hr Hu] & Hz & Hf).
    destruct (String.eqb s "") eqn:He.
    { apply String.eqb_eq in He. now apply test_ipRegex_no_vacia in Hr. }
    rewrite Hr. simpl.
    apply bien_formada_octetos in Hr
      as (o0 & o1 & o2 & o3 & -> & Hu' & H0 & H1 & H2 & H3).
    rewrite Hu' in Hu. unfold Spec.empaquetar in Hu. simpl. rewrite !andb_true_r.
    destruct ((o0 =? 0) && ((o1 =? 0) && ((o2 =? 0) && (o3 =? 0)))) eqn:Hz'.
    { rewrite !andb_true_iff, !Z.eqb_eq in Hz'. lia. }
    destruct ((o0 =? 255) && ((o1 =? 255) && ((o2 =? 255) && (o3 =? 255)))) eqn:Hf'.
    { rewrite !andb_true_iff, !Z.eqb_eq in Hf'. lia. }
    reflexivity.
Qed.

(** The octets the code reads from a well-formed string are the bytes of
    the integer it denotes. *)
Lemma direccion_octetos (s : string) (u : Z) :
  direccion s u ->
  octetosDe s = Val [byte u 3; byte u 2; byte u 1; byte u 0].
Proof.
  intros [Hr <-].
  apply bien_formada_octetos in Hr
    as (o0 & o1 & o2 & o3 & -> & -> & H0 & H1 & H2 & H3).
  destruct (byte_empaquetar o0 o1 o2 o3 H0 H1 H2 H3) as (-> & -> & -> & ->).
  reflexivity.
Qed.

End ValidadorFacts.

(* ================================================================== *)
(** * Binary expansions *)

Module Binario.

Import Regex RegexFacts Exhaustivo Forma Direccion ValidadorFacts.

Definition bitChar (b : bool) : ascii := if b then "1"%char else "0"%char.

Lemma bitChar_iny (l1 l2 : list bool) : map bitChar l1 = map bitChar l2 -> l1 = l2.
Proof.
  revert l2. induction l1 as [|x l1 IH]; intros [|y l2] H; try discriminate.
  - reflexivity.
  - injection H as Hxy H. f_equal; [| now apply IH].
    destruct x, y; (reflexivity || discriminate).
Qed.

(** The eight bits of an octet, most significant first. *)
Definition expansion8 (v : Z) : list bool :=
  map (fun i => Z.testbit v (7 - Z.of_nat i)) (seq 0 8).

(** [o.toString(2).padStart(8, '0')] *)
Definition bin8 (v : Z) : string := Str.padStart0 8 (Str.toString2 v).

Lemma bin8_expansion (v : Z) :
  0 <= v <= 255 -> Str.chars (bin8 v) = map bitChar (expansion8 v).
Proof.
  intros Hv.
  pose proof (para_todo_byte
    (fun v => String.eqb (bin8 v) (string_of_list_ascii (map bitChar (expansion8 v))))) as H.
  specialize (H ltac:(vm_compute; reflexivity) v Hv). cbv beta in H.
  apply String.eqb_eq in H. rewrite H. apply list_ascii_of_string_of_list_ascii.
Qed.

Lemma testbit_byte (u k j : Z) :
  0 <= k -> 0 <= j < 8 -> Z.testbit (byte u k) j = Z.testbit u (j + 8 * k).
Proof.
  intros Hk Hj. unfold byte. change 256 with (2 ^ 8).
  rewrite Z.mod_pow2_bits_low by lia. apply Z.div_pow2_bits; lia.
Qed.

Lemma expansion8_byte (u k : Z) :
  0 <= k ->
  expansion8 (byte u k)
  = map (fun i => Z.testbit u (7 - Z.of_nat i + 8 * k)) (seq 0 8).
Proof.
  intros Hk. unfold expansion8. apply map_ext_in. intros i Hi.
  apply in_seq in Hi. apply testbit_byte; lia.
Qed.

Lemma binarioDe_cuatro (o0 o1 o2 o3 : Z) :
  Validador.binarioDe [o0; o1; o2; o3] = bin8 o0 ++ bin8 o1 ++ bin8 o2 ++ bin8 o3.
Proof. reflexivity. Qed.

(** The binary string the code builds from the octets of [u] spells the
    32 bits of [u]. *)
Lemma binarioDe_expansion (u : Z) :
  Str.chars (Validador.binarioDe [byte u 3; byte u 2; byte u 1; byte u 0])
  = map bitChar (Spec.expansion32 u).
Proof.
  rewrite binarioDe_cuatro, !chars_append.
  rewrite !bin8_expansion by apply byte_rango.
  rewrite <- !map_app. f_equal.
  rewrite !expansion8_byte by lia. reflexivity.
Qed.

Lemma expansion32_length (u : Z) : List.length (Spec.expansion32 u) = 32%nat.
Proof. unfold Spec.expansion32. now rewrite length_map, length_seq. Qed.

Lemma expansion32_nth (u n : Z) :
  0 <= n < 32 ->
  nth (Z.to_nat (31 - n)) (Spec.expansion32 u) false = Z.testbit u n.
Proof.
  intros Hn. unfold Spec.expansion32.
  rewrite (nth_indep _ false (Z.testbit u (31 - Z.of_nat 0)))
    by (rewrite length_map, length_seq; lia).
  rewrite (map_nth (fun i => Z.testbit u (31 - Z.of_nat i))).
  rewrite seq_nth by lia. f_equal. lia.
Qed.

Lemma testbit_u32_alto (u n : Z) : 0 <= u < 2 ^ 32 -> 32 <= n -> Z.testbit u n = false.
Proof.
  intros Hu Hn. destruct (Z.eq_dec u 0) as [->|Hz]; [apply Z.bits_0 |].
  apply Z.bits_above_log2; [lia |].
  assert (Z.log2 u < 32) by (apply Z.log2_lt_pow2; lia). lia.
Qed.

(** An unsigned 32-bit integer is determined by its expansion. *)
Lemma expansion32_iny (x y : Z) :
  0 <= x < 2 ^ 32 -> 0 <= y < 2 ^ 32 ->
  Spec.expansion32 x = Spec.expansion32 y -> x = y.
Proof.
  intros Hx Hy H. apply Z.bits_inj'. intros n Hn.
  destruct (Z_lt_le_dec n 32) as [Hlt|Hge].
  - rewrite <- !expansion32_nth by lia. now rewrite H.
  - now rewrite !testbit_u32_alto.
Qed.

(** Counting the characters of a spelled bit list. *)
Lemma contar_unos (l : list bool) :
  List.length (List.filter (Ascii.eqb "1") (map bitChar l))
  = List.length (List.filter (fun b : bool => b) l).
Proof.
  induction l as [|[] l IH]; simpl; [reflexivity | now f_equal | assumption].
Qed.

Lemma contar_ceros (l : list bool) :
  List.length (List.filter (Ascii.eqb "0") (map bitChar l))
  = List.length (List.filter negb l).
Proof.
  induction l as [|[] l IH]; simpl; [reflexivity | assumption | now f_equal].
Qed.

Lemma unos_de_unosCeros (a b : nat) :
  List.length (List.filter (fun x : bool => x) (Spec.unosCeros a b)) = a.
Proof.
  unfold Spec.unosCeros. induction a as [|a IH]; simpl.
  - induction b as [|b IHb]; simpl; [reflexivity | assumption].
  - now f_equal.
Qed.

Lemma ceros_de_unosCeros (a b : nat) :
  List.length (List.filter negb (Spec.unosCeros a b)) = b.
Proof.
  unfold Spec.unosCeros. induction a as [|a IH]; simpl.
  - induction b as [|b IHb]; simpl; [reflexivity | now f_equal].
  - assumption.
Qed.

Lemma unosCeros_length (a b : nat) : List.length (Spec.unosCeros a b) = (a + b)%nat.
Proof. unfold Spec.unosCeros. now rewrite length_app, !repeat_length. Qed.

(** The language of [c*]. *)
Lemma En_estrella_car (c : ascii) (w : string) :
  En (Estrella (Car c)) w <-> exists n, w = Str.repeatNat c n.
Proof.
  split.
  - intros H. remember (Estrella (Car c)) as r eqn:Hr.
    induction H as [| | | | | |r0 s1 s2 H1 _ H2 IH2]; try discriminate.
    + now exists 0%nat.
    + injection Hr as ->. destruct (IH2 eq_refl) as [n ->].
      unfold Car in H1. apply En_clase_inv in H1 as (x & -> & Hx).
      apply Ascii.eqb_eq in Hx. subst x. now exists (S n).
  - intros [n ->]. induction n as [|n IH]; simpl.
    + constructor.
    + apply (En_estrella_mas _ (String c "") _); [| assumption].
      constructor. apply Ascii.eqb_refl.
Qed.

(** The language of [patronMascara]: ones, then zeros. *)
Lemma patronMascara_spec (w : string) :
  test Validador.patronMascara w = true <->
  exists a b, Str.chars w = map bitChar (Spec.unosCeros a b).
Proof.
  rewrite test_spec. unfold Validador.patronMascara.
  assert (Hrep : forall a b,
    Str.chars (Str.repeatNat "1" a ++ Str.repeatNat "0" b)
    = map bitChar (Spec.unosCeros a b)).
  { intros a b. unfold Spec.unosCeros.
    rewrite chars_append, !chars_repeatNat, map_app, !map_repeat. reflexivity. }
  split.
  - intros H. apply En_cat_inv in H as (s1 & s2 & -> & H1 & H2).
    apply En_estrella_car in H1 as [a ->], H2 as [b ->].
    exists a, b. apply Hrep.
  - intros (a & b & H). rewrite <- Hrep in H. apply chars_iny in H. subst w.
    apply En_cat; apply En_estrella_car; eauto.
Qed.

End Binario.

(* ================================================================== *)
(** * Subnet masks *)

Module Mascara.

Import Regex RegexFacts Exhaustivo Forma Direccion ValidadorFacts Binario.
Import Validador CalculadoraSubredes.

(** On an accepted address the mask check is the pattern test on the
    expansion of the denoted integer. *)
Lemma esMascaraSubredValida_direccion (s : string) (u : Z) :
  direccion s u -> u <> 0 -> u <> 2 ^ 32 - 1 ->
  esMascaraSubredValida s
  = Val (test patronMascara (binarioDe [byte u 3; byte u 2; byte u 1; byte u 0])).
Proof.
  intros Hd Hz Hf. unfold esMascaraSubredValida.
  assert (Hv : esDireccionIPValida s = Val true)
    by (apply esDireccionIPValida_spec; eauto).
  rewrite Hv. simpl. now rewrite (direccion_octetos _ _ Hd).
Qed.

Lemma expansion32_maskFromPrefix (a : nat) :
  (a <= 32)%nat ->
  Spec.expansion32 (Spec.maskFromPrefix (Z.of_nat a)) = Spec.unosCeros a (32 - a).
Proof.
  intros Ha. do 33 (destruct a as [|a]; [vm_compute; reflexivity |]). lia.
Qed.

Lemma expansion32_maskFromPrefix_Z (p : Z) :
  0 <= p <= 32 ->
  Spec.expansion32 (Spec.maskFromPrefix p)
  = Spec.unosCeros (Z.to_nat p) (Z.to_nat (32 - p)).
Proof.
  intros Hp. pose proof (expansion32_maskFromPrefix (Z.to_nat p)) as H.
  rewrite Z2Nat.id in H by lia. rewrite H by lia. f_equal. lia.
Qed.

Lemma maskFromPrefix_rango (p : Z) :
  0 <= p <= 32 -> 0 <= Spec.maskFromPrefix p < 2 ^ 32.
Proof.
  intros Hp. unfold Spec.maskFromPrefix.
  assert (0 < 2 ^ (32 - p) <= 2 ^ 32).
  { split; [apply Z.pow_pos_nonneg; lia | apply Z.pow_le_mono_r; lia]. }
  lia.
Qed.

(** An unsigned 32-bit integer whose expansion is ones then zeros is the
    mask of that prefix length. *)
Lemma unosCeros_maskFromPrefix (u : Z) (a b : nat) :
  0 <= u < 2 ^ 32 -> Spec.expansion32 u = Spec.unosCeros a b ->
  u = Spec.maskFromPrefix (Z.of_nat a) /\ (a + b = 32)%nat.
Proof.
  intros Hu H.
  assert (Hab : (a + b = 32)%nat).
  { rewrite <- unosCeros_length, <- H. apply expansion32_length. }
  split; [| assumption].
  apply expansion32_iny; [assumption | apply maskFromPrefix_rango; lia |].
  rewrite H, expansion32_maskFromPrefix by lia. f_equal. lia.
Qed.

(** Every accepted mask is the mask of a prefix length between 1 and 31. *)
Lemma mascara_valida_prefijo (s : string) :
  esMascaraSubredValida s = Val true ->
  exists p, 1 <= p <= 31 /\ direccion s (Spec.maskFromPrefix p).
Proof.
  intros H. unfold esMascaraSubredValida in H.
  destruct (esDireccionIPValida_total s) as [[] Hv]; rewrite Hv in H; simpl in H;
    [| discriminate].
  apply esDireccionIPValida_spec in Hv as (u & Hd & Hz & Hf).
  rewrite (direccion_octetos _ _ Hd) in H. simpl in H. injection H as H.
  apply patronMascara_spec in H as (a & b & H).
  rewrite binarioDe_expansion in H. apply bitChar_iny in H.
  apply unosCeros_maskFromPrefix in H as [Hu Hab]; [| now apply direccion_rango in Hd].
  exists (Z.of_nat a). rewrite <- Hu. split; [| assumption].
  assert (a <> 0)%nat by (intros ->; now apply Hz).
  assert (a <> 32)%nat by (intros ->; now apply Hf).
  lia.
Qed.

(** The zero bits the code counts in a mask of prefix length [p]. *)
Lemma calcularHostsDesdeMascara_prefijo (s : string) (p : Z) :
  0 <= p <= 32 -> direccion s (Spec.maskFromPrefix p) ->
  calcularHostsDesdeMascara s = Val (2 ^ (32 - p) - 2).
Proof.
  intros Hp Hd. unfold calcularHostsDesdeMascara.
  rewrite (direccion_octetos _ _ Hd). cbn [JS.bind].
  rewrite binarioDe_expansion, contar_ceros.
  rewrite expansion32_maskFromPrefix_Z, ceros_de_unosCeros by lia.
  rewrite Z2Nat.id by lia. reflexivity.
Qed.

(** The one bits the code counts in a mask of prefix length [p]. *)
Lemma obtenerInfoAdicional_prefijo (s : string) (p : Z) :
  0 <= p <= 32 -> direccion s (Spec.maskFromPrefix p) ->
  exists info, obtenerInfoAdicional s = Val info /\ bitsRed info = p.
Proof.
  intros Hp Hd. unfold obtenerInfoAdicional.
  rewrite (direccion_octetos _ _ Hd). cbn [JS.bind]. eexists. split; [reflexivity |].
  cbn [bitsRed]. rewrite binarioDe_expansion, contar_unos.
  rewrite expansion32_maskFromPrefix_Z, unos_de_unosCeros by lia. lia.
Qed.

Lemma prefixLength_maskFromPrefix (p : Z) :
  0 <= p <= 32 -> Spec.prefixLength (Spec.maskFromPrefix p) = p.
Proof.
  intros Hp. unfold Spec.prefixLength.
  rewrite expansion32_maskFromPrefix_Z, unos_de_unosCeros by lia. lia.
Qed.

End Mascara.

(* ================================================================== *)
(** * The complete calculation *)

Module Completa.

Import Regex RegexFacts Exhaustivo Forma Direccion ValidadorFacts Binario Mascara.
Import Validador CalculadoraSubredes.

(** Network and broadcast integers of address [a] under mask [m]. *)
Definition red (a m : Z) : Z := Z.land a m.
Definition difusion (a m : Z) : Z := Z.lor (red a m) (2 ^ 32 - 1 - m).

Lemma par_de_odd (x : Z) : Z.odd x = false -> exists k, x = 2 * k.
Proof.
  intros H. apply Z.even_spec. rewrite <- Z.negb_odd, H. reflexivity.
Qed.

Lemma red_rango (a m : Z) :
  0 <= a < 2 ^ 32 -> 0 <= m < 2 ^ 32 -> Z.odd m = false ->
  0 <= red a m /\ red a m + 1 < 2 ^ 32.
Proof.
  intros Ha Hm Hodd. pose proof (land_u32 a m Ha Hm) as Hr. unfold red.
  assert (Hp : Z.odd (Z.land a m) = false).
  { rewrite <- !Z.bit0_odd, Z.land_spec, !Z.bit0_odd, Hodd. apply andb_false_r. }
  apply par_de_odd in Hp as [k Hk]. lia.
Qed.

Lemma difusion_rango (a m : Z) :
  0 <= a < 2 ^ 32 -> 0 <= m < 2 ^ 32 -> Z.odd m = false ->
  0 <= difusion a m - 1 /\ difusion a m < 2 ^ 32.
Proof.
  intros Ha Hm Hodd. pose proof (land_u32 a m Ha Hm) as Hr.
  assert (Hc : 0 <= 2 ^ 32 - 1 - m < 2 ^ 32) by lia.
  pose proof (lor_u32 _ _ Hr Hc) as Hb. unfold difusion, red.
  assert (Hp : Z.odd (Z.lor (Z.land a m) (2 ^ 32 - 1 - m)) = true).
  { rewrite <- !Z.bit0_odd, Z.lor_spec, !Z.bit0_odd.
    replace (2 ^ 32 - 1 - m) with (2 ^ 32 - m - 1) by lia.
    rewrite Z.odd_sub, Z.odd_sub, Hodd. simpl. apply orb_true_r. }
  apply Z.odd_spec in Hp as [k Hk]. lia.
Qed.

(** What [calcularSubredCompleta] returns, in unsigned integers. *)
Lemma calcularSubredCompleta_spec (ip mascara : string) (a m h : Z) :
  direccion ip a -> direccion mascara m -> Z.odd m = false ->
  calcularHostsDesdeMascara mascara = Val h ->
  calcularSubredCompleta ip mascara
  = Val (ResultadoIp.nuevo
           (Spec.integerToAddress (red a m))
           mascara
           (Spec.integerToAddress (difusion a m))
           (Spec.integerToAddress (red a m + 1))
           (Spec.integerToAddress (difusion a m - 1))
           (Spec.integerToAddress (red a m + 1))
           h).
Proof.
  intros Ha Hm Hodd Hh.
  pose proof (direccion_rango _ _ Ha) as Ra. pose proof (direccion_rango _ _ Hm) as Rm.
  destruct (red_rango a m Ra Rm Hodd) as [Hr0 Hr1].
  destruct (difusion_rango a m Ra Rm Hodd) as [Hb0 Hb1].
  assert (Hred : direccion (Spec.integerToAddress (red a m)) (red a m))
    by (apply integerToAddress_direccion; lia).
  assert (Hdif : direccion (Spec.integerToAddress (difusion a m)) (difusion a m))
    by (apply integerToAddress_direccion; lia).
  unfold calcularSubredCompleta, calcularGateway.
  rewrite (calcularIpRed_spec _ _ _ _ Ha Hm). cbn [JS.bind]. fold (red a m).
  rewrite (calcularIpBroadcast_spec _ _ _ _ Hred Hm). cbn [JS.bind]. fold (difusion a m).
  rewrite (calcularPrimerHost_spec _ _ Hred Hr1). cbn [JS.bind].
  rewrite (calcularUltimoHost_spec _ _ Hdif Hb0). cbn [JS.bind].
  rewrite Hh. reflexivity.
Qed.

Lemma maskFromPrefix_par (p : Z) : 0 <= p <= 31 -> Z.odd (Spec.maskFromPrefix p) = false.
Proof.
  intros Hp. unfold Spec.maskFromPrefix.
  replace (32 - p) with (Z.succ (31 - p)) by lia.
  rewrite Z.pow_succ_r by lia.
  replace (2 ^ 32 - 2 * 2 ^ (31 - p)) with (2 * (2 ^ 31 - 2 ^ (31 - p))) by lia.
  apply Z.odd_mul.
Qed.

Lemma integerToAddress_no_vacia (u : Z) : Spec.integerToAddress u <> "".
Proof.
  rewrite integerToAddress_punteada. unfold punteada. intros H.
  apply append_vacio_inv in H as [_ H]. discriminate.
Qed.

(** What both calculation modes share: the record computed for address
    [a] under the mask of prefix length [p]. *)
Lemma completa_prefijo (ip mascara : string) (a p : Z) :
  direccion ip a -> direccion mascara (Spec.maskFromPrefix p) -> 1 <= p <= 31 ->
  let m := Spec.maskFromPrefix p in
  calcularSubredCompleta ip mascara
  = Val (ResultadoIp.nuevo
           (Spec.integerToAddress (red a m))
           mascara
           (Spec.integerToAddress (difusion a m))
           (Spec.integerToAddress (red a m + 1))
           (Spec.integerToAddress (difusion a m - 1))
           (Spec.integerToAddress (red a m + 1))
           (2 ^ (32 - p) - 2)).
Proof.
  intros Ha Hm Hp m. apply calcularSubredCompleta_spec; try assumption.
  - apply maskFromPrefix_par. lia.
  - apply calcularHostsDesdeMascara_prefijo; [lia | assumption].
Qed.

(** Both calculation modes on validated input give a record that passes
    [esValido]. *)
Lemma esValido_completa (ip mascara : string) (a p : Z) :
  direccion ip a -> direccion mascara (Spec.maskFromPrefix p) -> 1 <= p <= 31 ->
  exists r, calcularSubredCompleta ip mascara = Val r /\
            ResultadoIp.totalHosts r = 2 ^ (32 - p) - 2 /\
            ResultadoIp.esValido r = true.
Proof.
  intros Ha Hm Hp. eexists. split; [apply (completa_prefijo ip mascara a p Ha Hm Hp) |].
  split; [reflexivity |]. unfold ResultadoIp.esValido.
  cbn [ResultadoIp.networkIP ResultadoIp.subnetMask ResultadoIp.broadcastIP
       ResultadoIp.firstHostIP ResultadoIp.lastHostIP ResultadoIp.gatewayIP
       ResultadoIp.totalHosts].
  assert (Hne : forall u, negb (String.eqb (Spec.integerToAddress u) "") = true).
  { intros u. apply negb_true_iff, String.eqb_neq, integerToAddress_no_vacia. }
  rewrite !Hne.
  assert (Hmne : negb (String.eqb mascara "") = true).
  { apply negb_true_iff, String.eqb_neq, test_ipRegex_no_vacia, Hm. }
  rewrite Hmne. cbn [andb].
  assert (2 ^ 1 <= 2 ^ (32 - p)) by (apply Z.pow_le_mono_r; lia).
  apply Z.geb_le. lia.
Qed.

End Completa.

(* ================================================================== *)
(** * Masks built from a binary string *)

Module Construida.

Import Regex RegexFacts Exhaustivo Forma Direccion ValidadorFacts Binario Mascara Completa.
Import Validador CalculadoraSubredes.

(** The string of [q] ones and [32 - q] zeros, cut into octets, is the
    dotted form of the mask of prefix length [q]. *)
Lemma octetosDeBinario_prefijo (q : nat) :
  (q <= 32)%nat ->
  octetosDeBinario (Str.repeatNat "1" q ++ Str.repeatNat "0" (32 - q))
  = Spec.integerToAddress (Spec.maskFromPrefix (Z.of_nat q)).
Proof.
  intros Hq. do 33 (destruct q as [|q]; [vm_compute; reflexivity |]). lia.
Qed.

Lemma mascara_binaria (q : Z) :
  0 <= q <= 32 ->
  (let* unos := Str.repeat "1" (Entero q) in
   let* ceros := Str.repeat "0" (Entero (32 - q)) in
   Val (octetosDeBinario (unos ++ ceros)))
  = Val (Spec.integerToAddress (Spec.maskFromPrefix q)).
Proof.
  intros Hq. unfold Str.repeat.
  destruct (q <? 0) eqn:H1; [lia |]. destruct (32 - q <? 0) eqn:H2; [lia |].
  cbn [JS.bind]. f_equal.
  replace (Z.to_nat (32 - q)) with (32 - Z.to_nat q)%nat by lia.
  rewrite octetosDeBinario_prefijo by lia. now rewrite Z2Nat.id by lia.
Qed.

Lemma direccion_mascara (q : Z) :
  0 <= q <= 32 ->
  direccion (Spec.integerToAddress (Spec.maskFromPrefix q)) (Spec.maskFromPrefix q).
Proof. intros Hq. now apply integerToAddress_direccion, maskFromPrefix_rango. Qed.

(** [calcularMascaraDesdeHosts] in terms of the ceiling of the logarithm. *)
Lemma calcularMascaraDesdeHosts_spec (hosts : Z) :
  1 <= hosts + 2 <= 2 ^ 32 ->
  calcularMascaraDesdeHosts hosts
  = Val (Spec.integerToAddress (Spec.maskFromPrefix (32 - Z.log2_up (hosts + 2)))).
Proof.
  intros Hh. unfold calcularMascaraDesdeHosts, ceilLog2.
  destruct (hosts + 2 <? 0) eqn:H0; [lia |].
  destruct (hosts + 2 =? 0) eqn:H1; [lia |]. cbn [restarDe].
  set (k := Z.log2_up (hosts + 2)).
  assert (Hk : 0 <= k <= 32).
  { split; [apply Z.log2_up_nonneg | apply Z.log2_up_le_pow2; lia]. }
  rewrite <- (mascara_binaria (32 - k)) by lia.
  replace (32 - (32 - k)) with k by lia. reflexivity.
Qed.

(** The ceiling of the logarithm of a validated host count plus two. *)
Lemma log2_up_hosts (hosts : Z) :
  1 <= hosts <= 16777214 ->
  let k := Z.log2_up (hosts + 2) in
  2 <= k <= 24 /\ 2 ^ (k - 1) < hosts + 2 <= 2 ^ k.
Proof.
  intros Hh k.
  pose proof (Z.log2_up_spec (hosts + 2) ltac:(lia)) as Hs. fold k in Hs.
  assert (Hle : k <= 24) by (apply Z.log2_up_le_pow2; lia).
  assert (Hge : ~ k <= 1).
  { intros Hc. apply (Z.log2_up_le_pow2 (hosts + 2) 1) in Hc; lia. }
  replace (k - 1) with (Z.pred k) by lia. lia.
Qed.

End Construida.

(* ================================================================== *)
(** * Reading back a printed integer *)

Module Impreso.

Lemma digito_cifra :
  Str.digitoRadix 10 "0" = Some 0 /\ Str.digitoRadix 10 "1" = Some 1 /\
  Str.digitoRadix 10 "2" = Some 2 /\ Str.digitoRadix 10 "3" = Some 3 /\
  Str.digitoRadix 10 "4" = Some 4 /\ Str.digitoRadix 10 "5" = Some 5 /\
  Str.digitoRadix 10 "6" = Some 6 /\ Str.digitoRadix 10 "7" = Some 7 /\
  Str.digitoRadix 10 "8" = Some 8 /\ Str.digitoRadix 10 "9" = Some 9.
Proof. repeat split; reflexivity. Qed.

Ltac cifras :=
  destruct digito_cifra as (D0 & D1 & D2 & D3 & D4 & D5 & D6 & D7 & D8 & D9).

(** A string whose first byte starts no white-space character is its own
    [trimStart]. *)
Ltac sin_espacio :=
  match goal with
  | |- context [Str.trimStart (String ?c ?s)] =>
      change (Str.trimStart (String c s)) with (String c s)
  | |- context [Str.trimStart EmptyString] =>
      change (Str.trimStart EmptyString) with EmptyString
  end.

(** Reading the digits of [d] after a positive accumulator. *)
Lemma prefijo_acc (d : Decimal.uint) : forall acc : positive,
  Str.prefijoNumerico 10 (Some (Zpos acc)) (NilEmpty.string_of_uint d)
  = Some (Zpos (Pos.of_uint_acc d acc)).
Proof.
  cifras.
  induction d as [|d IH|d IH|d IH|d IH|d IH|d IH|d IH|d IH|d IH|d IH]; intros acc;
    cbn [NilEmpty.string_of_uint Str.prefijoNumerico Pos.of_uint_acc];
    [reflexivity | rewrite D0 | rewrite D1 | rewrite D2 | rewrite D3 | rewrite D4
     | rewrite D5 | rewrite D6 | rewrite D7 | rewrite D8 | rewrite D9];
    cbn [default from_option id]; rewrite <- IH; do 2 f_equal; lia.
Qed.

(** Reading the digits of [d] from scratch (leading zeros allowed). *)
Lemma prefijo_uint (d : Decimal.uint) : forall acc0 : option Z,
  default 0 acc0 = 0 ->
  Str.prefijoNumerico 10 acc0 (NilEmpty.string_of_uint d)
  = match d with
    | Decimal.Nil => acc0
    | _ => Some (Z.of_N (Pos.of_uint d))
    end.
Proof.
  cifras.
  assert (Hpos : forall l k, (1 <= k <= 9) ->
    Str.prefijoNumerico 10 (Some k) (NilEmpty.string_of_uint l)
    = Some (Zpos (Pos.of_uint_acc l (Z.to_pos k)))).
  { intros l k Hk. rewrite <- prefijo_acc. do 2 f_equal. lia. }
  induction d as [|d IH|d IH|d IH|d IH|d IH|d IH|d IH|d IH|d IH|d IH]; intros acc0 H0;
    cbn [NilEmpty.string_of_uint Str.prefijoNumerico Pos.of_uint];
    [reflexivity | rewrite D0 | rewrite D1 | rewrite D2 | rewrite D3 | rewrite D4
     | rewrite D5 | rewrite D6 | rewrite D7 | rewrite D8 | rewrite D9];
    rewrite H0; cbn [Z.mul Z.add];
    try (rewrite Hpos by lia; reflexivity).
  rewrite IH by reflexivity. destruct d; reflexivity.
Qed.

Lemma option_map_mul_1 (o : option Z) : option_map (Z.mul 1) o = o.
Proof. destruct o as [z|]; [simpl; f_equal; lia | reflexivity]. Qed.

(** [parseInt] on a run of digits takes no sign, no white space and no
    hexadecimal prefix. *)
Lemma parseInt_uint (d : Decimal.uint) :
  Str.parseInt (NilEmpty.string_of_uint d)
  = Str.prefijoNumerico 10 None (NilEmpty.string_of_uint d).
Proof.
  destruct d as [|d|d|d|d|d|d|d|d|d|d];
    try (unfold Str.parseInt; cbn [NilEmpty.string_of_uint]; sin_espacio;
         apply option_map_mul_1).
  destruct d; unfold Str.parseInt; cbn [NilEmpty.string_of_uint]; sin_espacio;
    apply option_map_mul_1.
Qed.

Lemma parseInt_neg_uint (d : Decimal.uint) :
  Str.parseInt (String "-" (NilEmpty.string_of_uint d))
  = option_map (Z.mul (-1)) (Str.prefijoNumerico 10 None (NilEmpty.string_of_uint d)).
Proof.
  destruct d as [|d|d|d|d|d|d|d|d|d|d]; try reflexivity.
  destruct d; reflexivity.
Qed.

Lemma to_uint_no_nil (p : positive) : Pos.to_uint p <> Decimal.Nil.
Proof.
  intros H. pose proof (DecimalPos.Unsigned.of_to p) as Hp.
  rewrite H in Hp. discriminate.
Qed.

Lemma NilZero_no_nil (d : Decimal.uint) :
  d <> Decimal.Nil -> NilZero.string_of_uint d = NilEmpty.string_of_uint d.
Proof. destruct d; [congruence | reflexivity..]. Qed.

Lemma prefijo_no_nil (d : Decimal.uint) :
  d <> Decimal.Nil ->
  Str.prefijoNumerico 10 None (NilEmpty.string_of_uint d)
  = Some (Z.of_N (Pos.of_uint d)).
Proof.
  intros Hd. rewrite prefijo_uint by reflexivity. destruct d; [congruence | reflexivity..].
Qed.

(** [parseInt(String(z)) = z] for every integer [z]. *)
Lemma parseInt_deNumero (z : Z) : Str.parseInt (Str.deNumero z) = Some z.
Proof.
  unfold Str.deNumero. destruct z as [|p|p]; [reflexivity | |];
    cbn [Z.to_int NilZero.string_of_int];
    pose proof (to_uint_no_nil p) as Hn;
    rewrite (NilZero_no_nil _ Hn).
  - rewrite parseInt_uint, (prefijo_no_nil _ Hn), DecimalPos.Unsigned.of_to.
    reflexivity.
  - rewrite parseInt_neg_uint, (prefijo_no_nil _ Hn), DecimalPos.Unsigned.of_to.
    reflexivity.
Qed.

End Impreso.

(* ================================================================== *)
(** * Canonical dotted decimals *)

Module Canonica.

Import Spec.
Import Regex RegexFacts Exhaustivo Forma Direccion ValidadorFacts.
Import CalculadoraSubredes.

Definition canonicoBienb (x : string) : bool :=
  implb (octetoCanonico x)
        match Str.valorDecimal 0 x with
        | Some v => String.eqb (Str.deNumero v) x
        | None => false
        end.

(** Printing the value of a canonical octet string gives the string back. *)
Lemma canonico_deNumero (x : string) (v : Z) :
  En Validador.octetoRegex x -> octetoCanonico x = true ->
  Str.valorDecimal 0 x = Some v -> Str.deNumero v = x.
Proof.
  intros Hx Hc Hv.
  apply (para_todo_octeto canonicoBienb) in Hx; [| vm_compute; reflexivity].
  unfold canonicoBienb in Hx. rewrite Hc, Hv in Hx. now apply String.eqb_eq.
Qed.

(** The round trip prints the integer that the string denotes. *)
Lemma ida_y_vuelta (s : string) (u : Z) :
  direccion s u ->
  exists n, ipANumero s = Val n /\
            numeroAIp n = Spec.integerToAddress u /\
            ipANumero (numeroAIp n) = Val n.
Proof.
  intros Hd. pose proof (direccion_rango _ _ Hd) as Hu.
  exists (Int32.ToInt32 u). split; [now apply direccion_ipANumero |].
  split.
  - rewrite numeroAIp_spec, Int32Facts.ToInt32_mod, Z.mod_small by lia. reflexivity.
  - rewrite ipANumero_numeroAIp. now rewrite Int32Facts.ToInt32_ToInt32.
Qed.

(** On a canonical well-formed string that printed form is the string. *)
Lemma integerToAddress_canonica (s : string) :
  test Validador.ipRegex s = true -> canonica s = true ->
  Spec.integerToAddress (Spec.addressToInteger s) = s.
Proof.
  intros Hr Hc.
  apply ipRegex_forma in Hr as (x0 & x1 & x2 & x3 & -> & E0 & E1 & E2 & E3).
  destruct (En_octeto_bien _ E0) as [v0 B0], (En_octeto_bien _ E1) as [v1 B1],
    (En_octeto_bien _ E2) as [v2 B2], (En_octeto_bien _ E3) as [v3 B3].
  unfold canonica in Hc.
  rewrite split_punteada in Hc by (apply B0 || apply B1 || apply B2 || apply B3).
  cbn [forallb] in Hc. rewrite !andb_true_iff in Hc.
  destruct Hc as (C0 & C1 & C2 & C3 & _).
  destruct (octetosDe_punteada _ _ _ _ _ _ _ _ B0 B1 B2 B3) as [_ ->].
  rewrite integerToAddress_punteada.
  destruct B0 as (_ & V0 & R0), B1 as (_ & V1 & R1), B2 as (_ & V2 & R2),
    B3 as (_ & V3 & R3).
  destruct (byte_empaquetar v0 v1 v2 v3 R0 R1 R2 R3) as (-> & -> & -> & ->).
  now rewrite (canonico_deNumero _ _ E0 C0 V0), (canonico_deNumero _ _ E1 C1 V1),
    (canonico_deNumero _ _ E2 C2 V2), (canonico_deNumero _ _ E3 C3 V3).
Qed.

(** The printed form of an integer is canonical. *)
Lemma integerToAddress_es_canonica (u : Z) :
  canonica (Spec.integerToAddress u) = true.
Proof.
  rewrite integerToAddress_punteada. unfold canonica.
  rewrite split_punteada by (apply deNumero_byte, byte_rango).
  assert (H : forall b, 0 <= b <= 255 -> octetoCanonico (Str.deNumero b) = true).
  { apply (para_todo_byte (fun b => octetoCanonico (Str.deNumero b))).
    vm_compute. reflexivity. }
  cbn [forallb]. now rewrite !H by apply byte_rango.
Qed.

End Canonica.

(* ================================================================== *)
(** * Host counts that are integers *)

Module Enteros.

Import Spec.
Import Exhaustivo Impreso.







End Enteros.

(* ================================================================== *)
(** * Splitting a network *)

Module Dividir.

Import Regex RegexFacts Exhaustivo Forma Direccion ValidadorFacts Binario Mascara Completa.
Import Validador CalculadoraSubredes.

Lemma mapM_Val {A B : Type} (f : A -> res B) (g : A -> B) (l : list A) :
  (forall x, In x l -> f x = Val (g x)) -> mapM f l = Val (map g l).
Proof.
  induction l as [|x l IH]; intros H; simpl.
  - reflexivity.
  - rewrite (H x) by now left. cbn [JS.bind].
    rewrite IH by (intros y Hy; apply H; now right). reflexivity.
Qed.

Lemma indices_In (n i : Z) : In i (indices n) <-> 0 <= i < n.
Proof.
  unfold indices. rewrite in_map_iff. split.
  - intros (k & <- & Hk). apply in_seq in Hk. lia.
  - intros Hi. exists (Z.to_nat i). split; [lia | apply in_seq; lia].
Qed.

Lemma indices_length (n : Z) : List.length (indices n) = Z.to_nat n.
Proof. unfold indices. now rewrite length_map, length_seq. Qed.

Lemma indices_nth (n i : Z) :
  0 <= i < n -> nth_error (indices n) (Z.to_nat i) = Some i.
Proof.
  intros Hi. unfold indices.
  rewrite nth_error_map, nth_error_seq.
  destruct (Nat.ltb_spec (Z.to_nat i) (Z.to_nat n)) as [_|Hc]; [| lia].
  simpl. f_equal. lia.
Qed.

Lemma mascara_producto (j : Z) :
  0 <= j <= 32 -> 2 ^ 32 - 2 ^ j = Z.shiftl (Z.ones (32 - j)) j.
Proof.
  intros Hj. rewrite Z.shiftl_mul_pow2, Z.ones_equiv by lia.
  unfold Z.pred. rewrite Z.mul_add_distr_r, <- Z.pow_add_r by lia.
  replace (32 - j + j) with 32 by lia. lia.
Qed.

Lemma testbit_mascara (j n : Z) :
  0 <= j <= 32 -> j <= n < 32 -> Z.testbit (2 ^ 32 - 2 ^ j) n = true.
Proof.
  intros Hj Hn. rewrite mascara_producto, Z.shiftl_spec by lia.
  apply Z.ones_spec_low. lia.
Qed.

Lemma testbit_multiplo (x j n : Z) :
  0 <= n < j -> x mod 2 ^ j = 0 -> Z.testbit x n = false.
Proof.
  intros Hn Hx. rewrite <- (Z.mod_pow2_bits_low x j n), Hx by lia. apply Z.bits_0.
Qed.

(** A multiple of [2^j] below [2^32] is its own network address under the
    mask that clears the low [j] bits. *)
Lemma land_multiplo (x j : Z) :
  0 <= x < 2 ^ 32 -> 0 <= j <= 32 -> x mod 2 ^ j = 0 ->
  Z.land x (2 ^ 32 - 2 ^ j) = x.
Proof.
  intros Hx Hj Hm. apply Z.bits_inj'. intros n Hn. rewrite Z.land_spec.
  destruct (Z_lt_le_dec n j) as [H1|H1].
  - now rewrite (testbit_multiplo x j n) by (lia || assumption).
  - destruct (Z_lt_le_dec n 32) as [H2|H2].
    + rewrite testbit_mascara by lia. apply andb_true_r.
    + now rewrite (testbit_u32_alto x n) by (lia || assumption).
Qed.

(** The network address has its low [j] bits clear. *)
Lemma red_multiplo (a j : Z) :
  0 <= j <= 32 -> Z.land a (2 ^ 32 - 2 ^ j) mod 2 ^ j = 0.
Proof.
  intros Hj. rewrite <- Z.land_ones, <- Z.land_assoc, Z.land_ones by lia.
  rewrite mascara_producto, Z.shiftl_mul_pow2, Z.mod_mul by lia.
  apply Z.land_0_r.
Qed.

(** The ceiling of the binary logarithm of a positive integer. *)
Lemma log2_up_techo (n : Z) : 1 <= n -> 0 <= Z.log2_up n /\ n <= 2 ^ Z.log2_up n.
Proof.
  intros Hn. split; [apply Z.log2_up_nonneg |].
  destruct (Z.eq_dec n 1) as [->|Hne]; [vm_compute; discriminate |].
  apply (Z.log2_up_spec n). lia.
Qed.

Lemma octetosDeBinario_Z (q : Z) :
  0 <= q <= 32 ->
  octetosDeBinario (Str.repeatNat "1" (Z.to_nat q) ++ Str.repeatNat "0" (Z.to_nat (32 - q)))
  = Spec.integerToAddress (Spec.maskFromPrefix q).
Proof.
  intros Hq. replace (Z.to_nat (32 - q)) with (32 - Z.to_nat q)%nat by lia.
  rewrite Construida.octetosDeBinario_prefijo by lia. now rewrite Z2Nat.id by lia.
Qed.

(** The record of the block that starts at the integer [x] under the
    mask of prefix length [q]. *)
Definition bloque (q x : Z) : ResultadoIp.t :=
  let mq := Spec.maskFromPrefix q in
  ResultadoIp.nuevo
    (Spec.integerToAddress x)
    (Spec.integerToAddress mq)
    (Spec.integerToAddress (difusion x mq))
    (Spec.integerToAddress (x + 1))
    (Spec.integerToAddress (difusion x mq - 1))
    (Spec.integerToAddress (x + 1))
    (2 ^ (32 - q) - 2).

(** The network address lies on a boundary of its own block. *)
Lemma base_rango (a p : Z) :
  0 <= a < 2 ^ 32 -> 1 <= p <= 31 ->
  let base := red a (Spec.maskFromPrefix p) in
  0 <= base /\ base + 2 ^ (32 - p) <= 2 ^ 32 /\ base mod 2 ^ (32 - p) = 0.
Proof.
  intros Ha Hp base.
  pose proof (maskFromPrefix_rango p ltac:(lia)) as Rm.
  pose proof (land_u32 a _ Ha Rm) as Rb. fold (red a (Spec.maskFromPrefix p)) in Rb.
  fold base in Rb.
  pose proof (red_multiplo a (32 - p) ltac:(lia)) as Hm.
  fold (Spec.maskFromPrefix p) in Hm. fold (red a (Spec.maskFromPrefix p)) in Hm.
  fold base in Hm.
  split; [lia |]. split; [| assumption].
  assert (Hpos : 0 < 2 ^ (32 - p)) by (apply Z.pow_pos_nonneg; lia).
  assert (Htot : 2 ^ 32 = 2 ^ (32 - p) * 2 ^ p).
  { rewrite <- Z.pow_add_r by lia. f_equal. lia. }
  apply Z.mod_divide in Hm; [| lia]. destruct Hm as [t Ht].
  rewrite Htot. rewrite Htot in Rb.
  remember (2 ^ (32 - p)) as P eqn:EP. remember (2 ^ p) as Q eqn:EQ.
  clear EP EQ Htot. assert (t < Q) by nia. nia.
Qed.

Section Bloques.

(** A network of prefix length [p] holding the address [a], cut into
    [n] blocks: [q] is [p] plus the ceiling of the binary logarithm of
    [n], the new prefix length. *)
Variables (a p n : Z).
Hypothesis Ha : 0 <= a < 2 ^ 32.
Hypothesis Hp : 1 <= p <= 31.
Hypothesis Hn : 1 <= n.
Hypothesis Hq : p + Z.log2_up n <= 30.

Let q := p + Z.log2_up n.
Let base := red a (Spec.maskFromPrefix p).
Let size := 2 ^ (32 - q).

Lemma size_pos : 0 < size.
Proof using Hn Hq.
  clear base Ha. apply Z.pow_pos_nonneg; [lia |]. unfold q.
  pose proof (log2_up_techo n Hn). lia.
Qed.

Lemma bloque_entero : 2 ^ (32 - p) = size * 2 ^ Z.log2_up n.
Proof using Hn Hq.
  clear base Ha. pose proof (log2_up_techo n Hn) as [Hb _]. unfold size, q.
  rewrite <- Z.pow_add_r by lia. f_equal. lia.
Qed.

(** Every block starts inside the network and on a block boundary. *)
Lemma bloque_rango (i : Z) :
  0 <= i < n ->
  0 <= base + i * size /\ base + i * size + size <= 2 ^ 32 /\
  (base + i * size) mod size = 0.
Proof using Ha Hp Hn Hq.
  intros Hi. pose proof (log2_up_techo n Hn) as [Hb Hnb]. pose proof size_pos as Hs.
  pose proof (base_rango a p Ha Hp) as (Hb0 & Hb1 & Hm). fold base in Hb0, Hb1, Hm.
  pose proof bloque_entero as He. rewrite He in Hb1, Hm.
  apply Z.mod_divide in Hm; [| nia]. destruct Hm as [t Ht].
  remember (2 ^ Z.log2_up n) as B eqn:EB. clear EB He.
  split; [nia |]. split; [nia |].
  replace (base + i * size) with ((t * B + i) * size) by nia.
  apply Z.mod_mul. lia.
Qed.

Lemma bloque_red (i : Z) :
  0 <= i < n -> red (base + i * size) (Spec.maskFromPrefix q) = base + i * size.
Proof using Ha Hp Hn Hq.
  intros Hi. destruct (bloque_rango i Hi) as (H0 & H1 & Hm).
  pose proof size_pos. pose proof (log2_up_techo n Hn).
  unfold red, Spec.maskFromPrefix. apply land_multiplo; [lia | unfold q; lia | exact Hm].
Qed.

End Bloques.

(** [dividirEnSubredes] on a network of prefix length [p] that holds [a],
    when the new prefix length fits. *)
Lemma dividirEnSubredes_bloques (ip mascara : string) (a p n : Z) :
  direccion ip a -> direccion mascara (Spec.maskFromPrefix p) ->
  1 <= p <= 31 -> 1 <= n -> p + Z.log2_up n <= 30 ->
  let q := p + Z.log2_up n in
  let base := red a (Spec.maskFromPrefix p) in
  let size := 2 ^ (32 - q) in
  dividirEnSubredes ip mascara n
  = Val (map (fun i => bloque q (base + i * size)) (indices n)).
Proof.
  intros Ha Hm Hp Hn Hq q base size.
  pose proof (direccion_rango _ _ Ha) as Ra.
  pose proof (log2_up_techo n Hn) as [Hb _].
  unfold dividirEnSubredes, ceilLog2.
  destruct (n <? 0) eqn:Hn0; [lia |]. destruct (n =? 0) eqn:Hn1; [lia |].
  destruct (obtenerInfoAdicional_prefijo mascara p ltac:(lia) Hm) as (info & Hi & Hbits).
  rewrite Hi. cbn [JS.bind]. rewrite Hbits. cbn [sumarA mayorQue restarDe potencia2].
  fold q. destruct (q >? 30) eqn:Hgt; [lia |].
  unfold Str.repeat.
  destruct (q <? 0) eqn:H1; [lia |]. destruct (32 - q <? 0) eqn:H2; [lia |].
  cbn [JS.bind]. rewrite octetosDeBinario_Z by lia.
  rewrite (calcularIpRed_spec _ _ _ _ Ha Hm). cbn [JS.bind].
  fold (red a (Spec.maskFromPrefix p)). fold base.
  destruct (base_rango a p Ra Hp) as (Hb0 & Hb1 & _). fold base in Hb0, Hb1.
  assert (Hbase : base < 2 ^ 32).
  { assert (0 < 2 ^ (32 - p)) by (apply Z.pow_pos_nonneg; lia). lia. }
  rewrite (direccion_ipANumero _ base) by (apply integerToAddress_direccion; lia).
  cbn [JS.bind]. apply mapM_Val. intros i Hin. apply indices_In in Hin.
  destruct (bloque_rango a p n Ra Hp Hn Hq i Hin) as (Hx0 & Hx1 & _).
  fold q in Hx0, Hx1. fold base in Hx0, Hx1. fold size in Hx0, Hx1.
  pose proof (size_pos p n Hn Hq) as Hs. fold q in Hs. fold size in Hs.
  rewrite numeroAIp_spec. fold size.
  replace ((Int32.ToInt32 base + i * size) mod 2 ^ 32) with (base + i * size).
  2:{ generalize dependent (i * size). intros y Hy0 Hy1.
      unfold Int32.ToInt32. Z.div_mod_to_equations. lia. }
  rewrite (completa_prefijo (Spec.integerToAddress (base + i * size))
             (Spec.integerToAddress (Spec.maskFromPrefix q)) (base + i * size) q).
  - unfold bloque. cbv zeta.
    pose proof (bloque_red a p n Ra Hp Hn Hq i Hin) as Hr.
    fold q in Hr. fold base in Hr. fold size in Hr. now rewrite Hr.
  - apply integerToAddress_direccion. lia.
  - apply Construida.direccion_mascara. lia.
  - lia.
Qed.

End Dividir.

(* ================================================================== *)
(** * The sort *)

Module Orden.

Import Arreglos Spec.

Section PorClave.

(** Elements compared through an integer key, larger keys first, as
    [(a, b) => b - a] does on numbers. *)
Context {A : Type}.
Variable clave : A -> Z.

Let cmp (a b : A) : Z := clave b - clave a.

Lemma insertar_perm (x : A) (l : list A) : Permutation (insertar cmp x l) (x :: l).
Proof.
  induction l as [|y l IH]; simpl.
  - reflexivity.
  - destruct (cmp x y <=? 0); [reflexivity |].
    rewrite IH. apply perm_swap.
Qed.

Lemma ordenar_perm (l : list A) : Permutation (ordenar cmp l) l.
Proof.
  induction l as [|x l IH]; simpl; [reflexivity |].
  rewrite insertar_perm. now constructor.
Qed.

Lemma ordenar_length (l : list A) : List.length (ordenar cmp l) = List.length l.
Proof. apply Permutation_length, ordenar_perm. Qed.

(** Position in the input, used to say what stability means. *)
Variable pos : A -> Z.

Lemma antes_clave (x y : A) : Spec.antes clave pos x y -> clave x >= clave y.
Proof. unfold Spec.antes. lia. Qed.

Lemma insertar_antes (x : A) (l : list A) :
  StronglySorted (Spec.antes clave pos) l -> Forall (fun y => pos x < pos y) l ->
  StronglySorted (Spec.antes clave pos) (insertar cmp x l).
Proof.
  induction l as [|y l IH]; intros Hs Hp; simpl.
  - repeat constructor.
  - apply StronglySorted_inv in Hs as [Hs Hy].
    apply Forall_cons_iff in Hp as [Hpy Hp].
    unfold cmp at 1. destruct (clave y - clave x <=? 0) eqn:Hc.
    + constructor; [now constructor |].
      constructor; [unfold Spec.antes; lia |].
      rewrite Forall_forall in Hy, Hp |- *. intros z Hz.
      specialize (Hy z Hz). specialize (Hp z Hz). unfold Spec.antes in *. lia.
    + constructor; [now apply IH |].
      rewrite (insertar_perm x l). constructor; [unfold Spec.antes; lia | assumption].
Qed.

(** The sort puts larger keys first and, among equal keys, keeps the
    input order. *)
Lemma ordenar_antes (l : list A) :
  StronglySorted (fun x y => pos x < pos y) l ->
  StronglySorted (Spec.antes clave pos) (ordenar cmp l).
Proof.
  induction l as [|x l IH]; intros Hs; simpl.
  - constructor.
  - apply StronglySorted_inv in Hs as [Hs Hx].
    apply insertar_antes; [now apply IH |].
    now rewrite (ordenar_perm l).
Qed.

End PorClave.

(** Sorting commutes with a map that preserves the comparison. *)
Lemma ordenar_map {A B : Type} (f : A -> B) (cmpA : A -> A -> Z) (cmpB : B -> B -> Z)
    (l : list A) :
  (forall a b, cmpA a b = cmpB (f a) (f b)) ->
  map f (ordenar cmpA l) = ordenar cmpB (map f l).
Proof.
  intros H.
  assert (Hi : forall x s, map f (insertar cmpA x s) = insertar cmpB (f x) (map f s)).
  { intros x s. induction s as [|y s IH]; simpl; [reflexivity |].
    rewrite <- H. destruct (cmpA x y <=? 0); simpl; [reflexivity | now rewrite IH]. }
  induction l as [|x l IH]; simpl; [reflexivity |]. now rewrite Hi, IH.
Qed.

Lemma etiquetar_fst (i : Z) (l : list Z) : map fst (etiquetar i l) = l.
Proof. revert i. induction l as [|x l IH]; intros i; simpl; [reflexivity | now rewrite IH]. Qed.

Lemma etiquetar_desde (i : Z) (l : list Z) :
  Forall (fun p => i <= snd p) (etiquetar i l).
Proof.
  revert i. induction l as [|x l IH]; intros i; simpl; constructor; [simpl; lia |].
  eapply Forall_impl; [| apply (IH (i + 1))]. simpl. intros p Hp. lia.
Qed.

Lemma etiquetar_creciente (i : Z) (l : list Z) :
  StronglySorted (fun p1 p2 : Z * Z => snd p1 < snd p2) (etiquetar i l).
Proof.
  revert i. induction l as [|x l IH]; intros i; simpl; constructor; [apply IH |].
  eapply Forall_impl; [| apply (etiquetar_desde (i + 1))]. simpl. intros p Hp. lia.
Qed.

Lemma antes_descendente (ps : list (Z * Z)) :
  StronglySorted (Spec.antes fst snd) ps -> StronglySorted Z.ge (map fst ps).
Proof.
  induction 1 as [|p ps Hs IH Hall]; simpl; constructor; [assumption |].
  rewrite Forall_map. eapply Forall_impl; [| exact Hall].
  intros q Hq. now apply antes_clave in Hq.
Qed.

(** The sorted numbers are the input, largest first; with their input
    positions attached, equal numbers come in input order. *)
Lemma ordenar_descendente (l : list Z) :
  let s := ordenar (fun a b => b - a) l in
  Permutation s l /\
  StronglySorted Z.ge s /\
  exists ps : list (Z * Z),
    map fst ps = s /\
    Permutation ps (etiquetar 0 l) /\
    StronglySorted (Spec.antes fst snd) ps.
Proof.
  intros s.
  set (ps := ordenar (fun a b : Z * Z => fst b - fst a) (etiquetar 0 l)).
  assert (Hfst : map fst ps = s).
  { unfold ps. rewrite (ordenar_map fst _ (fun a b => b - a)) by reflexivity.
    now rewrite etiquetar_fst. }
  assert (Hs : StronglySorted (Spec.antes fst snd) ps)
    by apply ordenar_antes, etiquetar_creciente.
  split; [apply (ordenar_perm (fun x : Z => x)) |]. split.
  - rewrite <- Hfst. now apply antes_descendente.
  - exists ps. split; [assumption |]. split; [apply (ordenar_perm fst) | assumption].
Qed.

End Orden.

(* ================================================================== *)
(** * The percentage in binary64

    [SFdiv] and [SFmul] round to nearest; the lemmas follow a quotient
    through its location in the unit interval of its mantissa, down to
    the number that [toFixed] prints. *)

Module Redondeo.

Import Flotante.
Import CalculadoraSubredes.

(** The number of binary digits of a positive integer. *)
Lemma digits2_pos_spec (p : positive) :
  2 ^ (Zpos (digits2_pos p) - 1) <= Zpos p < 2 ^ Zpos (digits2_pos p).
Proof.
  induction p as [p IH|p IH|]; cbn [digits2_pos].
  - rewrite Pos2Z.inj_succ. change (Zpos p~1) with (2 * Zpos p + 1).
    replace (Z.succ (Zpos (digits2_pos p)) - 1) with (Z.succ (Zpos (digits2_pos p) - 1)) by lia.
    rewrite !Z.pow_succ_r by lia. lia.
  - rewrite Pos2Z.inj_succ. change (Zpos p~0) with (2 * Zpos p).
    replace (Z.succ (Zpos (digits2_pos p)) - 1) with (Z.succ (Zpos (digits2_pos p) - 1)) by lia.
    rewrite !Z.pow_succ_r by lia. lia.
  - simpl. lia.
Qed.

Lemma Zdigits2_unico (z k : Z) :
  2 ^ (k - 1) <= z < 2 ^ k -> 0 < z -> Zdigits2 z = k.
Proof.
  intros Hz Hpos. destruct z as [|p|p]; try lia. cbn [Zdigits2].
  pose proof (digits2_pos_spec p) as Hd.
  set (d := Zpos (digits2_pos p)) in *.
  assert (Hk : 0 < k).
  { destruct (Z_lt_le_dec 0 k) as [|Hle]; [assumption |].
    rewrite (Z.pow_neg_r 2 (k - 1)) in Hz by lia.
    destruct (Z.eq_dec k 0) as [->|Hne]; [simpl in Hz; lia |].
    rewrite (Z.pow_neg_r 2 k) in Hz by lia. lia. }
  destruct (Z.lt_trichotomy d k) as [Hlt | [Heq | Hgt]]; [| assumption |].
  - assert (2 ^ d <= 2 ^ (k - 1)) by (apply Z.pow_le_mono_r; lia). lia.
  - assert (2 ^ k <= 2 ^ (d - 1)) by (apply Z.pow_le_mono_r; lia). lia.
Qed.

(** [N / D] lies in [[m, m + 1)], at the place that [l] tells. *)
Definition ubicado (m : Z) (l : location) (N D : Z) : Prop :=
  match l with
  | loc_Exact => N = m * D
  | loc_Inexact c => m * D < N < (m + 1) * D /\ (2 * N ?= (2 * m + 1) * D) = c
  end.

Definition ubicadoR (r : shr_record) (N D : Z) : Prop :=
  0 <= shr_m r /\ ubicado (shr_m r) (loc_of_shr_record r) N D.

Lemma compare_casos (a b : Z) (c : comparison) :
  (a ?= b) = c <->
  match c with Eq => a = b | Lt => a < b | Gt => b < a end.
Proof.
  destruct c; [apply Z.compare_eq_iff | apply Z.compare_lt_iff |].
  rewrite Z.compare_gt_iff. tauto.
Qed.

Lemma shr_1_ubicado (r : shr_record) (N D : Z) :
  0 < D -> ubicadoR r N D -> ubicadoR (shr_1 r) N (2 * D).
Proof.
  intros HD [Hm Hu]. destruct r as [m rb sb]. unfold ubicadoR.
  cbn [shr_m] in *.
  destruct m as [|p|p]; [| | lia].
  - destruct rb, sb;
      cbn [shr_1 orb shr_m loc_of_shr_record ubicado] in *;
      rewrite ?compare_casos in *; lia.
  - destruct p as [p|p|]; destruct rb, sb;
      cbn [shr_1 orb shr_m loc_of_shr_record ubicado] in *;
      rewrite ?compare_casos in *;
      try change (Zpos p~1) with (2 * Zpos p + 1) in *;
      try change (Zpos p~0) with (2 * Zpos p) in *; lia.
Qed.

Lemma iter_shr_ubicado (p : positive) : forall (r : shr_record) (N D : Z),
  0 < D -> ubicadoR r N D -> ubicadoR (iter_pos shr_1 p r) N (2 ^ Zpos p * D).
Proof.
  induction p as [p IH|p IH|]; intros r N D HD Hr; cbn [iter_pos].
  - replace (2 ^ Zpos p~1 * D) with (2 ^ Zpos p * (2 ^ Zpos p * (2 * D))).
    + assert (0 < 2 ^ Zpos p) by (apply Z.pow_pos_nonneg; lia).
      apply IH; [nia |]. apply IH; [lia |]. now apply shr_1_ubicado.
    + change (Zpos p~1) with (2 * Zpos p + 1).
      rewrite Z.pow_add_r, Z.pow_mul_r by lia.
      change (2 ^ 2) with 4. change (2 ^ 1) with 2.
      replace (4 ^ Zpos p) with (2 ^ Zpos p * 2 ^ Zpos p); [ring |].
      rewrite <- Z.pow_mul_l. reflexivity.
  - replace (2 ^ Zpos p~0 * D) with (2 ^ Zpos p * (2 ^ Zpos p * D)).
    + assert (0 < 2 ^ Zpos p) by (apply Z.pow_pos_nonneg; lia).
      apply IH; [nia |]. now apply IH.
    + change (Zpos p~0) with (2 * Zpos p).
      rewrite Z.pow_mul_r by lia. change (2 ^ 2) with 4.
      replace (4 ^ Zpos p) with (2 ^ Zpos p * 2 ^ Zpos p); [ring |].
      rewrite <- Z.pow_mul_l. reflexivity.
  - change (2 ^ 1) with 2. now apply shr_1_ubicado.
Qed.

(** Shifting [n] places divides the scale by [2^n]. *)
Lemma shr_ubicado (r : shr_record) (e n N D : Z) :
  0 < D -> 0 <= n -> ubicadoR r N D ->
  ubicadoR (fst (shr r e n)) N (2 ^ n * D) /\ snd (shr r e n) = e + n.
Proof.
  intros HD Hn Hr. destruct n as [|p|p]; [| | lia]; cbn [shr fst snd].
  - split; [| lia]. now rewrite Z.mul_1_l.
  - split; [| reflexivity]. now apply iter_shr_ubicado.
Qed.

Lemma ubicado_record (m : Z) (l : location) (N D : Z) :
  0 <= m -> ubicado m l N D -> ubicadoR (shr_record_of_loc m l) N D.
Proof.
  intros Hm Hu. destruct l as [|[]]; (split; [exact Hm | exact Hu]).
Qed.

(** What is located within [[m, m + 1)] lies between the two. *)
Lemma ubicado_entre (m : Z) (l : location) (N D : Z) :
  0 < D -> ubicado m l N D -> m * D <= N < (m + 1) * D.
Proof. intros HD Hu. destruct l; cbn [ubicado] in Hu; lia. Qed.

(** Rounding to nearest lands within half a unit. *)
Lemma round_nearest_even_cerca (m : Z) (l : location) (N D : Z) :
  0 < D -> ubicado m l N D ->
  m <= round_nearest_even m l <= m + 1 /\
  2 * Z.abs (round_nearest_even m l * D - N) <= D.
Proof.
  intros HD Hu. destruct l as [|[]]; cbn [ubicado round_nearest_even] in *;
    rewrite ?compare_casos in *; try destruct (Z.even m); lia.
Qed.

Lemma fexp_normal (e : Z) : -1074 <= e - 53 -> fexp 53 1024 e = e - 53.
Proof. intros He. unfold fexp, emin. lia. Qed.

Lemma entre_productos (a b N D : Z) : 0 < D -> a * D <= N < b * D -> a < b.
Proof. intros HD H. nia. Qed.

Lemma potencia_suma (a b : Z) : 0 <= a -> 0 <= b -> 2 ^ (a + b) = 2 ^ a * 2 ^ b.
Proof. intros. now apply Z.pow_add_r. Qed.

(** The rounding of a located mantissa that has at least 53 digits and an
    exponent in the range of the normal numbers: a normal number within
    half a unit of its last place. *)
Lemma binary_round_aux_cerca (sx : bool) (mx ex : Z) (lx : location) (N D k : Z) :
  0 < D -> ubicado mx lx N D ->
  2 ^ (k - 1) <= mx < 2 ^ k -> 53 <= k ->
  -1074 <= k + ex - 53 -> k + ex - 52 <= 971 ->
  exists (m : positive) (e : Z),
    binary_round_aux 53 1024 sx mx ex lx = S754_finite sx m e /\
    2 ^ 52 <= Zpos m < 2 ^ 53 /\
    k - 53 <= e - ex <= k - 52 /\
    2 * Z.abs (Zpos m * 2 ^ (e - ex) * D - N) <= 2 ^ (e - ex) * D.
Proof.
  intros HD Hu Hmx Hk Hlo Hhi.
  assert (Hpos : 0 < mx).
  { assert (0 < 2 ^ (k - 1)) by (apply Z.pow_pos_nonneg; lia). lia. }
  set (n := k - 53).
  assert (Hn : 0 <= n) by (unfold n; lia).
  assert (H2n : 0 < 2 ^ n) by (apply Z.pow_pos_nonneg; lia).
  assert (Hk1 : 2 ^ (k - 1) = 2 ^ n * 2 ^ 52).
  { rewrite <- potencia_suma by lia. f_equal. unfold n. lia. }
  assert (Hk2 : 2 ^ k = 2 ^ n * 2 ^ 53).
  { rewrite <- potencia_suma by lia. f_equal. unfold n. lia. }
  unfold binary_round_aux, shr_fexp.
  rewrite (Zdigits2_unico mx k Hmx Hpos), fexp_normal by lia.
  replace (k + ex - 53 - ex) with n by (unfold n; lia).
  destruct (shr_ubicado (shr_record_of_loc mx lx) ex n N D HD Hn
              (ubicado_record mx lx N D ltac:(lia) Hu)) as [[Hm1 Hu1] He1].
  destruct (shr (shr_record_of_loc mx lx) ex n) as [r1 e1]. cbn [fst snd] in *.
  subst e1. set (m1 := shr_m r1) in *.
  pose proof (ubicado_entre mx lx N D HD Hu) as Bx.
  pose proof (ubicado_entre m1 _ N (2 ^ n * D) ltac:(nia) Hu1) as B1.
  assert (Hm1r : 2 ^ 52 <= m1 < 2 ^ 53).
  { assert (m1 * 2 ^ n < mx + 1).
    { apply (entre_productos _ _ N D HD). split; [| lia].
      rewrite <- Z.mul_assoc. lia. }
    assert (mx < (m1 + 1) * 2 ^ n).
    { apply (entre_productos _ _ N D HD). split; [lia |].
      rewrite <- Z.mul_assoc. lia. }
    nia. }
  destruct (round_nearest_even_cerca m1 _ N (2 ^ n * D) ltac:(nia) Hu1) as [Hr Hc].
  set (r := round_nearest_even m1 (loc_of_shr_record r1)) in *.
  destruct (Z.eq_dec r (2 ^ 53)) as [Hr53 | Hr53].
  - rewrite Hr53.
    replace (Zdigits2 (2 ^ 53)) with 54 by reflexivity.
    rewrite fexp_normal by lia.
    replace (54 + (ex + n) - 53 - (ex + n)) with 1 by lia.
    cbn [shr shr_record_of_loc iter_pos]. change (2 ^ 53) with (Zpos (xO (Z.to_pos (2 ^ 52)))).
    cbn [shr_1 orb shr_m].
    destruct (Z.leb_spec (ex + n + 1) (1024 - 53)) as [_ | Hc']; [| unfold n in Hc'; lia].
    exists (Z.to_pos (2 ^ 52)), (ex + n + 1).
    split; [reflexivity |]. split; [vm_compute; split; [discriminate | reflexivity] |].
    split; [unfold n; lia |].
    replace (ex + n + 1 - ex) with (n + 1) by lia.
    rewrite potencia_suma by lia. change (2 ^ 1) with 2.
    change (Zpos (Z.to_pos (2 ^ 52))) with (2 ^ 52).
    replace (2 ^ 52 * (2 ^ n * 2) * D) with (r * (2 ^ n * D)).
    + nia.
    + rewrite Hr53. change (2 ^ 53) with (2 ^ 52 * 2). ring.
  - assert (Hrr : 2 ^ 52 <= r < 2 ^ 53) by lia.
    rewrite (Zdigits2_unico r 53) by (change (53 - 1) with 52; lia).
    rewrite fexp_normal by lia.
    replace (53 + (ex + n) - 53 - (ex + n)) with 0 by lia.
    cbn [shr shr_record_of_loc shr_m].
    destruct r as [|p|p] eqn:Er; try lia.
    destruct (Z.leb_spec (ex + n) (1024 - 53)) as [_ | Hc']; [| unfold n in Hc'; lia].
    exists p, (ex + n). split; [reflexivity |]. split; [exact Hrr |].
    split; [unfold n; lia |].
    replace (ex + n - ex) with n by lia.
    rewrite <- Z.mul_assoc. exact Hc.
Qed.

(** A mantissa of 53 digits with an exponent in range is its own
    rounding. *)
Lemma binary_round_aux_exacto (sx : bool) (m : positive) (ex : Z) :
  2 ^ 52 <= Zpos m < 2 ^ 53 -> -1074 <= ex <= 971 ->
  binary_round_aux 53 1024 sx (Zpos m) ex loc_Exact = S754_finite sx m ex.
Proof.
  intros Hm He. unfold binary_round_aux, shr_fexp.
  rewrite (Zdigits2_unico (Zpos m) 53) by (change (53 - 1) with 52; lia).
  rewrite fexp_normal by lia.
  replace (53 + ex - 53 - ex) with 0 by lia.
  cbn [shr shr_record_of_loc shr_m loc_of_shr_record round_nearest_even].
  rewrite (Zdigits2_unico (Zpos m) 53) by (change (53 - 1) with 52; lia).
  rewrite fexp_normal by lia.
  replace (53 + ex - 53 - ex) with 0 by lia.
  cbn [shr shr_record_of_loc shr_m].
  destruct (Z.leb_spec ex (1024 - 53)); [reflexivity | lia].
Qed.

Lemma iter_xO (p k : positive) : Zpos (Pos.iter xO p k) = Zpos p * 2 ^ Zpos k.
Proof.
  induction k as [|k IH] using Pos.peano_ind.
  - cbn [Pos.iter]. change (2 ^ 1) with 2. lia.
  - rewrite Pos.iter_succ, Pos2Z.inj_succ, Z.pow_succ_r by lia.
    change (Zpos (Pos.iter xO p k)~0) with (2 * Zpos (Pos.iter xO p k)).
    rewrite IH. ring.
Qed.

(** The number that holds a positive integer below [2^53]: the integer
    itself, scaled to 53 digits. *)
Lemma deEntero_normal (z : Z) :
  0 < z < 2 ^ 53 ->
  exists (m : positive) (k : Z),
    deEntero z = S754_finite false m (- k) /\
    0 <= k <= 52 /\ Zpos m = z * 2 ^ k /\ 2 ^ 52 <= Zpos m < 2 ^ 53.
Proof.
  intros Hz. destruct z as [|p|p]; try lia.
  unfold deEntero, binary_normalize, binary_round, prec, emax.
  pose proof (digits2_pos_spec p) as Hd.
  set (d := Zpos (digits2_pos p)) in *.
  assert (Hd1 : 1 <= d) by (unfold d; lia).
  assert (Hd53 : d <= 53).
  { destruct (Z_le_gt_dec d 53) as [|Hgt]; [assumption |].
    assert (2 ^ 53 <= 2 ^ (d - 1)) by (apply Z.pow_le_mono_r; lia). lia. }
  rewrite fexp_normal by lia. unfold shl_align.
  destruct (d + 0 - 53 - 0) as [|q|q] eqn:Eq; try lia.
  - assert (d = 53) by lia.
    assert (Hp : 2 ^ 52 <= Zpos p < 2 ^ 53).
    { replace d with 53 in Hd by lia. exact Hd. }
    rewrite binary_round_aux_exacto by (assumption || lia).
    exists p, 0. split; [reflexivity |]. split; [lia |]. split; [lia | exact Hp].
  - assert (Hq : Zpos q = 53 - d) by lia.
    assert (Hm : Zpos (Pos.iter xO p q) = Zpos p * 2 ^ (53 - d)).
    { rewrite iter_xO. now rewrite Hq. }
    assert (Hr : 2 ^ 52 <= Zpos (Pos.iter xO p q) < 2 ^ 53).
    { rewrite Hm.
      assert (0 < 2 ^ (53 - d)) by (apply Z.pow_pos_nonneg; lia).
      assert (E1 : 2 ^ 52 = 2 ^ (d - 1) * 2 ^ (53 - d)).
      { rewrite <- potencia_suma by lia. f_equal. lia. }
      assert (E2 : 2 ^ 53 = 2 ^ d * 2 ^ (53 - d)).
      { rewrite <- potencia_suma by lia. f_equal. lia. }
      rewrite E1, E2. nia. }
    rewrite binary_round_aux_exacto by (assumption || lia).
    exists (Pos.iter xO p q), (53 - d).
    split; [do 2 f_equal; lia |]. split; [lia |]. split; assumption.
Qed.

Lemma new_location_ubicado (nb q r N : Z) :
  0 <= r < nb -> N = q * nb + r -> ubicado q (new_location nb r) N nb.
Proof.
  intros Hr ->. unfold new_location.
  destruct (Z.even nb) eqn:Ev.
  - unfold new_location_even. destruct (Z.eqb_spec r 0) as [-> | Hr0]; cbn [ubicado].
    + lia.
    + split; [lia |]. destruct (Z.compare_spec (2 * r) nb);
        rewrite compare_casos; lia.
  - unfold new_location_odd. destruct (Z.eqb_spec r 0) as [-> | Hr0]; cbn [ubicado].
    + lia.
    + split; [lia |].
      assert (Ho : Z.odd nb = true) by (now rewrite <- Z.negb_even, Ev).
      apply Z.odd_spec in Ho as [j Hj].
      destruct (Z.compare_spec (2 * r + 1) nb); rewrite compare_casos; lia.
Qed.

Lemma SFdiv_core_binary_normal (mx my : positive) (ex ey : Z) :
  2 ^ 52 <= Zpos mx < 2 ^ 53 -> 2 ^ 52 <= Zpos my < 2 ^ 53 ->
  -1021 <= ex - ey ->
  SFdiv_core_binary 53 1024 (Zpos mx) ex (Zpos my) ey
  = (Zpos mx * 2 ^ 53 / Zpos my, ex - ey - 53,
     new_location (Zpos my) (Zpos mx * 2 ^ 53 mod Zpos my)).
Proof.
  intros Hx Hy He. unfold SFdiv_core_binary.
  rewrite (Zdigits2_unico (Zpos mx) 53), (Zdigits2_unico (Zpos my) 53)
    by (change (53 - 1) with 52; lia).
  rewrite fexp_normal by lia.
  replace (Z.min (53 + ex - (53 + ey) - 53) (ex - ey)) with (ex - ey - 53) by lia.
  replace (ex - ey - (ex - ey - 53)) with 53 by lia.
  rewrite Z.shiftl_mul_pow2 by lia.
  unfold Z.div, Z.modulo.
  destruct (Z.div_eucl (Zpos mx * 2 ^ 53) (Zpos my)) as [q r]. reflexivity.
Qed.

(** The quotient of two normal numbers, away from the ends of the
    exponent range: a normal number within half a unit of its last place
    of the exact quotient. *)
Lemma dividir_cerca (mx my : positive) (ex ey : Z) :
  2 ^ 52 <= Zpos mx < 2 ^ 53 -> 2 ^ 52 <= Zpos my < 2 ^ 53 ->
  -1021 <= ex - ey <= 1020 ->
  exists (m : positive) (t : Z),
    dividir (S754_finite false mx ex) (S754_finite false my ey)
    = S754_finite false m (ex - ey - 53 + t) /\
    2 ^ 52 <= Zpos m < 2 ^ 53 /\ 0 <= t <= 2 /\
    2 * Z.abs (Zpos m * 2 ^ t * Zpos my - Zpos mx * 2 ^ 53) <= 2 ^ t * Zpos my.
Proof.
  intros Hx Hy He. unfold dividir, SFdiv, prec, emax.
  rewrite (SFdiv_core_binary_normal mx my ex ey Hx Hy) by lia.
  set (N := Zpos mx * 2 ^ 53). set (D := Zpos my).
  assert (HD : 0 < D) by (unfold D; lia).
  pose proof (Z.div_mod N D ltac:(lia)) as Hdm.
  pose proof (Z.mod_pos_bound N D HD) as Hmod.
  set (q := N / D) in *. set (r := N mod D) in *.
  assert (Hu : ubicado q (new_location D r) N D).
  { apply new_location_ubicado; lia. }
  assert (Hq : 2 ^ 52 <= q < 2 ^ 54).
  { assert (2 ^ 52 * 2 ^ 53 <= N < 2 ^ 53 * 2 ^ 53) by (unfold N; lia).
    change (2 ^ 54) with (2 * 2 ^ 53). nia. }
  cbn [xorb].
  destruct (Z_lt_le_dec q (2 ^ 53)) as [Hlt | Hge].
  - destruct (binary_round_aux_cerca false q (ex - ey - 53) _ N D 53 HD Hu)
      as (m & e & Hr & Hm & Ht & Hc);
      [change (53 - 1) with 52; lia | lia | lia | lia |].
    exists m, (e - (ex - ey - 53)).
    replace (ex - ey - 53 + (e - (ex - ey - 53))) with e by lia.
    split; [exact Hr |]. split; [exact Hm |]. split; [lia | exact Hc].
  - destruct (binary_round_aux_cerca false q (ex - ey - 53) _ N D 54 HD Hu)
      as (m & e & Hr & Hm & Ht & Hc);
      [change (54 - 1) with 53; lia | lia | lia | lia |].
    exists m, (e - (ex - ey - 53)).
    replace (ex - ey - 53 + (e - (ex - ey - 53))) with e by lia.
    split; [exact Hr |]. split; [exact Hm |]. split; [lia | exact Hc].
Qed.

Lemma deEntero_cien : deEntero 100 = S754_finite false (Z.to_pos (100 * 2 ^ 46)) (-46).
Proof. vm_compute. reflexivity. Qed.

Lemma abs_escala (a c b : Z) :
  0 < c -> 2 * Z.abs (a * c) <= b * c -> 2 * Z.abs a <= b.
Proof. intros Hc H. rewrite Z.abs_mul, (Z.abs_eq c) in H by lia. nia. Qed.

(** A normal number times one hundred: a normal number within half a
    unit of its last place of the exact product. *)
Lemma multiplicar_cien (m1 : positive) (e1 : Z) :
  2 ^ 52 <= Zpos m1 < 2 ^ 53 -> -1080 <= e1 <= 860 ->
  exists (m2 : positive) (s : Z),
    multiplicar (S754_finite false m1 e1) (deEntero 100)
    = S754_finite false m2 (e1 + s) /\
    2 ^ 52 <= Zpos m2 < 2 ^ 53 /\ 6 <= s <= 8 /\
    2 * Z.abs (Zpos m2 * 2 ^ s - 100 * Zpos m1) <= 2 ^ s.
Proof.
  intros Hm He. rewrite deEntero_cien. unfold multiplicar, SFmul, prec, emax.
  cbn [xorb]. rewrite Pos2Z.inj_mul.
  change (Zpos (Z.to_pos (100 * 2 ^ 46))) with (100 * 2 ^ 46).
  set (P := Zpos m1 * (100 * 2 ^ 46)).
  assert (HP : 2 ^ 104 <= P < 2 ^ 106).
  { unfold P. change (2 ^ 104) with (2 ^ 52 * (64 * 2 ^ 46)).
    change (2 ^ 106) with (2 ^ 53 * (128 * 2 ^ 46)). lia. }
  assert (Hu : ubicado P loc_Exact P 1) by (cbn [ubicado]; lia).
  assert (Hfin : forall k : Z, 105 <= k <= 106 -> 2 ^ (k - 1) <= P < 2 ^ k ->
            exists (m2 : positive) (s : Z),
              binary_round_aux 53 1024 false P (e1 + -46) loc_Exact
              = S754_finite false m2 (e1 + s) /\
              2 ^ 52 <= Zpos m2 < 2 ^ 53 /\ 6 <= s <= 8 /\
              2 * Z.abs (Zpos m2 * 2 ^ s - 100 * Zpos m1) <= 2 ^ s).
  { intros k Hk HPk.
    destruct (binary_round_aux_cerca false P (e1 + -46) loc_Exact P 1 k
                ltac:(lia) Hu HPk ltac:(lia) ltac:(lia) ltac:(lia))
      as (m & e & Hr & Hmr & Ht & Hc).
    exists m, (e - e1). replace (e1 + (e - e1)) with e by lia.
    split; [exact Hr |]. split; [exact Hmr |]. split; [lia |].
    replace (e - (e1 + -46)) with (e - e1 + 46) in Hc by lia.
    rewrite potencia_suma, !Z.mul_1_r in Hc by lia.
    apply (abs_escala _ (2 ^ 46)); [lia |].
    replace ((Zpos m * 2 ^ (e - e1) - 100 * Zpos m1) * 2 ^ 46)
      with (Zpos m * (2 ^ (e - e1) * 2 ^ 46) - P) by (unfold P; ring).
    exact Hc. }
  destruct (Z_lt_le_dec P (2 ^ 105)) as [Hlt | Hge].
  - apply (Hfin 105); [lia |]. change (105 - 1) with 104. lia.
  - apply (Hfin 106); [lia |]. change (106 - 1) with 105. lia.
Qed.

(** The three roundings together.  With [a], [b] and [c] the errors of
    the quotient, of the product and of the last rounding, each at most
    half a unit, the hundredths [n] are within half a unit of
    [10000 * h / d], up to a term that is too small to count. *)
Lemma errores_sumados (h d m1 m2 n U T S : Z) :
  0 < d < 2 ^ 32 -> 2 ^ 51 <= U -> U = T * S -> 0 < S <= 256 -> 0 < T ->
  2 * Z.abs (m1 * d - h * U) <= d ->
  2 * Z.abs (m2 * S - 100 * m1) <= S ->
  n * (2 * T) <= 200 * m2 + T < (n + 1) * (2 * T) ->
  2 * Z.abs (n * d - 10000 * h) <= d.
Proof.
  intros Hd HU HUT HS HT Ha Hb Hc.
  set (a := m1 * d - h * U) in *. set (b := m2 * S - 100 * m1) in *.
  set (c := 2 * n * T - 200 * m2).
  assert (Hc' : Z.abs c <= T) by (unfold c; lia).
  set (K := n * d - 10000 * h).
  assert (E : 2 * K * U = c * (d * S) + 200 * d * b + 20000 * a).
  { unfold K, c, b, a. rewrite HUT. ring. }
  assert (H1 : Z.abs (c * (d * S)) <= U * d).
  { rewrite Z.abs_mul, (Z.abs_eq (d * S)) by nia. rewrite HUT. nia. }
  assert (H2 : 2 * Z.abs (200 * d * b) <= 200 * d * 256).
  { rewrite Z.abs_mul, (Z.abs_eq (200 * d)) by lia. nia. }
  assert (H3 : Z.abs (20000 * a) <= 10000 * d).
  { rewrite Z.abs_mul. change (Z.abs 20000) with 20000. lia. }
  assert (H4 : Z.abs (2 * K * U) < (d + 1) * U).
  { rewrite E. change (2 ^ 51) with 2251799813685248 in HU.
    change (2 ^ 32) with 4294967296 in Hd. lia. }
  rewrite Z.abs_mul, (Z.abs_eq U) in H4 by lia.
  assert (Z.abs (2 * K) < d + 1) by nia.
  rewrite Z.abs_mul in H. change (Z.abs 2) with 2 in H. lia.
Qed.

(** [hosts / disponibles * 100] for a requirement of at least one host
    that fits: a normal number whose hundredths, rounded, are within half
    a unit of [10000 * hosts / disponibles]. *)
Lemma cociente_por_cien (h d : Z) :
  1 <= h <= d -> d < 2 ^ 32 ->
  exists (m2 : positive) (E2 : Z),
    multiplicar (dividir (deEntero h) (deEntero d)) (deEntero 100)
    = S754_finite false m2 (- E2) /\
    0 < E2 /\ 2 ^ 52 <= Zpos m2 < 2 ^ 53 /\
    2 * Z.abs ((200 * Zpos m2 + 2 ^ E2) / (2 * 2 ^ E2) * d - 10000 * h) <= d.
Proof.
  intros Hh Hd.
  assert (H53 : 2 ^ 32 < 2 ^ 53) by reflexivity.
  destruct (deEntero_normal h ltac:(lia)) as (mh & ka & -> & Hka & Emh & Hmh).
  destruct (deEntero_normal d ltac:(lia)) as (md & kb & -> & Hkb & Emd & Hmd).
  assert (Hab : kb <= ka).
  { destruct (Z_le_gt_dec kb ka) as [|Hgt]; [assumption | exfalso].
    assert (E : 2 ^ kb = 2 ^ ka * 2 ^ (kb - ka)).
    { rewrite <- potencia_suma by lia. f_equal. lia. }
    assert (2 ^ 1 <= 2 ^ (kb - ka)) by (apply Z.pow_le_mono_r; lia).
    assert (0 < 2 ^ ka) by (apply Z.pow_pos_nonneg; lia).
    change (2 ^ 1) with 2 in *. nia. }
  destruct (dividir_cerca mh md (- ka) (- kb) Hmh Hmd ltac:(lia))
    as (m1 & t & -> & Hm1 & Ht & Hc1).
  set (E1 := ka - kb + 53 - t).
  replace (- ka - - kb - 53 + t) with (- E1) by (unfold E1; lia).
  assert (HE1 : 51 <= E1 <= 105) by (unfold E1; lia).
  destruct (multiplicar_cien m1 (- E1) Hm1 ltac:(lia))
    as (m2 & s & -> & Hm2 & Hs & Hc2).
  exists m2, (E1 - s). replace (- E1 + s) with (- (E1 - s)) by lia.
  split; [reflexivity |]. split; [lia |]. split; [exact Hm2 |].
  assert (HT : 0 < 2 ^ (E1 - s)) by (apply Z.pow_pos_nonneg; lia).
  assert (HS : 0 < 2 ^ s <= 256).
  { split; [apply Z.pow_pos_nonneg; lia |].
    change 256 with (2 ^ 8). apply Z.pow_le_mono_r; lia. }
  apply (errores_sumados h d (Zpos m1) (Zpos m2) _ (2 ^ E1) (2 ^ (E1 - s)) (2 ^ s)).
  - lia.
  - apply Z.pow_le_mono_r; lia.
  - rewrite <- potencia_suma by lia. f_equal. lia.
  - exact HS.
  - exact HT.
  - apply (abs_escala _ (2 ^ (t + kb))); [apply Z.pow_pos_nonneg; lia |].
    replace ((Zpos m1 * d - h * 2 ^ E1) * 2 ^ (t + kb))
      with (Zpos m1 * 2 ^ t * Zpos md - Zpos mh * 2 ^ 53).
    + replace (d * 2 ^ (t + kb)) with (2 ^ t * Zpos md); [exact Hc1 |].
      rewrite Emd, potencia_suma by lia. ring.
    + rewrite Emd, Emh.
      replace (h * 2 ^ ka * 2 ^ 53) with (h * 2 ^ (ka + 53)) by (rewrite potencia_suma by lia; ring).
      replace (ka + 53) with (E1 + (t + kb)) by (unfold E1; lia).
      rewrite !potencia_suma by lia. ring.
  - exact Hc2.
  - set (T := 2 ^ (E1 - s)) in *.
    pose proof (Z.div_mod (200 * Zpos m2 + T) (2 * T) ltac:(lia)) as Hdm.
    pose proof (Z.mod_pos_bound (200 * Zpos m2 + T) (2 * T) ltac:(lia)) as Hmod.
    nia.
Qed.


(** The digits that [toFixed] prints are those of the hundredths. *)
Lemma conDosDecimales_dosDecimales (n : Z) :
  0 <= n <= 10000 -> conDosDecimales n = Spec.dosDecimales n.
Proof.
  intros Hn.
  assert (Htodos : forallb (fun i => String.eqb (conDosDecimales (Z.of_nat i))
                                       (Spec.dosDecimales (Z.of_nat i)))
                     (seq 0 (Z.to_nat 10001)) = true) by (vm_compute; reflexivity).
  rewrite forallb_forall in Htodos.
  specialize (Htodos (Z.to_nat n) ltac:(apply in_seq; lia)).
  rewrite Z2Nat.id in Htodos by lia. now apply String.eqb_eq.
Qed.

(** Between two multiples of a number that is twice an odd number, the
    rounding of [10000 * h / d] meets no tie. *)
Lemma centesimas_unicas (h d n : Z) :
  0 < d -> d mod 4 = 2 ->
  2 * Z.abs (n * d - 10000 * h) <= d -> n = Spec.centesimasDe h d.
Proof.
  intros Hd H4 Hn. unfold Spec.centesimasDe.
  pose proof (Z.div_mod d 4 ltac:(lia)) as Hj. rewrite H4 in Hj.
  set (j := d / 4) in *.
  assert (Hne : 2 * (10000 * h - n * d) <> d).
  { intros Hc. rewrite Hj in Hc.
    replace (n * (4 * j + 2)) with (4 * (n * j) + 2 * n) in Hc by ring. lia. }
  apply Z.div_unique with (r := 20000 * h + d - 2 * d * n); lia.
Qed.

(** [(hosts / disponibles * 100).toFixed(2) + '%'], computed in binary64
    with its three roundings, is the percentage rounded once, to the
    nearest hundredth, whenever the requirement is at least one host and
    fits in the available hosts, which are twice an odd number. *)
Theorem porcentaje_exacto (h d : Z) :
  1 <= h <= d -> d < 2 ^ 32 -> d mod 4 = 2 ->
  porcentaje h d = Val (Spec.eficienciaDe h d).
Proof.
  intros Hh Hd H4.
  destruct (cociente_por_cien h d Hh Hd) as (m2 & E2 & Hx & HE & Hm & Hn).
  unfold porcentaje. cbv zeta. rewrite Hx. unfold toFixed2, enorme, centesimas.
  destruct (Z.leb_spec 0 (- E2)) as [Hc|_]; [lia |].
  rewrite Z.opp_involutive.
  assert (H2E : 0 < 2 ^ E2) by (apply Z.pow_pos_nonneg; lia).
  destruct (Z.leb_spec (10 ^ 21 * 2 ^ E2) (Zpos m2)) as [Hc|_].
  { assert (2 ^ 53 < 10 ^ 21) by reflexivity. nia. }
  cbn [JS.bind]. unfold Spec.eficienciaDe.
  set (n := (200 * Zpos m2 + 2 ^ E2) / (2 * 2 ^ E2)) in *.
  assert (Hn0 : 0 <= n) by (apply Z.div_pos; lia).
  assert (Hn1 : n <= 10000) by nia.
  rewrite (conDosDecimales_dosDecimales n) by lia.
  now rewrite (centesimas_unicas h d n) by (lia || assumption).
Qed.

End Redondeo.

(* ================================================================== *)
(** * The batch of requirements *)

Module Optimizar.

Import Spec.
Import Direccion Mascara Completa Construida Arreglos.
Import Validador CalculadoraSubredes.

(** The entry reported for [hosts] at position [index]. *)
Definition entradaDe (hosts index : Z) : subredOptimizada :=
  let k := Z.log2_up (hosts + 2) in
  {| indice := index;
     hostsRequeridos := hosts;
     hostsDisponibles := 2 ^ k - 2;
     mascara := Spec.integerToAddress (Spec.maskFromPrefix (32 - k));
     notacionCIDR_ := 32 - k;
     eficiencia := porcentaje hosts (2 ^ k - 2) |}.

Fixpoint entradas (index : Z) (l : list Z) : list subredOptimizada :=
  match l with
  | [] => []
  | x :: l' => entradaDe x index :: entradas (index + 1) l'
  end.

(** The requirements on which a mask can be built: [hosts + 2] between 1
    and 2^32. *)
Definition admisible (hosts : Z) : Prop := -1 <= hosts <= 2 ^ 32 - 2.

Lemma log2_up_admisible (hosts : Z) :
  admisible hosts ->
  let k := Z.log2_up (hosts + 2) in 0 <= k <= 32 /\ hosts + 2 <= 2 ^ k.
Proof.
  intros Hh k. unfold admisible in Hh.
  destruct (Dividir.log2_up_techo (hosts + 2) ltac:(lia)) as [H0 H1].
  assert (k <= 32) by (apply Z.log2_up_le_pow2; lia). fold k in H0, H1. lia.
Qed.

Lemma optimizarUna_valida (hosts index : Z) :
  admisible hosts -> optimizarUna hosts index = Val (entradaDe hosts index).
Proof.
  intros Hh. destruct (log2_up_admisible hosts Hh) as [Hk _].
  unfold admisible in Hh.
  set (k := Z.log2_up (hosts + 2)) in *.
  pose proof (direccion_mascara (32 - k) ltac:(lia)) as Hd.
  unfold optimizarUna. rewrite calcularMascaraDesdeHosts_spec by lia. fold k.
  cbn [JS.bind].
  destruct (obtenerInfoAdicional_prefijo _ (32 - k) ltac:(lia) Hd) as (info & Hi & Hb).
  rewrite Hi. cbn [JS.bind].
  rewrite (calcularHostsDesdeMascara_prefijo _ (32 - k)) by (lia || assumption).
  cbn [JS.bind]. unfold entradaDe. fold k.
  replace (32 - (32 - k)) with k by lia.
  assert (Hc : notacionCIDR info = 32 - k).
  { unfold obtenerInfoAdicional in Hi.
    destruct (octetosDe _) as [o| |]; cbn [JS.bind] in Hi; try discriminate Hi.
    injection Hi as <-. exact Hb. }
  now rewrite Hc.
Qed.

Lemma forEach_valido (l : list Z) : forall index : Z,
  Forall admisible l ->
  forEach optimizarUna index l = Val (entradas index l).
Proof.
  induction l as [|x l IH]; intros index Hl; simpl; [reflexivity |].
  apply Forall_cons_iff in Hl as [Hx Hl].
  rewrite (optimizarUna_valida _ _ Hx). cbn [JS.bind].
  rewrite (IH _ Hl). reflexivity.
Qed.

Lemma entradas_length (index : Z) (l : list Z) :
  List.length (entradas index l) = List.length l.
Proof. revert index. induction l as [|x l IH]; intros index; simpl; [reflexivity | now rewrite IH]. Qed.

Lemma entradas_hosts (index : Z) (l : list Z) :
  map hostsRequeridos (entradas index l) = l.
Proof. revert index. induction l as [|x l IH]; intros index; simpl; [reflexivity | now rewrite IH]. Qed.

Lemma entradas_indice (index : Z) (l : list Z) :
  map indice (entradas index l)
  = map (fun i => index + Z.of_nat i) (seq 0 (List.length l)).
Proof.
  revert index. induction l as [|x l IH]; intros index; [reflexivity |].
  cbn [entradas map List.length seq]. rewrite IH, <- seq_shift, map_map.
  f_equal; [unfold entradaDe; simpl; lia |]. apply map_ext. intros i. lia.
Qed.

Lemma entradaDe_correcta (hosts index : Z) :
  admisible hosts -> entradaCorrecta (entradaDe hosts index).
Proof.
  intros Hh. destruct (log2_up_admisible hosts Hh) as [Hk Hs].
  unfold admisible in Hh.
  unfold entradaCorrecta, entradaDe.
  cbn [hostsRequeridos mascara hostsDisponibles notacionCIDR_ eficiencia].
  set (k := Z.log2_up (hosts + 2)) in *.
  pose proof (direccion_mascara (32 - k) ltac:(lia)) as Hd.
  split; [apply calcularMascaraDesdeHosts_spec; lia |].
  split.
  { rewrite (calcularHostsDesdeMascara_prefijo _ (32 - k)) by (lia || assumption).
    do 3 f_equal. lia. }
  split; [lia |]. split.
  { destruct Hd as [_ ->]. symmetry. apply prefixLength_maskFromPrefix. lia. }
  split; [| split].
  - intros H1. assert (Hk2 : 2 <= k).
    { destruct (Z_le_gt_dec 2 k) as [|Hgt]; [assumption | exfalso].
      assert (2 ^ k <= 2 ^ 1) by (apply Z.pow_le_mono_r; lia).
      change (2 ^ 1) with 2 in *. lia. }
    assert (H32 : 2 ^ k <= 2 ^ 32) by (apply Z.pow_le_mono_r; lia).
    apply Redondeo.porcentaje_exacto; [lia | lia |].
    replace k with (2 + (k - 2)) by lia. rewrite Z.pow_add_r by lia.
    change (2 ^ 2) with 4.
    assert (0 < 2 ^ (k - 2)) by (apply Z.pow_pos_nonneg; lia).
    replace (4 * 2 ^ (k - 2) - 2) with (2 + (2 ^ (k - 2) - 1) * 4) by ring.
    now rewrite Z.mod_add by lia.
  - intros H0. unfold k. rewrite H0. reflexivity.
  - intros H0. unfold k. rewrite H0. reflexivity.
Qed.

Lemma entradas_correctas (index : Z) (l : list Z) :
  Forall admisible l ->
  Forall entradaCorrecta (entradas index l).
Proof.
  revert index. induction l as [|x l IH]; intros index Hl; simpl; constructor.
  - apply entradaDe_correcta. now apply Forall_inv in Hl.
  - apply IH. now apply Forall_inv_tail in Hl.
Qed.

End Optimizar.

(* ================================================================== *)
(** * Address ranges of a subnet *)

Module Rango.

Import Int32 Int32Facts Regex RegexFacts Exhaustivo Forma Direccion ValidadorFacts.
Import Binario Mascara Completa Construida Dividir.
Import Validador CalculadoraSubredes.

Lemma ToInt32_iny (x y : Z) :
  0 <= x < 2 ^ 32 -> 0 <= y < 2 ^ 32 -> ToInt32 x = ToInt32 y -> x = y.
Proof. intros Hx Hy H. mod32. Qed.

Lemma potencia_pos (j : Z) : 0 <= j -> 0 < 2 ^ j.
Proof. intros Hj. apply Z.pow_pos_nonneg; lia. Qed.

(** Setting the low [j] bits of a multiple of [2^j] adds [2^j - 1]. *)
Lemma lor_ones (x j : Z) :
  0 <= j -> x mod 2 ^ j = 0 -> Z.lor x (Z.ones j) = x + 2 ^ j - 1.
Proof.
  intros Hj Hx.
  assert (Hl : Z.land x (Z.ones j) = 0) by (now rewrite Z.land_ones).
  rewrite <- (Z.lxor_lor _ _ Hl), <- (Z.add_nocarry_lxor _ _ Hl), Z.ones_equiv. lia.
Qed.

(** The broadcast integer is the last of the block of the network
    integer. *)
Lemma difusion_suma (a p : Z) :
  0 <= p <= 32 ->
  difusion a (Spec.maskFromPrefix p)
  = red a (Spec.maskFromPrefix p) + 2 ^ (32 - p) - 1.
Proof.
  intros Hp. unfold difusion, red, Spec.maskFromPrefix.
  replace (2 ^ 32 - 1 - (2 ^ 32 - 2 ^ (32 - p))) with (Z.ones (32 - p))
    by (rewrite Z.ones_equiv; lia).
  apply lor_ones; [lia |]. apply red_multiplo. lia.
Qed.

(** The mask that clears the low [j] bits rounds down to a multiple of
    [2^j]. *)
Lemma land_mascara (x j : Z) :
  0 <= x < 2 ^ 32 -> 0 <= j <= 32 -> Z.land x (2 ^ 32 - 2 ^ j) = x - x mod 2 ^ j.
Proof.
  intros Hx Hj. pose proof (potencia_pos j ltac:(lia)) as Hpos.
  replace (x - x mod 2 ^ j) with (Z.shiftl (Z.shiftr x j) j).
  2:{ rewrite Z.shiftl_mul_pow2, Z.shiftr_div_pow2 by lia.
      pose proof (Z.div_mod x (2 ^ j) ltac:(lia)). lia. }
  apply Z.bits_inj'. intros n Hn. rewrite Z.land_spec.
  destruct (Z_lt_le_dec n j) as [H1|H1].
  - rewrite Z.shiftl_spec_low by lia.
    rewrite (testbit_multiplo (2 ^ 32 - 2 ^ j) j n); [apply andb_false_r | lia |].
    rewrite mascara_producto, Z.shiftl_mul_pow2 by lia. apply Z.mod_mul. lia.
  - rewrite Z.shiftl_spec, Z.shiftr_spec by lia.
    replace (n - j + j) with n by lia.
    destruct (Z_lt_le_dec n 32) as [H2|H2].
    + rewrite testbit_mascara by lia. apply andb_true_r.
    + rewrite (testbit_u32_alto x n) by (assumption || lia). reflexivity.
Qed.

(** Masking gives the block start exactly on the addresses of the
    block. *)
Lemma pertenece_rango (x base j : Z) :
  0 <= x < 2 ^ 32 -> 0 <= j <= 32 -> base mod 2 ^ j = 0 ->
  (Z.land x (2 ^ 32 - 2 ^ j) = base <-> base <= x < base + 2 ^ j).
Proof.
  intros Hx Hj Hb. rewrite land_mascara by assumption.
  pose proof (potencia_pos j ltac:(lia)) as Hpos.
  pose proof (Z.mod_pos_bound x (2 ^ j) Hpos) as Hm.
  split.
  - intros <-. lia.
  - intros Hr. apply Z.mod_divide in Hb; [| lia]. destruct Hb as [t ->].
    rewrite <- (Z.mod_unique_pos x (2 ^ j) t (x - t * 2 ^ j)); lia.
Qed.

Lemma and_ToInt32 (x m : Z) : and (ToInt32 x) (ToInt32 m) = ToInt32 (Z.land x m).
Proof. unfold and. rewrite !ToInt32_ToInt32. apply and_signed. Qed.

(** Membership, in unsigned integers. *)
Lemma ipEstaEnSubred_spec (ip ipRed mascara : string) (x r m : Z) :
  direccion ip x -> direccion ipRed r -> direccion mascara m ->
  ipEstaEnSubred ip ipRed mascara = Val (Z.land x m =? r).
Proof.
  intros Hx Hr Hm. unfold ipEstaEnSubred.
  rewrite (direccion_ipANumero _ _ Hx), (direccion_ipANumero _ _ Hr),
    (direccion_ipANumero _ _ Hm).
  cbn [JS.bind]. f_equal. rewrite and_ToInt32.
  apply direccion_rango in Hx, Hr, Hm.
  pose proof (land_u32 x m Hx Hm) as Hl.
  destruct (Z.eqb_spec (Z.land x m) r) as [->|Hne].
  - apply Z.eqb_refl.
  - apply Z.eqb_neq. intros Hc. apply Hne. now apply ToInt32_iny.
Qed.

(** The next network address, in unsigned integers. *)
Lemma calcularSiguienteSubred_spec (ipRed mascara : string) (r m : Z) :
  direccion ipRed r -> direccion mascara m ->
  calcularSiguienteSubred ipRed mascara
  = Val (Spec.integerToAddress ((r + (2 ^ 32 - m)) mod 2 ^ 32)).
Proof.
  intros Hr Hm. unfold calcularSiguienteSubred.
  rewrite (direccion_ipANumero _ _ Hr), (direccion_ipANumero _ _ Hm).
  cbn [JS.bind]. rewrite numeroAIp_spec. do 2 f_equal.
  apply direccion_rango in Hr, Hm.
  rewrite shru_0, not_mod, ToInt32_mod, (Z.mod_small m) by lia.
  replace (2 ^ 32 - m) with (2 ^ 32 - 1 - m + 1) by lia.
  generalize (2 ^ 32 - 1 - m). intros y. mod32.
Qed.

(** First and last host without a range condition: the sum wraps. *)
Lemma calcularPrimerHost_mod (ipRed : string) (r : Z) :
  direccion ipRed r ->
  calcularPrimerHost ipRed = Val (Spec.integerToAddress ((r + 1) mod 2 ^ 32)).
Proof.
  intros Hr. unfold calcularPrimerHost.
  rewrite (direccion_ipANumero _ _ Hr). cbn [JS.bind]. rewrite numeroAIp_spec.
  do 2 f_equal. mod32.
Qed.

Lemma calcularUltimoHost_mod (ipBroadcast : string) (b : Z) :
  direccion ipBroadcast b ->
  calcularUltimoHost ipBroadcast = Val (Spec.integerToAddress ((b - 1) mod 2 ^ 32)).
Proof.
  intros Hb. unfold calcularUltimoHost.
  rewrite (direccion_ipANumero _ _ Hb). cbn [JS.bind]. rewrite numeroAIp_spec.
  do 2 f_equal. mod32.
Qed.

Lemma enteroDe_impresa (u : Z) :
  0 <= u < 2 ^ 32 -> Spec.addressToInteger (Spec.integerToAddress u) = u.
Proof. intros Hu. apply (integerToAddress_direccion u Hu). Qed.

(** Network and broadcast integers of the address [a] under the mask of
    prefix length [p]: the block of size [2^(32 - p)] around [a]. *)
Lemma subred_enteros (a p : Z) :
  0 <= a < 2 ^ 32 -> 1 <= p <= 31 ->
  let m := Spec.maskFromPrefix p in
  0 <= red a m /\ red a m mod 2 ^ (32 - p) = 0 /\
  difusion a m = red a m + 2 ^ (32 - p) - 1 /\
  difusion a m < 2 ^ 32 /\ red a m <= a <= difusion a m /\ 2 <= 2 ^ (32 - p).
Proof.
  intros Ha Hp m.
  destruct (base_rango a p Ha Hp) as (H0 & H1 & Hm). fold m in H0, H1, Hm.
  assert (Hd : difusion a m = red a m + 2 ^ (32 - p) - 1)
    by (apply difusion_suma; lia).
  assert (H2 : 2 ^ 1 <= 2 ^ (32 - p)) by (apply Z.pow_le_mono_r; lia).
  assert (Hr : red a m <= a < red a m + 2 ^ (32 - p)).
  { apply (pertenece_rango a (red a m) (32 - p)); try assumption; [lia |].
    reflexivity. }
  change (2 ^ 1) with 2 in H2. repeat split; try assumption; lia.
Qed.

(** Membership in the subnet of [a] under the mask of prefix length [p],
    as a comparison with its two ends. *)
Lemma ipEstaEnSubred_rango (x mascara : string) (xu a p : Z) :
  direccion x xu -> direccion mascara (Spec.maskFromPrefix p) ->
  0 <= a < 2 ^ 32 -> 1 <= p <= 31 ->
  let m := Spec.maskFromPrefix p in
  ipEstaEnSubred x (Spec.integerToAddress (red a m)) mascara
  = Val ((red a m <=? xu) && (xu <=? difusion a m)).
Proof.
  intros Hx Hm Ha Hp m.
  destruct (subred_enteros a p Ha Hp) as (H0 & Hmod & Hd & Hlt & Hin & H2).
  fold m in H0, Hmod, Hd, Hlt, Hin.
  assert (Hr : direccion (Spec.integerToAddress (red a m)) (red a m))
    by (apply integerToAddress_direccion; lia).
  rewrite (ipEstaEnSubred_spec _ _ _ _ _ _ Hx Hr Hm). f_equal.
  pose proof (direccion_rango _ _ Hx) as Rx.
  pose proof (pertenece_rango xu (red a m) (32 - p) Rx ltac:(lia) Hmod) as Hiff.
  fold (Spec.maskFromPrefix p) in Hiff. fold m in Hiff. fold m.
  destruct (Z.eqb_spec (Z.land xu m) (red a m)) as [He|Hne].
  - apply Hiff in He. symmetry. apply andb_true_iff. split; apply Z.leb_le; lia.
  - symmetry. apply andb_false_iff.
    destruct (Z.leb_spec (red a m) xu) as [H1|H1]; [| now left].
    destruct (Z.leb_spec xu (difusion a m)) as [H3|H3]; [| now right].
    exfalso. apply Hne, Hiff. lia.
Qed.

End Rango.

(* ================================================================== *)
(** * The blocks of a split network *)

Module Mosaico.

Import Int32 Int32Facts Regex RegexFacts Exhaustivo Forma Direccion ValidadorFacts.
Import Binario Mascara Completa Construida Dividir Rango.
Import Validador CalculadoraSubredes.

Lemma indices_nth_nat (n : Z) (i : nat) (k : Z) :
  nth_error (indices n) i = Some k -> k = Z.of_nat i /\ 0 <= k < n.
Proof.
  unfold indices. rewrite nth_error_map, nth_error_seq.
  destruct (Nat.ltb_spec i (Z.to_nat n)) as [Hlt|Hge]; simpl; [| discriminate].
  intros H. injection H as <-. lia.
Qed.

(** The [i]-th block of a network cut into [n]: where it starts and ends
    inside the network. *)
Lemma bloque_enteros (a p n i : Z) :
  0 <= a < 2 ^ 32 -> 1 <= p <= 31 -> 1 <= n -> p + Z.log2_up n <= 30 ->
  0 <= i < n ->
  let q := p + Z.log2_up n in
  let base := red a (Spec.maskFromPrefix p) in
  let size := 2 ^ (32 - q) in
  let x := base + i * size in
  0 <= base /\ base <= x /\ x + size <= base + 2 ^ (32 - p) /\
  base + 2 ^ (32 - p) <= 2 ^ 32 /\
  red x (Spec.maskFromPrefix q) = x /\
  difusion x (Spec.maskFromPrefix q) = x + size - 1 /\
  4 <= size /\
  (n = 2 ^ Z.log2_up n -> i = n - 1 -> x + size = base + 2 ^ (32 - p)).
Proof.
  intros Ha Hp Hn Hq Hi q base size x.
  pose proof (log2_up_techo n Hn) as [Hb Hnb].
  destruct (base_rango a p Ha Hp) as (Hb0 & Hb1 & _). fold base in Hb0, Hb1.
  pose proof (bloque_red a p n Ha Hp Hn Hq i Hi) as Hr.
  fold q in Hr. fold base in Hr. fold size in Hr. fold x in Hr.
  pose proof (difusion_suma x q ltac:(lia)) as Hd. rewrite Hr in Hd. fold size in Hd.
  pose proof (bloque_entero p n Hn Hq) as He. fold q in He. fold size in He.
  assert (Hs : 2 ^ 2 <= size) by (apply Z.pow_le_mono_r; lia).
  change (2 ^ 2) with 4 in Hs.
  split; [lia |]. split; [unfold x; nia |]. split; [unfold x; nia |].
  split; [lia |]. split; [exact Hr |]. split; [exact Hd |]. split; [lia |].
  intros Hpot ->. rewrite He, <- Hpot. unfold x. lia.
Qed.

End Mosaico.

(* ================================================================== *)
(** * Masks and their prefix lengths *)

Module Prefijos.

Import Int32 Int32Facts Regex RegexFacts Exhaustivo Forma Direccion ValidadorFacts.
Import Binario Mascara Completa Construida Dividir Rango.
Import Validador CalculadoraSubredes.

Lemma maskFromPrefix_propia (p : Z) :
  1 <= p <= 31 ->
  Spec.maskFromPrefix p <> 0 /\ Spec.maskFromPrefix p <> 2 ^ 32 - 1.
Proof.
  intros Hp. unfold Spec.maskFromPrefix.
  assert (2 ^ 1 <= 2 ^ (32 - p)) by (apply Z.pow_le_mono_r; lia).
  assert (2 ^ (32 - p) <= 2 ^ 31) by (apply Z.pow_le_mono_r; lia).
  lia.
Qed.

(** The mask check accepts every well-formed string that denotes the
    mask of a prefix length between 1 and 31. *)
Lemma prefijo_mascara_valida (s : string) (p : Z) :
  1 <= p <= 31 -> direccion s (Spec.maskFromPrefix p) ->
  esMascaraSubredValida s = Val true.
Proof.
  intros Hp Hd. destruct (maskFromPrefix_propia p Hp) as [Hz Hf].
  rewrite (esMascaraSubredValida_direccion s _ Hd Hz Hf). f_equal.
  apply patronMascara_spec. eexists. eexists.
  rewrite binarioDe_expansion, expansion32_maskFromPrefix_Z by lia. reflexivity.
Qed.

Lemma esMascaraSubredValida_total (s : string) :
  exists b, esMascaraSubredValida s = Val b.
Proof.
  unfold esMascaraSubredValida.
  destruct (esDireccionIPValida_total s) as [[] Hv]; rewrite Hv; cbn [JS.bind negb];
    [| eauto].
  apply esDireccionIPValida_spec in Hv as (u & Hd & _ & _).
  rewrite (direccion_octetos _ _ Hd). cbn [JS.bind]. eauto.
Qed.

(** The binary string the code builds from a mask of prefix length [p]. *)
Lemma binarioDe_prefijo (p : Z) :
  0 <= p <= 32 ->
  let u := Spec.maskFromPrefix p in
  binarioDe [byte u 3; byte u 2; byte u 1; byte u 0]
  = Str.repeatNat "1" (Z.to_nat p) ++ Str.repeatNat "0" (Z.to_nat (32 - p)).
Proof.
  intros Hp u. apply chars_iny.
  rewrite binarioDe_expansion, chars_append, !chars_repeatNat.
  unfold u. rewrite expansion32_maskFromPrefix_Z by lia.
  unfold Spec.unosCeros. now rewrite map_app, !map_repeat.
Qed.

(** The logarithm step on an exact power of two. *)
Lemma calcularMascaraDesdeHosts_potencia (j : Z) :
  0 <= j <= 32 ->
  calcularMascaraDesdeHosts (2 ^ j - 2)
  = Val (Spec.integerToAddress (Spec.maskFromPrefix (32 - j))).
Proof.
  intros Hj. assert (0 < 2 ^ j) by (apply Z.pow_pos_nonneg; lia).
  assert (2 ^ j <= 2 ^ 32) by (apply Z.pow_le_mono_r; lia).
  rewrite calcularMascaraDesdeHosts_spec by lia.
  replace (2 ^ j - 2 + 2) with (2 ^ j) by lia.
  now rewrite Z.log2_up_pow2 by lia.
Qed.

End Prefijos.

(* ================================================================== *)
(** * The messages of a failed validation *)

Module Mensajes.

Import Direccion ValidadorFacts Mascara Prefijos.
Import Validador.

(** The messages about the address. *)
Definition mensajesIP : list string :=
  ["Por favor, ingresa una dirección IP.";
   "La dirección 0.0.0.0 no es válida para cálculos de subred.";
   "La dirección 255.255.255.255 es una dirección de broadcast global.";
   "Por favor, ingresa una dirección IP válida (ej: 192.168.1.100)."].

(** The messages about the mask. *)
Definition mensajesMascara : list string :=
  ["Por favor, ingresa una máscara de subred.";
   "Por favor, ingresa una máscara de subred válida (ej: 255.255.255.0)."].

(** The messages about the host count. *)
Definition mensajesHosts : list string :=
  ["Por favor, ingresa el número de hosts.";
   "El número de hosts debe ser mayor a 0.";
   "El número de hosts es demasiado grande (máximo: 16,777,214).";
   "Por favor, ingresa un número válido de hosts (mínimo 1)."].

Lemma mensaje_ip (s : string) :
  exists m, obtenerMensajeError "ip" (VStr s) = Val m /\ In m mensajesIP.
Proof.
  unfold obtenerMensajeError, mensajesIP. cbn [String.eqb Ascii.eqb Bool.eqb estaVacio JS.bind esCadena].
  destruct (String.eqb s "" || String.eqb (Str.trim s) ""); [eexists; split; [reflexivity | simpl; auto] |].
  destruct (String.eqb s "0.0.0.0"); [eexists; split; [reflexivity | simpl; auto] |].
  destruct (String.eqb s "255.255.255.255"); eexists; (split; [reflexivity | simpl; auto]).
Qed.

Lemma mensaje_mascara (s : string) :
  exists m, obtenerMensajeError "mascara" (VStr s) = Val m /\ In m mensajesMascara.
Proof.
  unfold obtenerMensajeError, mensajesMascara.
  cbn [String.eqb Ascii.eqb Bool.eqb estaVacio JS.bind esCadena].
  destruct (String.eqb s "" || String.eqb (Str.trim s) "");
    eexists; (split; [reflexivity | simpl; auto]).
Qed.

Lemma mensaje_hosts_cadena (s : string) :
  exists m, obtenerMensajeError "hosts" (VStr s) = Val m /\ In m mensajesHosts.
Proof.
  unfold obtenerMensajeError, mensajesHosts.
  cbn [String.eqb Ascii.eqb Bool.eqb estaVacio JS.bind esCadena aCadena].
  destruct (String.eqb s "" || String.eqb (Str.trim s) "");
    [eexists; split; [reflexivity | simpl; auto] |].
  destruct (Str.parseInt s) as [n|].
  - destruct (n <? 1); [eexists; split; [reflexivity | simpl; auto] |].
    destruct (n >? 16777214); eexists; (split; [reflexivity | simpl; auto 6]).
  - eexists; (split; [reflexivity | simpl; auto 6]).
Qed.

(** A number has no [trim]: only zero, which is falsy, gets a message. *)
Lemma mensaje_hosts_de_numero (n : Z) :
  obtenerMensajeError "hosts" (VNum n)
  = if n =? 0 then Val "Por favor, ingresa el número de hosts." else Exc TypeError.
Proof.
  unfold obtenerMensajeError.
  cbn [String.eqb Ascii.eqb Bool.eqb estaVacio JS.bind esCadena].
  destruct (n =? 0); reflexivity.
Qed.

(** A safe integer prints as its digits. *)
Lemma aCadena_seguro (z : Z) :
  Z.abs z <= MAX_SAFE_INTEGER -> aCadena (VNum z) = Val (Str.deNumero z).
Proof.
  intros Hz. unfold aCadena.
  destruct (Z.leb_spec (Z.abs z) MAX_SAFE_INTEGER); [reflexivity | lia].
Qed.

(** The host check on a safe integer is the comparison with the two
    bounds. *)
Lemma numero_hosts_seguro (z : Z) :
  Z.abs z <= MAX_SAFE_INTEGER ->
  esNumeroHostsValido (VNum z) = Val ((1 <=? z) && (z <=? 16777214)).
Proof.
  intros Hz. unfold esNumeroHostsValido. rewrite (aCadena_seguro z Hz).
  cbn [JS.bind]. rewrite Impreso.parseInt_deNumero.
  destruct (Z.ltb_spec z 1), (Z.gtb_spec z 16777214),
    (Z.leb_spec 1 z), (Z.leb_spec z 16777214); try lia; reflexivity.
Qed.

(** The host check answers on every count that prints. *)
Lemma hosts_decidido (h : valor) (texto : string) :
  aCadena h = Val texto -> exists b : bool, esNumeroHostsValido h = Val b.
Proof.
  intros Ht. unfold esNumeroHostsValido. rewrite Ht. cbn [JS.bind].
  destruct (Str.parseInt texto) as [n|]; [| eauto].
  destruct (n <? 1); [eauto |]. destruct (n >? 16777214); eauto.
Qed.

Lemma numero_hosts_valido (z : Z) :
  Z.abs z <= MAX_SAFE_INTEGER ->
  esNumeroHostsValido (VNum z) = Val true <-> 1 <= z <= 16777214.
Proof.
  intros Hz. rewrite (numero_hosts_seguro z Hz).
  destruct (Z.leb_spec 1 z), (Z.leb_spec z 16777214); cbn [andb];
    split; intros E; try lia; try reflexivity; discriminate E.
Qed.

Lemma numero_hosts_invalido (z : Z) :
  Z.abs z <= MAX_SAFE_INTEGER ->
  esNumeroHostsValido (VNum z) = Val false <-> ~ 1 <= z <= 16777214.
Proof.
  intros Hz. rewrite (numero_hosts_seguro z Hz).
  destruct (Z.leb_spec 1 z), (Z.leb_spec z 16777214); cbn [andb];
    split; intros E; try lia; try reflexivity; discriminate E.
Qed.

End Mensajes.

(* ================================================================== *)
(** * A submission of the form *)

Module Envio.

Import Direccion ValidadorFacts Mascara Completa Construida Prefijos Mensajes.
Import Validador CalculadoraSubredes GestorInterfaz AplicacionCalculadoraIP.

Lemma desdeHosts_valido (ip : string) (n : Z) :
  esDireccionIPValida ip = Val true -> 1 <= n <= 16777214 ->
  exists r, calcularDesdeHosts ip n = Val r /\ ResultadoIp.esValido r = true.
Proof.
  intros Hip Hn. apply esDireccionIPValida_spec in Hip as (a & Ha & _ & _).
  destruct (log2_up_hosts n Hn) as [Hk _]. cbv zeta in Hk.
  unfold calcularDesdeHosts, calcularSubredPorHosts.
  rewrite calcularMascaraDesdeHosts_spec by lia. cbn [JS.bind].
  destruct (esValido_completa ip _ a (32 - Z.log2_up (n + 2)) Ha
              (direccion_mascara (32 - Z.log2_up (n + 2)) ltac:(lia)) ltac:(lia))
    as (r & Hr & _ & Hv).
  eauto.
Qed.

Lemma desdeMascara_valido (ip mascara : string) :
  esDireccionIPValida ip = Val true -> esMascaraSubredValida mascara = Val true ->
  exists r, calcularDesdeMascara ip mascara = Val r /\ ResultadoIp.esValido r = true.
Proof.
  intros Hip Hm. apply esDireccionIPValida_spec in Hip as (a & Ha & _ & _).
  apply mascara_valida_prefijo in Hm as (p & Hp & Hd).
  destruct (esValido_completa ip mascara a p Ha Hd Hp) as (r & Hr & _ & Hv).
  unfold calcularDesdeMascara. eauto.
Qed.

Definition interno : string :=
  "Error interno al procesar los datos. Por favor, inténtelo de nuevo.".

(** What [obtenerDatosFormulario] reads: the trimmed fields, and a safe
    integer as the host count. *)
Lemma datos_leidos (f : formulario) (d : datos) :
  obtenerDatosFormulario f = Val d ->
  ip d = Str.trim (entradaIP f) /\
  tipoEntrada d = selectorTipoEntrada f /\
  mascara d = Str.trim (entradaMascara f) /\
  Z.abs (numeroHosts d) <= MAX_SAFE_INTEGER /\
  (Str.parseInt (Str.trim (entradaHosts f)) = None -> numeroHosts d = 0) /\
  (forall n, Str.parseInt (Str.trim (entradaHosts f)) = Some n -> numeroHosts d = n).
Proof.
  unfold obtenerDatosFormulario.
  destruct (Str.parseInt (Str.trim (entradaHosts f))) as [n|].
  - destruct (Z.leb_spec (Z.abs n) MAX_SAFE_INTEGER) as [Hn|Hn]; [| discriminate].
    cbn [JS.bind]. intros H. injection H as <-.
    cbn [ip tipoEntrada mascara numeroHosts].
    repeat split; try discriminate.
    + destruct (Z.eqb_spec n 0); [unfold MAX_SAFE_INTEGER |]; lia.
    + intros m Hm. injection Hm as <-. destruct (Z.eqb_spec n 0); congruence.
  - cbn [JS.bind]. intros H. injection H as <-.
    cbn [ip tipoEntrada mascara numeroHosts].
    repeat split; try discriminate; unfold MAX_SAFE_INTEGER; lia.
Qed.

(** The six ways a submission in one of the two modes of the selector
    can go, by the record read from the form. *)
Inductive caso (d : datos) : pantalla -> Prop :=
| caso_ip (m : string) :
    esDireccionIPValida (ip d) = Val false ->
    In m mensajesIP -> caso d (ConError m)
| caso_hosts (r : ResultadoIp.t) :
    esDireccionIPValida (ip d) = Val true ->
    tipoEntrada d = "hosts" ->
    1 <= numeroHosts d <= 16777214 ->
    calcularDesdeHosts (ip d) (numeroHosts d) = Val r ->
    caso d (ConResultados r)
| caso_sin_hosts :
    esDireccionIPValida (ip d) = Val true ->
    tipoEntrada d = "hosts" ->
    numeroHosts d = 0 ->
    caso d (ConError "Por favor, ingresa el número de hosts.")
| caso_interno :
    esDireccionIPValida (ip d) = Val true ->
    tipoEntrada d = "hosts" ->
    numeroHosts d <> 0 ->
    ~ 1 <= numeroHosts d <= 16777214 ->
    caso d (ConError interno)
| caso_mascara (r : ResultadoIp.t) :
    esDireccionIPValida (ip d) = Val true ->
    tipoEntrada d = "mascara" ->
    esMascaraSubredValida (mascara d) = Val true ->
    calcularDesdeMascara (ip d) (mascara d) = Val r ->
    caso d (ConResultados r)
| caso_mascara_mala (m : string) :
    esDireccionIPValida (ip d) = Val true ->
    tipoEntrada d = "mascara" ->
    esMascaraSubredValida (mascara d) = Val false ->
    In m mensajesMascara -> caso d (ConError m).

Lemma manejar_casos (f : formulario) (d : datos) :
  obtenerDatosFormulario f = Val d ->
  tipoEntrada d = "hosts" \/ tipoEntrada d = "mascara" ->
  exists p, manejarEnvioFormulario f = Val p /\ caso d p.
Proof.
  intros Hd Hmodo. unfold manejarEnvioFormulario.
  destruct (datos_leidos f d Hd) as (_ & _ & _ & Hseguro & _).
  rewrite Hd. cbn [JS.bind]. clear Hd.
  pose proof (caso_ip d) as C1. pose proof (caso_hosts d) as C2.
  pose proof (caso_sin_hosts d) as C3. pose proof (caso_interno d) as C4.
  pose proof (caso_mascara d) as C5. pose proof (caso_mascara_mala d) as C6.
  revert Hmodo Hseguro C1 C2 C3 C4 C5 C6.
  destruct d as [ip tipo n mascara].
  cbn [GestorInterfaz.ip GestorInterfaz.tipoEntrada GestorInterfaz.numeroHosts
       GestorInterfaz.mascara].
  intros Hmodo Hseguro C1 C2 C3 C4 C5 C6. unfold validarEntradaCompleta.
  destruct (esDireccionIPValida_total ip) as [[] Hv]; rewrite Hv; cbn [JS.bind negb].
  2:{ destruct (mensaje_ip ip) as (m & -> & Hin).
      cbn [JS.bind capturar esValido mensaje negb textoDe mostrarError].
      eexists. split; [reflexivity |]. now apply C1. }
  destruct Hmodo as [-> | ->].
  - cbn [String.eqb Ascii.eqb Bool.eqb].
    rewrite (numero_hosts_seguro n Hseguro). cbn [JS.bind].
    destruct ((1 <=? n) && (n <=? 16777214)) eqn:En; cbn [negb].
    + assert (Hn : 1 <= n <= 16777214) by lia.
      destruct (desdeHosts_valido ip n Hv Hn) as (r & Hr & Hok).
      cbn [JS.bind esValido negb]. rewrite Hr. cbn [JS.bind capturar].
      unfold mostrarResultados. rewrite Hok. cbn [negb].
      eexists. split; [reflexivity |]. now apply C2.
    + assert (Hn : ~ 1 <= n <= 16777214) by lia.
      rewrite mensaje_hosts_de_numero.
      destruct (Z.eqb_spec n 0) as [Hz|Hz].
      * cbn [JS.bind capturar esValido mensaje negb textoDe mostrarError].
        eexists. split; [reflexivity |]. now apply C3.
      * cbn [JS.bind capturar mostrarError].
        eexists. split; [reflexivity |]. now apply C4.
  - cbn [String.eqb Ascii.eqb Bool.eqb].
    destruct (esMascaraSubredValida_total mascara) as [[] Hmv]; rewrite Hmv;
      cbn [JS.bind negb].
    + destruct (desdeMascara_valido ip mascara Hv Hmv) as (r & Hr & Hok).
      cbn [esValido negb]. rewrite Hr. cbn [JS.bind capturar].
      unfold mostrarResultados. rewrite Hok. cbn [negb].
      eexists. split; [reflexivity |]. now apply C5.
    + destruct (mensaje_mascara mascara) as (m & -> & Hin).
      cbn [JS.bind capturar esValido mensaje negb textoDe mostrarError].
      eexists. split; [reflexivity |]. now apply C6.
Qed.

End Envio.

(* ================================================================== *)
(** * Address classes and private ranges *)

Module Clases.

Import Regex RegexFacts Exhaustivo Forma Direccion ValidadorFacts Mascara Prefijos.
Import Validador.

Definition parseBienb (a : string) : bool :=
  match Str.valorDecimal 0 a, Str.parseInt a with
  | Some v, Some w => v =? w
  | _, _ => false
  end.

(** [parseInt] and [Number] agree on an octet string. *)
Lemma parseInt_octeto (a : string) (v : Z) :
  En octetoRegex a -> Str.valorDecimal 0 a = Some v -> Str.parseInt a = Some v.
Proof.
  intros Ha Hv.
  apply (para_todo_octeto parseBienb) in Ha; [| vm_compute; reflexivity].
  unfold parseBienb in Ha. rewrite Hv in Ha.
  destruct (Str.parseInt a) as [w|]; [| discriminate].
  apply Z.eqb_eq in Ha. now subst.
Qed.

(** The first piece of a well-formed string reads as the top byte of the
    integer it denotes. *)
Lemma primer_octeto (s : string) :
  test ipRegex s = true ->
  exists (a : string) (resto : list string),
    Str.split "." s = a :: resto /\
    Str.parseInt a = Some (Spec.addressToInteger s / 2 ^ 24) /\
    0 <= Spec.addressToInteger s / 2 ^ 24 <= 255.
Proof.
  intros H. apply ipRegex_forma in H as (a & b & c & d & -> & Ea & Eb & Ec & Ed).
  destruct (En_octeto_bien _ Ea) as [va Ba], (En_octeto_bien _ Eb) as [vb Bb],
    (En_octeto_bien _ Ec) as [vc Bc], (En_octeto_bien _ Ed) as [vd Bd].
  destruct (octetosDe_punteada _ _ _ _ _ _ _ _ Ba Bb Bc Bd) as [_ ->].
  rewrite split_punteada by (apply Ba || apply Bb || apply Bc || apply Bd).
  destruct Ba as (_ & Va & Ra), Bb as (_ & _ & Rb), Bc as (_ & _ & Rc),
    Bd as (_ & _ & Rd).
  assert (E : Spec.empaquetar va vb vc vd / 2 ^ 24 = va).
  { unfold Spec.empaquetar. Z.div_mod_to_equations. lia. }
  rewrite E. eexists. eexists. split; [reflexivity |].
  split; [now apply parseInt_octeto | lia].
Qed.

(** The class table of [obtenerClaseIP], by first octet. *)
Definition claseDe (o : Z) : option string :=
  if (1 <=? o) && (o <=? 126) then Some "A"
  else if (128 <=? o) && (o <=? 191) then Some "B"
  else if (192 <=? o) && (o <=? 223) then Some "C"
  else if (224 <=? o) && (o <=? 239) then Some "D"
  else if (240 <=? o) && (o <=? 255) then Some "E"
  else None.

Lemma obtenerClaseIP_valida (ip : string) :
  esDireccionIPValida ip = Val true ->
  obtenerClaseIP ip = Val (claseDe (Spec.addressToInteger ip / 2 ^ 24)).
Proof.
  intros Hv. unfold obtenerClaseIP. rewrite Hv. cbn [JS.bind negb].
  apply esDireccionIPValida_spec in Hv as (u & [Hr _] & _).
  destruct (primer_octeto ip Hr) as (a & resto & -> & -> & _).
  unfold claseDe. rewrite !Z.geb_leb.
  repeat match goal with
  | |- context [if ?b then _ else _] => destruct b
  end; reflexivity.
Qed.

Lemma obtenerClaseIP_invalida (ip : string) :
  esDireccionIPValida ip = Val false -> obtenerClaseIP ip = Val None.
Proof. intros Hv. unfold obtenerClaseIP. now rewrite Hv. Qed.

(** The class letters. *)
Lemma clase_letra (ip : string) :
  exists c, obtenerClaseIP ip = Val c /\
    (c = None \/ c = Some "A" \/ c = Some "B" \/ c = Some "C" \/
     c = Some "D" \/ c = Some "E").
Proof.
  destruct (esDireccionIPValida_total ip) as [[] Hv].
  - rewrite (obtenerClaseIP_valida ip Hv). eexists. split; [reflexivity |].
    unfold claseDe.
    repeat match goal with
    | |- context [if ?b then _ else _] => destruct b
    end; auto 7.
  - rewrite (obtenerClaseIP_invalida ip Hv). eauto.
Qed.

End Clases.

(* ================================================================== *)
(** * The strings the address check accepts *)

Module Aceptadas.

Import Regex RegexFacts Exhaustivo Forma Direccion ValidadorFacts.
Import Validador.

(** A part of a dotted string that reads as an octet: one to three
    decimal digits, of value at most 255. *)
Definition octeto (a : string) (v : Z) : Prop :=
  (1 <= String.length a <= 3)%nat /\ Str.valorDecimal 0 a = Some v /\ v <= 255.

Definition esDigito (c : ascii) : bool :=
  match Str.digito c with
  | Some _ => true
  | None => false
  end.

Lemma digito_diez (c : ascii) (d : Z) : Str.digito c = Some d -> In c diez.
Proof.
  intros H. apply (clase_diez esDigito); [vm_compute; reflexivity |].
  unfold esDigito. now rewrite H.
Qed.

Lemma digitos_candidato (a : string) (v : Z) :
  (1 <= String.length a <= 3)%nat -> Str.valorDecimal 0 a = Some v ->
  In a candidatos.
Proof.
  intros Hl Hv.
  destruct a as [|c1 [|c2 [|c3 [|c4 r]]]]; cbn [String.length] in Hl; try lia;
    cbn [Str.valorDecimal] in Hv.
  - destruct (Str.digito c1) eqn:E1; [| discriminate].
    apply candidato1. eapply digito_diez; eassumption.
  - destruct (Str.digito c1) eqn:E1; [| discriminate].
    destruct (Str.digito c2) eqn:E2; [| discriminate].
    apply candidato2; eapply digito_diez; eassumption.
  - destruct (Str.digito c1) eqn:E1; [| discriminate].
    destruct (Str.digito c2) eqn:E2; [| discriminate].
    destruct (Str.digito c3) eqn:E3; [| discriminate].
    apply candidato3; eapply digito_diez; eassumption.
Qed.

Definition aceptaBienb (a : string) : bool :=
  match Str.valorDecimal 0 a with
  | Some v => Bool.eqb (test octetoRegex a) (v <=? 255)
  | None => true
  end.

Definition largoBienb (a : string) : bool :=
  (1 <=? String.length a)%nat && (String.length a <=? 3)%nat.

(** The octet pattern accepts exactly the digit strings of one to three
    digits whose value is at most 255. *)
Lemma octeto_En (a : string) :
  En octetoRegex a <-> exists v, octeto a v.
Proof.
  split.
  - intros H. destruct (En_octeto_bien a H) as (v & _ & Hv & Hr).
    exists v. split; [| split; [exact Hv | lia]].
    apply En_octeto_candidato in H.
    assert (Hl : forallb largoBienb candidatos = true) by (vm_compute; reflexivity).
    rewrite forallb_forall in Hl. apply Hl in H. unfold largoBienb in H.
    apply andb_true_iff in H as [H1 H3].
    apply Nat.leb_le in H1, H3. lia.
  - intros (v & Hl & Hv & Hle). apply test_spec.
    pose proof (digitos_candidato a v Hl Hv) as Hc.
    assert (Hb : forallb aceptaBienb candidatos = true) by (vm_compute; reflexivity).
    rewrite forallb_forall in Hb. apply Hb in Hc. unfold aceptaBienb in Hc.
    rewrite Hv in Hc. apply Bool.eqb_prop in Hc. rewrite Hc. now apply Z.leb_le.
Qed.

End Aceptadas.

(* ================================================================== *)
(** * The entries of an optimised list *)

Module Optimizado.

Import Spec.
Import Direccion Mascara Completa Construida Arreglos Orden Optimizar Prefijos.
Import Validador CalculadoraSubredes.

(** What [optimizarSubredes] returns: the entries of the requirements in
    descending order. *)
Lemma optimizarSubredes_entradas
    (listaHosts : nat) (m : gmap nat (list Z)) (requisitos : list Z) :
  m !! listaHosts = Some requisitos -> Forall admisible requisitos ->
  exists m' : gmap nat (list Z),
    optimizarSubredes listaHosts m
    = Val (entradas 0 (ordenar (fun a b => b - a) requisitos), m').
Proof.
  intros Hm Hval.
  set (s := ordenar (fun a b => b - a) requisitos).
  destruct (ordenar_descendente requisitos) as (Hperm & _). fold s in Hperm.
  assert (Hvs : Forall admisible s).
  { eapply Permutation_Forall; [symmetry; exact Hperm | exact Hval]. }
  set (r := fresh (dom m)).
  exists (<[r := s]> (<[r := requisitos]> m)).
  unfold optimizarSubredes. rewrite Hm. cbn [JS.bind de_opcion].
  unfold nuevoArreglo. fold r. unfold sort.
  rewrite lookup_insert_eq. cbn [JS.bind de_opcion]. fold s.
  rewrite lookup_insert_eq. cbn [JS.bind de_opcion].
  now rewrite (forEach_valido s 0 Hvs).
Qed.

(** A descending list is determined by its elements. *)
Lemma descendentes_iguales (l1 : list Z) : forall l2 : list Z,
  StronglySorted Z.ge l1 -> StronglySorted Z.ge l2 -> Permutation l1 l2 -> l1 = l2.
Proof.
  induction l1 as [|x l1 IH]; intros l2 H1 H2 Hp.
  - apply Permutation_nil in Hp. now subst.
  - destruct l2 as [|y l2]; [symmetry in Hp; now apply Permutation_nil in Hp |].
    apply StronglySorted_inv in H1 as [S1 F1]. apply StronglySorted_inv in H2 as [S2 F2].
    assert (Hxy : x = y).
    { assert (Hx : In x (y :: l2)) by (eapply Permutation_in; [exact Hp | now left]).
      assert (Hy : In y (x :: l1))
        by (eapply Permutation_in; [symmetry; exact Hp | now left]).
      rewrite Forall_forall in F1, F2.
      destruct Hx as [Hx | Hx]; [now subst |].
      destruct Hy as [Hy | Hy]; [now subst |].
      apply F1 in Hy. apply F2 in Hx. lia. }
    subst y. f_equal. apply IH; try assumption.
    now apply Permutation_cons_inv in Hp.
Qed.

Lemma ordenar_permutacion (l1 l2 : list Z) :
  Permutation l1 l2 ->
  ordenar (fun a b => b - a) l1 = ordenar (fun a b => b - a) l2.
Proof.
  intros Hp.
  destruct (ordenar_descendente l1) as (P1 & S1 & _).
  destruct (ordenar_descendente l2) as (P2 & S2 & _). cbv zeta in *.
  apply descendentes_iguales; try assumption.
  rewrite P1, Hp. now symmetry.
Qed.

Lemma entradas_cidr (index : Z) (l : list Z) :
  map notacionCIDR_ (entradas index l) = map (fun h => 32 - Z.log2_up (h + 2)) l.
Proof.
  revert index. induction l as [|x l IH]; intros index; simpl; [reflexivity |].
  now rewrite IH.
Qed.

Lemma entradas_disponibles (index : Z) (l : list Z) :
  map hostsDisponibles (entradas index l) = map (fun h => 2 ^ Z.log2_up (h + 2) - 2) l.
Proof.
  revert index. induction l as [|x l IH]; intros index; simpl; [reflexivity |].
  now rewrite IH.
Qed.

Lemma descendente_map (f : Z -> Z) (R : Z -> Z -> Prop) (l : list Z) :
  (forall a b, a >= b -> R (f a) (f b)) ->
  StronglySorted Z.ge l -> StronglySorted R (map f l).
Proof.
  intros Hf. induction 1 as [|x l Hs IH Hall]; simpl; constructor; [assumption |].
  rewrite Forall_map. eapply Forall_impl; [| exact Hall]. intros y Hy. now apply Hf.
Qed.

Lemma entradas_Forall (P : subredOptimizada -> Prop) (l : list Z) : forall index : Z,
  (forall h i, In h l -> P (entradaDe h i)) -> Forall P (entradas index l).
Proof.
  induction l as [|x l IH]; intros index H; simpl; constructor.
  - apply H. now left.
  - apply IH. intros h i Hh. apply H. now right.
Qed.

End Optimizado.

(* ================================================================== *)
(** * Counting the bits of any mask *)

Module Bits.

Import Direccion ValidadorFacts Binario Mascara.
Import Validador CalculadoraSubredes.

Lemma unos_y_ceros (l : list bool) :
  (List.length (List.filter (fun b : bool => b) l)
   + List.length (List.filter negb l) = List.length l)%nat.
Proof. induction l as [|[] l IH]; simpl; lia. Qed.

Lemma sin_ceros (l : list bool) :
  List.length (List.filter negb l) = 0%nat -> l = List.repeat true (List.length l).
Proof.
  induction l as [|[] l IH]; simpl; intros H; [reflexivity | | discriminate].
  f_equal. now apply IH.
Qed.

(** The zero bits the code counts in any well-formed mask. *)
Lemma calcularHostsDesdeMascara_bits (s : string) (m : Z) :
  direccion s m ->
  calcularHostsDesdeMascara s = Val (2 ^ (32 - Spec.prefixLength m) - 2) /\
  0 <= Spec.prefixLength m <= 32 /\
  (Spec.prefixLength m = 32 <-> m = 2 ^ 32 - 1).
Proof.
  intros Hd. pose proof (direccion_rango _ _ Hd) as Rm.
  pose proof (unos_y_ceros (Spec.expansion32 m)) as Hs.
  rewrite expansion32_length in Hs.
  unfold calcularHostsDesdeMascara. rewrite (direccion_octetos _ _ Hd). cbn [JS.bind].
  rewrite binarioDe_expansion, contar_ceros. unfold Spec.prefixLength.
  split; [do 3 f_equal; lia |]. split; [lia |]. split.
  - intros H.
    assert (Hz : List.length (List.filter negb (Spec.expansion32 m)) = 0%nat) by lia.
    apply sin_ceros in Hz. rewrite expansion32_length in Hz.
    apply (unosCeros_maskFromPrefix m 32 0 Rm) in Hz. apply Hz.
  - intros ->. vm_compute. reflexivity.
Qed.

End Bits.

(* ================================================================== *)
(** * Trimmed text *)

Module Recorte.

Lemma invertir_invertir (s : string) : Str.invertir (Str.invertir s) = s.
Proof.
  unfold Str.invertir.
  now rewrite list_ascii_of_string_of_list_ascii, rev_involutive,
    string_of_list_ascii_of_string.
Qed.

Lemma lista_app (a b : string) :
  list_ascii_of_string (a ++ b) = (list_ascii_of_string a ++ list_ascii_of_string b)%list.
Proof. induction a as [|c a IH]; simpl; [reflexivity | now rewrite IH]. Qed.

Lemma cadena_app (a b : list ascii) :
  string_of_list_ascii (a ++ b)%list = string_of_list_ascii a ++ string_of_list_ascii b.
Proof. induction a as [|c a IH]; simpl; [reflexivity | now rewrite IH]. Qed.

Lemma invertir_app (a b : string) :
  Str.invertir (a ++ b) = Str.invertir b ++ Str.invertir a.
Proof. unfold Str.invertir. now rewrite lista_app, rev_app_distr, cadena_app. Qed.

Lemma largo_lista (s : string) :
  String.length s = List.length (list_ascii_of_string s).
Proof. induction s as [|c s IH]; simpl; [reflexivity | now rewrite IH]. Qed.

Lemma largo_invertir (s : string) : String.length (Str.invertir s) = String.length s.
Proof.
  unfold Str.invertir.
  now rewrite !largo_lista, list_ascii_of_string_of_list_ascii, length_rev.
Qed.

Lemma largo_app (a b : string) :
  String.length (a ++ b) = (String.length a + String.length b)%nat.
Proof. induction a as [|c a IH]; simpl; [reflexivity | now rewrite IH]. Qed.

Lemma app_asociativa (a b c : string) : (a ++ b) ++ c = a ++ (b ++ c).
Proof. induction a as [|x a IH]; simpl; [reflexivity | now rewrite IH]. Qed.

(** [sinPrefijo p s] answers [r] exactly when [s] is [p] followed by [r]. *)
Lemma sinPrefijo_spec (p s r : string) :
  Str.sinPrefijo p s = Some r <-> s = p ++ r.
Proof.
  revert s. induction p as [|a p IH]; intros s; simpl.
  - split; [intros H; now injection H | intros ->; reflexivity].
  - destruct s as [|b s]; [split; discriminate |].
    destruct (Ascii.eqb_spec a b) as [->|Hab].
    + rewrite IH. split; [intros ->; reflexivity | intros H; now injection H].
    + split; [discriminate | intros H; injection H as H _; congruence].
Qed.

Lemma sinPrimero_Some (ws : list string) (s r : string) :
  Str.sinPrimero ws s = Some r -> exists w, In w ws /\ s = w ++ r.
Proof.
  induction ws as [|w ws IH]; simpl; [discriminate |].
  destruct (Str.sinPrefijo w s) as [r'|] eqn:E.
  - intros H. injection H as ->. apply sinPrefijo_spec in E. eauto.
  - intros H. destruct (IH H) as (w' & Hin & Hs). eauto.
Qed.

Lemma sinPrimero_None (ws : list string) (s : string) :
  Str.sinPrimero ws s = None <-> forall w r, In w ws -> s <> w ++ r.
Proof.
  induction ws as [|w ws IH]; simpl.
  - split; [intros _ w r [] | reflexivity].
  - destruct (Str.sinPrefijo w s) as [r'|] eqn:E.
    + apply sinPrefijo_spec in E. split; [discriminate |].
      intros H. exfalso. apply (H w r'); auto.
    + rewrite IH. split.
      * intros H w' r [<- | Hin]; [| now apply H].
        intros Hc. apply sinPrefijo_spec in Hc. congruence.
      * intros H w' r Hin. apply H. now right.
Qed.

(** What [sinPrimeros] leaves is the end of its argument. *)
Lemma sinPrimeros_final (ws : list string) (n : nat) : forall s : string,
  exists p, s = p ++ Str.sinPrimeros ws n s.
Proof.
  induction n as [|n IH]; intros s; simpl; [now exists "" |].
  destruct (Str.sinPrimero ws s) as [s'|] eqn:E; [| now exists ""].
  apply sinPrimero_Some in E as (w & _ & ->).
  destruct (IH s') as [p Hp]. exists (w ++ p).
  rewrite app_asociativa. now rewrite <- Hp.
Qed.

(** With fuel for every byte, what [sinPrimeros] leaves starts with no
    member of [ws]. *)
Lemma sinPrimeros_limpio (ws : list string) :
  Forall (fun w => w <> "") ws ->
  forall (n : nat) (s : string), (String.length s <= n)%nat ->
  Str.sinPrimero ws (Str.sinPrimeros ws n s) = None.
Proof.
  intros Hws. induction n as [|n IH]; intros s Hn; simpl.
  - destruct s; [| simpl in Hn; lia]. apply sinPrimero_None.
    intros w r Hin Hc. rewrite Forall_forall in Hws. apply (Hws w Hin).
    destruct w; [reflexivity | discriminate].
  - destruct (Str.sinPrimero ws s) as [s'|] eqn:E; [| exact E].
    apply IH. apply sinPrimero_Some in E as (w & Hin & ->).
    rewrite Forall_forall in Hws. specialize (Hws w Hin).
    rewrite largo_app in Hn. destruct w; [congruence | simpl in Hn; lia].
Qed.

Lemma sinPrimeros_fijo (ws : list string) (n : nat) (s : string) :
  Str.sinPrimero ws s = None -> Str.sinPrimeros ws n s = s.
Proof. intros H. destruct n; simpl; [reflexivity | now rewrite H]. Qed.

Lemma espacios_no_vacios :
  Forall (fun w => w <> "") Str.espacios /\
  Forall (fun w => w <> "") (map Str.invertir Str.espacios).
Proof.
  split; apply Forall_forall; intros w Hin Hw; subst w;
    vm_compute in Hin; intuition discriminate.
Qed.

(** What [trimStart] leaves starts with no white space. *)
Lemma trimStart_limpio (s : string) :
  Str.sinPrimero Str.espacios (Str.trimStart s) = None.
Proof. apply sinPrimeros_limpio; [apply espacios_no_vacios | lia]. Qed.

(** What [trimEnd] leaves ends with no white space, and starts its
    argument. *)
Lemma trimEnd_limpio (s : string) :
  Str.sinPrimero (map Str.invertir Str.espacios) (Str.invertir (Str.trimEnd s)) = None.
Proof.
  unfold Str.trimEnd. rewrite invertir_invertir.
  apply sinPrimeros_limpio; [apply espacios_no_vacios |].
  rewrite largo_invertir. lia.
Qed.

Lemma trimEnd_inicio (s : string) : exists x, s = Str.trimEnd s ++ x.
Proof.
  unfold Str.trimEnd.
  destruct (sinPrimeros_final (map Str.invertir Str.espacios) (String.length s)
              (Str.invertir s)) as [p Hp].
  exists (Str.invertir p).
  rewrite <- invertir_app, <- Hp. symmetry. apply invertir_invertir.
Qed.

(** [trim] leaves its own result alone. *)
Lemma trim_trim (s : string) : Str.trim (Str.trim s) = Str.trim s.
Proof.
  unfold Str.trim at 1. set (t := Str.trim s).
  assert (Hi : Str.sinPrimero Str.espacios t = None).
  { apply sinPrimero_None. intros w r Hin Hc.
    destruct (trimEnd_inicio (Str.trimStart s)) as [x Hx].
    fold (Str.trim s) in Hx. fold t in Hx. rewrite Hc, app_asociativa in Hx.
    pose proof (trimStart_limpio s) as Hl.
    rewrite sinPrimero_None in Hl. exact (Hl w _ Hin Hx). }
  assert (Ht : Str.trimStart t = t) by (now apply sinPrimeros_fijo).
  rewrite Ht. unfold Str.trimEnd.
  rewrite sinPrimeros_fijo by apply trimEnd_limpio.
  apply invertir_invertir.
Qed.

(** What [trim] leaves is not emptied by trimming it again. *)
Lemma trim_trim_vacio (s : string) : Str.trim (Str.trim s) = "" -> Str.trim s = "".
Proof. now rewrite trim_trim. Qed.

End Recorte.

(* ================================================================== *)
(** * The specified properties *)

Section Propiedades.

Import Regex RegexFacts Exhaustivo Forma Direccion ValidadorFacts Binario Mascara Completa.
Import Validador CalculadoraSubredes.

(** C1. For an address and a mask that the validator accepts,
    [calcularSubredCompleta] returns a record whose network address is
    [base & mask], whose broadcast address is [network | ~mask] on unsigned
    32 bits, whose first host is [network + 1], whose last host is
    [broadcast - 1], whose gateway is the first host, and whose host count
    is [2^(32 - prefixLength) - 2]; for 10.0.0.50 with 255.255.255.0 that is
    network 10.0.0.0 (10.0.0.0/24), broadcast 10.0.0.255, hosts 10.0.0.1 to
    10.0.0.254, 254 usable hosts. *)
Theorem C1_calcularSubredCompleta :
  (forall ip mascara : string,
     esDireccionIPValida ip = Val true ->
     esMascaraSubredValida mascara = Val true ->
     let base := Spec.addressToInteger ip in
     let mask := Spec.addressToInteger mascara in
     let network := Z.land base mask in
     let broadcast := Z.lor network (2 ^ 32 - 1 - mask) in
     exists r,
       calcularSubredCompleta ip mascara = Val r /\
       ResultadoIp.networkIP r = Spec.integerToAddress network /\
       ResultadoIp.subnetMask r = mascara /\
       ResultadoIp.broadcastIP r = Spec.integerToAddress broadcast /\
       ResultadoIp.firstHostIP r = Spec.integerToAddress (network + 1) /\
       ResultadoIp.lastHostIP r = Spec.integerToAddress (broadcast - 1) /\
       ResultadoIp.gatewayIP r = ResultadoIp.firstHostIP r /\
       ResultadoIp.totalHosts r = 2 ^ (32 - Spec.prefixLength mask) - 2 /\
       0 <= network /\ network + 1 < 2 ^ 32 /\
       0 <= broadcast - 1 /\ broadcast < 2 ^ 32) /\
  calcularSubredCompleta "10.0.0.50" "255.255.255.0"
  = Val (ResultadoIp.nuevo "10.0.0.0" "255.255.255.0" "10.0.0.255"
           "10.0.0.1" "10.0.0.254" "10.0.0.1" 254) /\
  (let* r := calcularSubredCompleta "10.0.0.50" "255.255.255.0" in
   ResultadoIp.getRedCIDR r) = Val "10.0.0.0/24".
Proof.
  split; [| split; reflexivity].
  intros ip mascara Hip Hmask base mask network broadcast.
  apply esDireccionIPValida_spec in Hip as (a & Ha & _ & _).
  apply mascara_valida_prefijo in Hmask as (p & Hp & Hm).
  assert (Ea : base = a) by apply Ha.
  assert (Em : mask = Spec.maskFromPrefix p) by apply Hm.
  eexists. split; [apply (completa_prefijo ip mascara a p Ha Hm Hp) |].
  cbn [ResultadoIp.networkIP ResultadoIp.subnetMask ResultadoIp.broadcastIP
       ResultadoIp.firstHostIP ResultadoIp.lastHostIP ResultadoIp.gatewayIP
       ResultadoIp.totalHosts].
  subst network broadcast. rewrite Ea, Em.
  rewrite prefixLength_maskFromPrefix by lia.
  pose proof (direccion_rango _ _ Ha) as Ra.
  pose proof (maskFromPrefix_rango p ltac:(lia)) as Rm.
  pose proof (maskFromPrefix_par p ltac:(lia)) as Hodd.
  destruct (red_rango a _ Ra Rm Hodd) as [Hr0 Hr1].
  destruct (difusion_rango a _ Ra Rm Hodd) as [Hb0 Hb1].
  unfold difusion, red in *.
  repeat split; try reflexivity; try lia.
Qed.

Lemma C1_calcularSubredCompleta_witness :
  exists r,
    calcularSubredCompleta "172.16.5.9" "255.255.240.0" = Val r /\
    ResultadoIp.networkIP r = "172.16.0.0" /\
    ResultadoIp.broadcastIP r = "172.16.15.255" /\
    ResultadoIp.firstHostIP r = "172.16.0.1" /\
    ResultadoIp.lastHostIP r = "172.16.15.254" /\
    ResultadoIp.totalHosts r = 4094.
Proof.
  assert (Hip : esDireccionIPValida "172.16.5.9" = Val true) by reflexivity.
  assert (Hm : esMascaraSubredValida "255.255.240.0" = Val true) by reflexivity.
  destruct (proj1 C1_calcularSubredCompleta "172.16.5.9" "255.255.240.0" Hip Hm)
    as (r & Hr & Hn & _ & Hb & Hf & Hl & _ & Ht & _).
  exists r. rewrite Hn, Hb, Hf, Hl, Ht.
  split; [exact Hr |]. repeat split; vm_compute; reflexivity.
Defined.

(** C2, as stated: the round trip through the integer is the identity on
    every accepted string.  An accepted string may write an octet with a
    leading zero, which the round trip drops. *)
Lemma C2_counterexample :
  esDireccionIPValida "192.168.01.1" = Val true /\
  (let* n := ipANumero "192.168.01.1" in Val (numeroAIp n)) = Val "192.168.1.1" /\
  ~ (forall s : string,
       esDireccionIPValida s = Val true ->
       (let* n := ipANumero s in Val (numeroAIp n)) = Val s).
Proof.
  split; [reflexivity |]. split; [reflexivity |].
  intros H. specialize (H "192.168.01.1" eq_refl). discriminate H.
Qed.

(** C2, amended. For every accepted string the round trip gives the
    dotted decimal of the same address with every octet printed without
    leading zeros, which converts to the same integer again; it is the
    string itself when no octet of the string is written with a leading
    zero. *)
Theorem C2_ida_y_vuelta (s : string) :
  esDireccionIPValida s = Val true ->
  exists n : Z,
    ipANumero s = Val n /\
    numeroAIp n = Spec.integerToAddress (Spec.addressToInteger s) /\
    ipANumero (numeroAIp n) = Val n /\
    Spec.canonica (numeroAIp n) = true /\
    (numeroAIp n = s <-> Spec.canonica s = true).
Proof.
  intros Hs. apply esDireccionIPValida_spec in Hs as (u & Hd & _ & _).
  destruct (Canonica.ida_y_vuelta s u Hd) as (n & Hn & Hp & Hb).
  pose proof Hd as [Hr Hu]. exists n. rewrite Hu.
  assert (Hc : Spec.canonica (numeroAIp n) = true)
    by (rewrite Hp; apply Canonica.integerToAddress_es_canonica).
  split; [assumption |]. split; [assumption |]. split; [assumption |].
  split; [assumption |]. split.
  - intros <-. assumption.
  - intros Hcs. rewrite Hp, <- Hu. now apply Canonica.integerToAddress_canonica.
Qed.

Lemma C2_ida_y_vuelta_witness :
  exists n : Z,
    ipANumero "192.168.1.100" = Val n /\
    numeroAIp n = Spec.integerToAddress (Spec.addressToInteger "192.168.1.100") /\
    ipANumero (numeroAIp n) = Val n /\
    Spec.canonica (numeroAIp n) = true /\
    (numeroAIp n = "192.168.1.100" <-> Spec.canonica "192.168.1.100" = true).
Proof.
  apply (C2_ida_y_vuelta "192.168.1.100"). reflexivity.
Defined.

(** C3. For a host count in the validated range [1, 16777214],
    [calcularMascaraDesdeHosts] returns the mask made of [32 - k] one bits
    followed by [k] zero bits, where [k] is the ceiling of the binary
    logarithm of [hosts + 2]; from 192.168.1.100 with 50 hosts the result is
    mask 255.255.255.192, network 192.168.1.64, broadcast 192.168.1.127,
    hosts 192.168.1.65 to 192.168.1.126, gateway 192.168.1.65 and 62 usable
    hosts. *)
Theorem C3_calcularMascaraDesdeHosts :
  (forall hosts : Z,
     1 <= hosts <= 16777214 ->
     exists (k : Z) (mascara : string),
       2 <= k <= 24 /\
       2 ^ (k - 1) < hosts + 2 <= 2 ^ k /\
       calcularMascaraDesdeHosts hosts = Val mascara /\
       test ipRegex mascara = true /\
       Spec.expansion32 (Spec.addressToInteger mascara)
       = Spec.unosCeros (Z.to_nat (32 - k)) (Z.to_nat k)) /\
  calcularSubredPorHosts "192.168.1.100" 50
  = Val (ResultadoIp.nuevo "192.168.1.64" "255.255.255.192" "192.168.1.127"
           "192.168.1.65" "192.168.1.126" "192.168.1.65" 62).
Proof.
  split; [| reflexivity].
  intros hosts Hh. destruct (Construida.log2_up_hosts hosts Hh) as [Hk Hs].
  set (k := Z.log2_up (hosts + 2)) in *.
  exists k, (Spec.integerToAddress (Spec.maskFromPrefix (32 - k))).
  split; [assumption |]. split; [assumption |].
  split; [apply Construida.calcularMascaraDesdeHosts_spec; lia |].
  destruct (Construida.direccion_mascara (32 - k) ltac:(lia)) as [Hr ->].
  split; [assumption |].
  rewrite expansion32_maskFromPrefix_Z by lia. f_equal. lia.
Qed.

Lemma C3_calcularMascaraDesdeHosts_witness :
  exists (k : Z) (mascara : string),
    2 <= k <= 24 /\
    2 ^ (k - 1) < 1000 + 2 <= 2 ^ k /\
    calcularMascaraDesdeHosts 1000 = Val mascara /\
    test ipRegex mascara = true /\
    Spec.expansion32 (Spec.addressToInteger mascara)
    = Spec.unosCeros (Z.to_nat (32 - k)) (Z.to_nat k).
Proof.
  apply (proj1 C3_calcularMascaraDesdeHosts 1000). lia.
Defined.

(** C4. On validated address and mask and a positive count,
    [dividirEnSubredes] raises its capacity error exactly when the prefix
    length of the mask plus the ceiling of the binary logarithm of the
    count exceeds 30; otherwise it returns as many records as asked, whose
    network addresses start at the network address of the input and go up
    by the block size [2^(32 - newPrefix)] from one to the next, without
    leaving the 32-bit range.  Splitting 192.168.1.0 with 255.255.255.0
    into 8 gives the /27 blocks at .0, .32, ..., .224. *)
Theorem C4_dividirEnSubredes :
  (forall (ip mascara : string) (n : Z),
     esDireccionIPValida ip = Val true ->
     esMascaraSubredValida mascara = Val true ->
     1 <= n ->
     let p := Spec.prefixLength (Spec.addressToInteger mascara) in
     let q := p + Z.log2_up n in
     let base := Z.land (Spec.addressToInteger ip) (Spec.addressToInteger mascara) in
     let size := 2 ^ (32 - q) in
     (dividirEnSubredes ip mascara n
      = Exc (Error "No es posible crear tantas subredes con hosts válidos")
      <-> 30 < q) /\
     (q <= 30 ->
      exists rs : list ResultadoIp.t,
        dividirEnSubredes ip mascara n = Val rs /\
        Z.of_nat (List.length rs) = n /\
        map ResultadoIp.networkIP rs
        = map (fun i => Spec.integerToAddress (base + i * size)) (indices n) /\
        map (fun r => Spec.addressToInteger (ResultadoIp.networkIP r)) rs
        = map (fun i => base + i * size) (indices n) /\
        map ResultadoIp.subnetMask rs
        = map (fun _ => Spec.integerToAddress (Spec.maskFromPrefix q)) (indices n) /\
        0 <= base /\ 0 < size /\ base + n * size <= 2 ^ 32)) /\
  (let* rs := dividirEnSubredes "192.168.1.0" "255.255.255.0" 8 in
   mapM ResultadoIp.getRedCIDR rs)
  = Val ["192.168.1.0/27"; "192.168.1.32/27"; "192.168.1.64/27"; "192.168.1.96/27";
         "192.168.1.128/27"; "192.168.1.160/27"; "192.168.1.192/27";
         "192.168.1.224/27"].
Proof.
  split; [| vm_compute; reflexivity].
  intros ip mascara n Hip Hmask Hn p q base size.
  apply esDireccionIPValida_spec in Hip as (a & Ha & _ & _).
  apply mascara_valida_prefijo in Hmask as (p' & Hp & Hm).
  pose proof Ha as [_ Ea]. pose proof Hm as [_ Em].
  assert (Epp : p = p').
  { unfold p. rewrite Em. apply prefixLength_maskFromPrefix. lia. }
  clearbody p. subst p'. subst base. rewrite Ea, Em.
  fold (red a (Spec.maskFromPrefix p)).
  pose proof (direccion_rango _ _ Ha) as Ra.
  pose proof (Dividir.log2_up_techo n Hn) as [Hb Hnb].
  assert (Hcap : 30 < q ->
    dividirEnSubredes ip mascara n
    = Exc (Error "No es posible crear tantas subredes con hosts válidos")).
  { intros Hgt. unfold dividirEnSubredes, ceilLog2.
    destruct (n <? 0) eqn:Hn0; [lia |]. destruct (n =? 0) eqn:Hn1; [lia |].
    destruct (obtenerInfoAdicional_prefijo mascara p ltac:(lia) Hm) as (info & Hi & Hbits).
    rewrite Hi. cbn [JS.bind]. rewrite Hbits. cbn [sumarA mayorQue]. fold q.
    destruct (q >? 30) eqn:Hc; [reflexivity | lia]. }
  assert (Hok : q <= 30 ->
    dividirEnSubredes ip mascara n
    = Val (map (fun i => Dividir.bloque q (red a (Spec.maskFromPrefix p) + i * size))
               (indices n))).
  { intros Hle. now apply Dividir.dividirEnSubredes_bloques. }
  split.
  - split; [| exact Hcap].
    intros He. destruct (Z_lt_le_dec 30 q) as [Hgt|Hle]; [assumption |].
    rewrite (Hok Hle) in He. discriminate He.
  - intros Hle. eexists. split; [exact (Hok Hle) |].
    pose proof (Dividir.size_pos p n Hn Hle) as Hs. fold q in Hs. fold size in Hs.
    rewrite length_map, Dividir.indices_length, !map_map.
    cbn [Dividir.bloque ResultadoIp.networkIP ResultadoIp.subnetMask].
    split; [lia |]. split; [reflexivity |]. split.
    + apply map_ext_in. intros i Hi. apply Dividir.indices_In in Hi.
      destruct (Dividir.bloque_rango a p n Ra Hp Hn Hle i Hi) as (H0 & H1 & _).
      fold q in H0, H1. fold size in H0, H1.
      apply integerToAddress_direccion. lia.
    + split; [reflexivity |].
      destruct (Dividir.base_rango a p Ra Hp) as (Hb0 & _ & _).
      destruct (Dividir.bloque_rango a p n Ra Hp Hn Hle (n - 1) ltac:(lia)) as (_ & H1 & _).
      fold q in H1. fold size in H1. split; [assumption |]. split; [assumption |]. lia.
Qed.

Lemma C4_dividirEnSubredes_witness :
  exists rs : list ResultadoIp.t,
    dividirEnSubredes "10.20.30.40" "255.255.0.0" 3 = Val rs /\
    Z.of_nat (List.length rs) = 3 /\
    map ResultadoIp.networkIP rs = ["10.20.0.0"; "10.20.64.0"; "10.20.128.0"].
Proof.
  destruct (proj1 C4_dividirEnSubredes "10.20.30.40" "255.255.0.0" 3
              eq_refl eq_refl ltac:(lia)) as [_ H].
  destruct (H ltac:(vm_compute; discriminate)) as (rs & Hr & Hl & Hnet & _).
  exists rs. split; [exact Hr |]. split; [exact Hl |]. rewrite Hnet. reflexivity.
Defined.

(** C5. [esMascaraSubredValida] answers true exactly for the strings that
    pass the address check and whose 32-bit expansion is a run of ones
    followed by a run of zeros; 255.0.255.0 is rejected. *)
Theorem C5_esMascaraSubredValida :
  (forall s : string,
     (exists b, esMascaraSubredValida s = Val b) /\
     (esMascaraSubredValida s = Val true <->
      esDireccionIPValida s = Val true /\
      exists a b : nat,
        Spec.expansion32 (Spec.addressToInteger s) = Spec.unosCeros a b)) /\
  esDireccionIPValida "255.0.255.0" = Val true /\
  esMascaraSubredValida "255.0.255.0" = Val false.
Proof.
  split; [| split; reflexivity].
  intros s. destruct (esDireccionIPValida_total s) as [[] Hv].
  - pose proof Hv as Hv'.
    apply esDireccionIPValida_spec in Hv' as (u & Hd & Hz & Hf).
    rewrite (esMascaraSubredValida_direccion s u Hd Hz Hf).
    destruct Hd as [_ ->]. split; [eauto |]. split.
    + intros H. injection H as H. split; [assumption |].
      apply patronMascara_spec in H as (a & b & H).
      rewrite binarioDe_expansion in H. apply bitChar_iny in H. eauto.
    + intros [_ (a & b & H)]. f_equal. apply patronMascara_spec.
      exists a, b. now rewrite binarioDe_expansion, H.
  - assert (Hm : esMascaraSubredValida s = Val false).
    { unfold esMascaraSubredValida. now rewrite Hv. }
    rewrite Hm, Hv. split; [eauto |]. split; [discriminate |].
    intros [H _]. discriminate.
Qed.

(** C6. [validarEntradaCompleta] looks at the address first: when the
    address is not accepted the outcome is the address error, whatever the
    mode, the mask and the host count; for 0.0.0.0 it is the invalid
    outcome with the message about that address, in both modes. *)
Theorem C6_validarEntradaCompleta :
  (forall (ip tipoEntrada mascara : string) (numeroHosts : valor),
     esDireccionIPValida ip = Val false ->
     exists m : string,
       obtenerMensajeError "ip" (VStr ip) = Val m /\
       validarEntradaCompleta ip tipoEntrada mascara numeroHosts
       = Val {| esValido := false; mensaje := Some m |}) /\
  (forall (tipoEntrada mascara : string) (numeroHosts : valor),
     validarEntradaCompleta "0.0.0.0" tipoEntrada mascara numeroHosts
     = Val {| esValido := false;
              mensaje := Some "La dirección 0.0.0.0 no es válida para cálculos de subred." |}).
Proof.
  split.
  - intros ip tipoEntrada mascara numeroHosts Hip.
    assert (Hm : exists m, obtenerMensajeError "ip" (VStr ip) = Val m).
    { unfold obtenerMensajeError. cbn [String.eqb Ascii.eqb Bool.eqb estaVacio JS.bind].
      repeat match goal with |- context [if ?b then _ else _] => destruct b end; eauto. }
    destruct Hm as [m Hm]. exists m. split; [assumption |].
    unfold validarEntradaCompleta. rewrite Hip. cbn [JS.bind negb]. now rewrite Hm.
  - intros tipoEntrada mascara numeroHosts. reflexivity.
Qed.

Lemma C6_validarEntradaCompleta_witness :
  exists m : string,
    obtenerMensajeError "ip" (VStr "300.1.1.1") = Val m /\
    validarEntradaCompleta "300.1.1.1" "hosts" "" (VNum 20000000)
    = Val {| esValido := false; mensaje := Some m |}.
Proof.
  apply (proj1 C6_validarEntradaCompleta "300.1.1.1" "hosts" "" (VNum 20000000)).
  reflexivity.
Defined.




(** C8. For well-formed dotted decimals [ip] and [mascara], the network
    address that [calcularIpRed] gives, the address of [ip & mascara],
    lies in its own subnet: [ipEstaEnSubred] applied to it, to itself as
    network address and to the mask answers true.  [ipEstaEnSubred]
    tests whether the address masked with the mask is the network
    address it is given. *)
Theorem C8_red_en_su_subred (ip mascara : string) :
  test ipRegex ip = true -> test ipRegex mascara = true ->
  let maskInt := Spec.addressToInteger mascara in
  let red := Spec.integerToAddress (Z.land (Spec.addressToInteger ip) maskInt) in
  calcularIpRed ip mascara = Val red /\
  ipEstaEnSubred red red mascara = Val true /\
  (forall x ipRed : string,
     test ipRegex x = true -> test ipRegex ipRed = true ->
     ipEstaEnSubred x ipRed mascara
     = Val (Z.land (Spec.addressToInteger x) maskInt =? Spec.addressToInteger ipRed)).
Proof.
  intros Hip Hm maskInt red.
  assert (Ha : direccion ip (Spec.addressToInteger ip)) by (now split).
  assert (Hb : direccion mascara maskInt) by (now split).
  pose proof (direccion_rango _ _ Ha) as Ra. pose proof (direccion_rango _ _ Hb) as Rm.
  pose proof (land_u32 _ _ Ra Rm) as Rn.
  assert (Hred : direccion red (Z.land (Spec.addressToInteger ip) maskInt))
    by (now apply integerToAddress_direccion).
  split; [now apply calcularIpRed_spec |]. split.
  - rewrite (Rango.ipEstaEnSubred_spec red red mascara _ _ _ Hred Hred Hb).
    f_equal. apply Z.eqb_eq. now rewrite <- Z.land_assoc, Z.land_diag.
  - intros x ipRed Hx Hr.
    apply Rango.ipEstaEnSubred_spec; [now split | now split | exact Hb].
Qed.

Lemma C8_red_en_su_subred_witness :
  calcularIpRed "192.168.1.100" "255.255.255.192" = Val "192.168.1.64" /\
  ipEstaEnSubred "192.168.1.64" "192.168.1.64" "255.255.255.192" = Val true /\
  ipEstaEnSubred "192.168.1.130" "192.168.1.64" "255.255.255.192" = Val false.
Proof.
  destruct (C8_red_en_su_subred "192.168.1.100" "255.255.255.192" eq_refl eq_refl)
    as (Hred & Hen & Hprueba).
  split; [exact Hred |]. split; [exact Hen |].
  rewrite (Hprueba "192.168.1.130" "192.168.1.64" eq_refl eq_refl). reflexivity.
Defined.

(** C9. For an array of host requirements from which masks can be built
    (every validated host count is one), [optimizarSubredes] returns as
    many entries as there are requirements, in descending order
    of required hosts, equal requirements in their input order; every
    entry reports the mask that [calcularMascaraDesdeHosts] derives for its
    requirement, the hosts available under that mask, and, for a
    requirement of at least one host, the required hosts as a percentage
    of the available ones: the exact quotient times one hundred, rounded
    to the nearest hundredth and printed with two decimals
    ([Spec.eficienciaDe]; the code computes it in binary64); the array
    passed in, and every other array of the store, is left as it was. *)
Theorem C9_optimizarSubredes
    (listaHosts : Arreglos.ref) (m : Arreglos.memoria) (requisitos : list Z) :
  m !! listaHosts = Some requisitos ->
  Forall (fun h => -1 <= h <= 2 ^ 32 - 2) requisitos ->
  exists (salida : list subredOptimizada) (m' : Arreglos.memoria),
    optimizarSubredes listaHosts m = Val (salida, m') /\
    List.length salida = List.length requisitos /\
    Permutation (map hostsRequeridos salida) requisitos /\
    StronglySorted Z.ge (map hostsRequeridos salida) /\
    (exists ps : list (Z * Z),
       map fst ps = map hostsRequeridos salida /\
       Permutation ps (Spec.etiquetar 0 requisitos) /\
       StronglySorted (Spec.antes fst snd) ps) /\
    map indice salida = indices (Z.of_nat (List.length requisitos)) /\
    Forall Spec.entradaCorrecta salida /\
    Forall (fun e => 1 <= hostsRequeridos e ->
                     eficiencia e
                     = Val (Spec.eficienciaDe (hostsRequeridos e) (hostsDisponibles e)))
           salida /\
    m' !! listaHosts = Some requisitos /\
    (forall r, is_Some (m !! r) -> m' !! r = m !! r).
Proof.
  intros Hm Hval.
  set (s := Arreglos.ordenar (fun a b => b - a) requisitos).
  destruct (Orden.ordenar_descendente requisitos) as (Hperm & Hsort & ps & Hps).
  fold s in Hperm, Hsort, Hps.
  assert (Hvs : Forall Optimizar.admisible s).
  { eapply Permutation_Forall; [symmetry; exact Hperm | exact Hval]. }
  set (r := fresh (dom m)).
  assert (Hfresh : forall r', is_Some (m !! r') -> r <> r').
  { intros r' Hr' Heq. apply elem_of_dom in Hr'.
    apply (is_fresh (dom m)). fold r. now rewrite Heq. }
  exists (Optimizar.entradas 0 s), (<[r := s]> (<[r := requisitos]> m)).
  split.
  { unfold optimizarSubredes. rewrite Hm. cbn [JS.bind de_opcion].
    unfold Arreglos.nuevoArreglo. fold r. unfold Arreglos.sort.
    rewrite lookup_insert_eq. cbn [JS.bind de_opcion]. fold s.
    rewrite lookup_insert_eq. cbn [JS.bind de_opcion].
    now rewrite (Optimizar.forEach_valido s 0 Hvs). }
  rewrite Optimizar.entradas_length, Optimizar.entradas_hosts.
  split; [apply Permutation_length, Hperm |].
  split; [assumption |]. split; [assumption |]. split; [exists ps; exact Hps |].
  split.
  { rewrite Optimizar.entradas_indice. unfold indices.
    rewrite (Permutation_length Hperm), Nat2Z.id. apply map_ext. intros i. lia. }
  pose proof (Optimizar.entradas_correctas 0 s Hvs) as Hcorrectas.
  split; [exact Hcorrectas |].
  split.
  { eapply Forall_impl; [| exact Hcorrectas].
    intros e (_ & _ & _ & _ & He & _). exact He. }
  assert (Hotros : forall r', is_Some (m !! r') ->
            <[r := s]> (<[r := requisitos]> m) !! r' = m !! r').
  { intros r' Hr'. pose proof (Hfresh r' Hr') as Hne.
    now rewrite !lookup_insert_ne by assumption. }
  split; [| exact Hotros].
  rewrite Hotros by (rewrite Hm; eauto). exact Hm.
Qed.

Lemma C9_optimizarSubredes_witness :
  exists (salida : list subredOptimizada) (m' : gmap nat (list Z)),
    optimizarSubredes 0%nat (<[0%nat := [50; 200; 10; 50]]> ∅) = Val (salida, m') /\
    map hostsRequeridos salida = [200; 50; 50; 10] /\
    map mascara salida
    = ["255.255.255.0"; "255.255.255.192"; "255.255.255.192"; "255.255.255.240"] /\
    map hostsDisponibles salida = [254; 62; 62; 14] /\
    map eficiencia salida = [Val "78.74%"; Val "80.65%"; Val "80.65%"; Val "71.43%"] /\
    map (fun e => Spec.eficienciaDe (hostsRequeridos e) (hostsDisponibles e)) salida
    = ["78.74%"; "80.65%"; "80.65%"; "71.43%"] /\
    m' !! 0%nat = Some [50; 200; 10; 50].
Proof.
  set (m := <[0%nat := [50; 200; 10; 50]]> ∅ : gmap nat (list Z)).
  assert (H0 : m !! 0%nat = Some [50; 200; 10; 50]) by (vm_compute; reflexivity).
  assert (Hv : Forall (fun h => -1 <= h <= 2 ^ 32 - 2) [50; 200; 10; 50])
    by (repeat (apply Forall_cons; [lia |]); apply Forall_nil).
  destruct (C9_optimizarSubredes 0%nat m [50; 200; 10; 50] H0 Hv)
    as (salida & m' & Hr & _ & _ & _ & _ & _ & _ & _ & Hm' & _).
  exists salida, m'. split; [exact Hr |].
  assert (Hs : Val salida = Val (Optimizar.entradas 0 [200; 50; 50; 10])).
  { transitivity (let* sm := optimizarSubredes 0%nat m in Val (fst sm)).
    - now rewrite Hr.
    - vm_compute. reflexivity. }
  injection Hs as ->.
  repeat split; try exact Hm'; vm_compute; reflexivity.
Defined.

(** C10. Every mask that [esMascaraSubredValida] accepts has a prefix
    length between 1 and 31 (0.0.0.0 and 255.255.255.255 do not pass the
    address check), so [calcularHostsDesdeMascara] is never negative on a
    validated mask and every record built from validated input, in either
    mode, passes the [totalHosts >= 0] check of [esValido].  From a
    validated address and a validated mask a record is always built;
    from a validated address and a host count, for every count in
    1..16777214.  The number 10^21 passes the host check as well, but
    no record is built from it: [calcularDesdeHosts] throws. *)
Theorem C10_mascara_validada :
  (forall mascara : string,
     esMascaraSubredValida mascara = Val true ->
     exists p : Z,
       1 <= p <= 31 /\
       Spec.addressToInteger mascara = Spec.maskFromPrefix p /\
       Spec.prefixLength (Spec.addressToInteger mascara) = p /\
       calcularHostsDesdeMascara mascara = Val (2 ^ (32 - p) - 2) /\
       0 <= 2 ^ (32 - p) - 2 /\
       forall ip : string,
         esDireccionIPValida ip = Val true ->
         exists r, calcularDesdeMascara ip mascara = Val r /\
                   0 <= ResultadoIp.totalHosts r /\
                   ResultadoIp.esValido r = true) /\
  (forall (ip : string) (hosts : Z) (r : ResultadoIp.t),
     esDireccionIPValida ip = Val true ->
     esNumeroHostsValido (VNum hosts) = Val true ->
     calcularDesdeHosts ip hosts = Val r ->
     0 <= ResultadoIp.totalHosts r /\ ResultadoIp.esValido r = true) /\
  (forall (ip : string) (hosts : Z),
     esDireccionIPValida ip = Val true ->
     1 <= hosts <= 16777214 ->
     esNumeroHostsValido (VNum hosts) = Val true /\
     exists r, calcularDesdeHosts ip hosts = Val r) /\
  (forall ip : string,
     esNumeroHostsValido (VNum (10 ^ 21)) = Val true /\
     calcularDesdeHosts ip (10 ^ 21) = Exc RangeError) /\
  esMascaraSubredValida "0.0.0.0" = Val false /\
  esMascaraSubredValida "255.255.255.255" = Val false.
Proof.
  assert (Hhosts : forall (ip : string) (hosts : Z),
     esDireccionIPValida ip = Val true -> 1 <= hosts <= 16777214 ->
     exists r, calcularDesdeHosts ip hosts = Val r /\
               0 <= ResultadoIp.totalHosts r /\ ResultadoIp.esValido r = true).
  { intros ip hosts Hip Hh.
    apply esDireccionIPValida_spec in Hip as (a & Ha & _ & _).
    destruct (Construida.log2_up_hosts hosts Hh) as [Hk _].
    set (k := Z.log2_up (hosts + 2)) in *.
    pose proof (Construida.direccion_mascara (32 - k) ltac:(lia)) as Hd.
    destruct (esValido_completa ip _ a (32 - k) Ha Hd ltac:(lia)) as (r & Hr & Ht & Hv).
    exists r. unfold calcularDesdeHosts, calcularSubredPorHosts.
    rewrite Construida.calcularMascaraDesdeHosts_spec by lia. cbn [JS.bind].
    fold k. rewrite Ht.
    assert (Hpow : 2 ^ 1 <= 2 ^ (32 - (32 - k))) by (apply Z.pow_le_mono_r; lia).
    repeat split; [assumption | lia | assumption]. }
  split; [| split; [| split; [| split; [| split; reflexivity]]]].
  4:{ intros ip. split; [reflexivity |].
      unfold calcularDesdeHosts, calcularSubredPorHosts.
      now replace (calcularMascaraDesdeHosts (10 ^ 21)) with (@Exc string RangeError)
        by (vm_compute; reflexivity). }
  - intros mascara Hm. apply mascara_valida_prefijo in Hm as (p & Hp & Hd).
    exists p. pose proof Hd as [_ Hu]. rewrite Hu.
    assert (Hpow : 2 ^ 1 <= 2 ^ (32 - p)) by (apply Z.pow_le_mono_r; lia).
    split; [assumption |]. split; [reflexivity |].
    split; [apply prefixLength_maskFromPrefix; lia |].
    split; [apply calcularHostsDesdeMascara_prefijo; [lia | assumption] |].
    split; [lia |].
    intros ip Hip. apply esDireccionIPValida_spec in Hip as (a & Ha & _ & _).
    destruct (esValido_completa ip mascara a p Ha Hd Hp) as (r & Hr & Ht & Hv).
    exists r. unfold calcularDesdeMascara. rewrite Ht. repeat split; [assumption | lia | assumption].
  - intros ip hosts r Hip Hv Hr.
    assert (Hgrande : forall n : Z,
              calcularMascaraDesdeHosts n = Exc RangeError ->
              calcularDesdeHosts ip n <> Val r).
    { intros n Hn. unfold calcularDesdeHosts, calcularSubredPorHosts.
      rewrite Hn. discriminate. }
    destruct (Z.leb_spec (Z.abs hosts) MAX_SAFE_INTEGER) as [Hs|Hs].
    + apply (Mensajes.numero_hosts_valido hosts Hs) in Hv.
      destruct (Hhosts ip hosts Hip Hv) as (r' & Hr' & Hok).
      rewrite Hr in Hr'. injection Hr' as <-. exact Hok.
    + exfalso. unfold esNumeroHostsValido, aCadena in Hv.
      destruct (Z.leb_spec (Z.abs hosts) MAX_SAFE_INTEGER) as [Hc|_]; [lia |].
      destruct (Z.eqb_spec hosts (10 ^ 21)) as [->|_].
      { apply (Hgrande (10 ^ 21)); [vm_compute; reflexivity | exact Hr]. }
      destruct (Z.eqb_spec hosts (10 ^ 22)) as [->|_].
      { apply (Hgrande (10 ^ 22)); [vm_compute; reflexivity | exact Hr]. }
      discriminate Hv.
  - intros ip hosts Hip Hh. split.
    + apply Mensajes.numero_hosts_valido; [unfold MAX_SAFE_INTEGER; lia | exact Hh].
    + destruct (Hhosts ip hosts Hip Hh) as (r & Hr & _). eauto.
Qed.

Lemma C10_mascara_validada_witness :
  (exists p : Z,
     1 <= p <= 31 /\
     Spec.addressToInteger "255.255.255.254" = Spec.maskFromPrefix p /\
     calcularHostsDesdeMascara "255.255.255.254" = Val (2 ^ (32 - p) - 2) /\
     0 <= 2 ^ (32 - p) - 2) /\
  (exists r : ResultadoIp.t,
     calcularDesdeHosts "192.168.1.100" 50 = Val r /\
     0 <= ResultadoIp.totalHosts r /\ ResultadoIp.esValido r = true).
Proof.
  split.
  - assert (Hm : esMascaraSubredValida "255.255.255.254" = Val true) by reflexivity.
    destruct (proj1 C10_mascara_validada "255.255.255.254" Hm)
      as (p & Hp & Hu & _ & Hh & H0 & _).
    exists p. repeat split; (lia || assumption).
  - destruct (proj1 (proj2 (proj2 C10_mascara_validada)) "192.168.1.100" 50
                eq_refl ltac:(lia)) as [Hv [r Hr]].
    exists r. split; [exact Hr |].
    exact (proj1 (proj2 C10_mascara_validada) "192.168.1.100" 50 r eq_refl Hv Hr).
Defined.

End Propiedades.
(* ================================================================== *)
(** * Further properties of the code *)

Section Cobertura.

Import Int32Facts Regex RegexFacts Exhaustivo Forma Direccion ValidadorFacts.
Import Binario Mascara Completa Construida Dividir Canonica Rango Mosaico Prefijos.
Import Mensajes Envio Clases Aceptadas Optimizado Bits Recorte.
Import GestorInterfaz AplicacionCalculadoraIP.
Import Validador CalculadoraSubredes.

(** X1. [ipANumero] reads a well-formed string as a signed 32-bit
    number: the big-endian value of its four octets when the first
    octet is below 128, and that value minus 2^32, a negative number,
    from 128 on. *)
Theorem X1_ipANumero_con_signo (s : string) :
  test ipRegex s = true ->
  exists o0 o1 o2 o3 : Z,
    octetosDe s = Val [o0; o1; o2; o3] /\
    0 <= o0 <= 255 /\ 0 <= o1 <= 255 /\ 0 <= o2 <= 255 /\ 0 <= o3 <= 255 /\
    ipANumero s
    = Val (Spec.empaquetar o0 o1 o2 o3 - (if o0 <? 128 then 0 else 2 ^ 32)) /\
    (forall n, ipANumero s = Val n -> (n < 0 <-> 128 <= o0)).
Proof.
  intros H.
  apply bien_formada_octetos in H as (o0 & o1 & o2 & o3 & Ho & _ & H0 & H1 & H2 & H3).
  exists o0, o1, o2, o3. split; [exact Ho |]. do 4 (split; [assumption |]).
  assert (E : ipANumero s
              = Val (Spec.empaquetar o0 o1 o2 o3 - (if o0 <? 128 then 0 else 2 ^ 32))).
  { rewrite (ipANumero_octetos _ _ _ _ _ Ho H0 H1 H2 H3). f_equal.
    unfold Spec.empaquetar. destruct (Z.ltb_spec o0 128); mod32. }
  split; [exact E |]. intros n Hn. rewrite E in Hn. injection Hn as <-.
  unfold Spec.empaquetar. destruct (Z.ltb_spec o0 128); lia.
Qed.

Lemma X1_ipANumero_con_signo_witness :
  exists o0 o1 o2 o3 : Z,
    octetosDe "192.168.1.1" = Val [o0; o1; o2; o3] /\
    0 <= o0 <= 255 /\ 0 <= o1 <= 255 /\ 0 <= o2 <= 255 /\ 0 <= o3 <= 255 /\
    ipANumero "192.168.1.1"
    = Val (Spec.empaquetar o0 o1 o2 o3 - (if o0 <? 128 then 0 else 2 ^ 32)) /\
    (forall n, ipANumero "192.168.1.1" = Val n -> (n < 0 <-> 128 <= o0)).
Proof.
  apply (X1_ipANumero_con_signo "192.168.1.1"). reflexivity.
Defined.

(** X2. [numeroAIp] answers on every integer, negative or beyond 32 bits:
    the result is always a well-formed dotted decimal without leading
    zeros that denotes the integer modulo 2^32; [ipANumero] reads it back
    as the signed 32-bit reading of the integer; and two integers print
    the same exactly when they agree modulo 2^32. *)
Theorem X2_numeroAIp_todo_entero (n : Z) :
  test ipRegex (numeroAIp n) = true /\
  Spec.canonica (numeroAIp n) = true /\
  Spec.addressToInteger (numeroAIp n) = n mod 2 ^ 32 /\
  ipANumero (numeroAIp n) = Val (Int32.ToInt32 n) /\
  (forall m : Z, numeroAIp m = numeroAIp n <-> m mod 2 ^ 32 = n mod 2 ^ 32).
Proof.
  assert (Hd : forall k, direccion (numeroAIp k) (k mod 2 ^ 32)).
  { intros k. rewrite numeroAIp_spec. apply integerToAddress_direccion.
    apply Z.mod_pos_bound. lia. }
  split; [apply (Hd n) |].
  split; [rewrite numeroAIp_spec; apply integerToAddress_es_canonica |].
  split; [apply (Hd n) |].
  split; [apply ipANumero_numeroAIp |].
  intros m. split.
  - intros H. destruct (Hd m) as [_ <-]. destruct (Hd n) as [_ <-]. now rewrite H.
  - intros H. now rewrite !numeroAIp_spec, H.
Qed.

(** X3. First and last host are computed modulo 2^32, with no check:
    the first host of 255.255.255.255 is 0.0.0.0 and the last host of
    0.0.0.0 is 255.255.255.255.  On every well-formed string the two
    operations undo each other, up to the leading zeros of the input. *)
Theorem X3_hosts_modulo (s : string) :
  test ipRegex s = true ->
  let u := Spec.addressToInteger s in
  calcularPrimerHost s = Val (Spec.integerToAddress ((u + 1) mod 2 ^ 32)) /\
  calcularUltimoHost s = Val (Spec.integerToAddress ((u - 1) mod 2 ^ 32)) /\
  (let* x := calcularPrimerHost s in calcularUltimoHost x)
  = Val (Spec.integerToAddress u) /\
  (let* x := calcularUltimoHost s in calcularPrimerHost x)
  = Val (Spec.integerToAddress u) /\
  (u = 2 ^ 32 - 1 -> calcularPrimerHost s = Val "0.0.0.0") /\
  (u = 0 -> calcularUltimoHost s = Val "255.255.255.255").
Proof.
  intros H u. assert (Hd : direccion s u) by (now split).
  pose proof (direccion_rango _ _ Hd) as Hu.
  assert (Hm : forall k, direccion (Spec.integerToAddress (k mod 2 ^ 32)) (k mod 2 ^ 32)).
  { intros k. apply integerToAddress_direccion. apply Z.mod_pos_bound. lia. }
  rewrite (calcularPrimerHost_mod _ _ Hd), (calcularUltimoHost_mod _ _ Hd).
  split; [reflexivity |]. split; [reflexivity |]. cbn [JS.bind].
  rewrite (calcularUltimoHost_mod _ _ (Hm (u + 1))).
  rewrite (calcularPrimerHost_mod _ _ (Hm (u - 1))).
  split; [do 2 f_equal; Z.div_mod_to_equations; lia |].
  split; [do 2 f_equal; Z.div_mod_to_equations; lia |].
  split; intros ->; reflexivity.
Qed.

Lemma X3_hosts_modulo_witness :
  calcularPrimerHost "255.255.255.255" = Val "0.0.0.0" /\
  calcularUltimoHost "0.0.0.0" = Val "255.255.255.255".
Proof.
  split.
  - apply (X3_hosts_modulo "255.255.255.255" eq_refl). reflexivity.
  - apply (X3_hosts_modulo "0.0.0.0" eq_refl). reflexivity.
Defined.

Ltac campos :=
  cbn [ResultadoIp.networkIP ResultadoIp.subnetMask ResultadoIp.broadcastIP
       ResultadoIp.firstHostIP ResultadoIp.lastHostIP ResultadoIp.gatewayIP
       ResultadoIp.totalHosts] in *.

(** X4. On validated input the record of [calcularSubredCompleta]
    describes one aligned block of [2^(32 - p)] addresses, [p] being the
    prefix length of the mask: the network address is a multiple of the
    block size, the broadcast address is the last of the block, the input
    address lies between the two, and the host count is the number of
    addresses from the first to the last host.  Up to /30 the hosts lie
    strictly between network and broadcast; for a /31 mask the record
    reports no host, and its first host is the broadcast address and its
    last host the network address. *)
Theorem X4_rango_de_hosts (ip mascara : string) :
  esDireccionIPValida ip = Val true ->
  esMascaraSubredValida mascara = Val true ->
  exists (r : ResultadoIp.t) (p : Z),
    calcularSubredCompleta ip mascara = Val r /\
    1 <= p <= 31 /\
    Spec.addressToInteger mascara = Spec.maskFromPrefix p /\
    let N := Spec.addressToInteger (ResultadoIp.networkIP r) in
    let B := Spec.addressToInteger (ResultadoIp.broadcastIP r) in
    let F := Spec.addressToInteger (ResultadoIp.firstHostIP r) in
    let L := Spec.addressToInteger (ResultadoIp.lastHostIP r) in
    N mod 2 ^ (32 - p) = 0 /\
    B = N + 2 ^ (32 - p) - 1 /\
    F = N + 1 /\ L = B - 1 /\
    L - F + 1 = ResultadoIp.totalHosts r /\
    N <= Spec.addressToInteger ip <= B /\
    (p <= 30 -> N < F /\ F <= L /\ L < B) /\
    (p = 31 -> ResultadoIp.totalHosts r = 0 /\ F = B /\ L = N).
Proof.
  intros Hip Hm.
  apply esDireccionIPValida_spec in Hip as (a & Ha & _ & _).
  apply mascara_valida_prefijo in Hm as (p & Hp & Hmd).
  pose proof (direccion_rango _ _ Ha) as Ra.
  destruct (subred_enteros a p Ra Hp) as (H0 & Hmod & Hd & Hlt & Hin & H2).
  eexists. exists p.
  split; [apply (completa_prefijo ip mascara a p Ha Hmd Hp) |].
  split; [lia |]. split; [apply Hmd |]. campos.
  destruct Ha as [_ ->].
  set (m := Spec.maskFromPrefix p) in *.
  rewrite !enteroDe_impresa by lia.
  split; [exact Hmod |]. split; [exact Hd |].
  split; [reflexivity |]. split; [reflexivity |].
  split; [lia |]. split; [lia |]. split.
  - intros Hle. assert (2 ^ 2 <= 2 ^ (32 - p)) by (apply Z.pow_le_mono_r; lia). lia.
  - intros ->. change (2 ^ (32 - 31)) with 2 in *. lia.
Qed.

Lemma X4_rango_de_hosts_witness :
  exists (r : ResultadoIp.t) (p : Z),
    calcularSubredCompleta "10.1.2.3" "255.255.255.254" = Val r /\
    1 <= p <= 31 /\
    Spec.addressToInteger "255.255.255.254" = Spec.maskFromPrefix p /\
    let N := Spec.addressToInteger (ResultadoIp.networkIP r) in
    let B := Spec.addressToInteger (ResultadoIp.broadcastIP r) in
    let F := Spec.addressToInteger (ResultadoIp.firstHostIP r) in
    let L := Spec.addressToInteger (ResultadoIp.lastHostIP r) in
    N mod 2 ^ (32 - p) = 0 /\
    B = N + 2 ^ (32 - p) - 1 /\
    F = N + 1 /\ L = B - 1 /\
    L - F + 1 = ResultadoIp.totalHosts r /\
    N <= Spec.addressToInteger "10.1.2.3" <= B /\
    (p <= 30 -> N < F /\ F <= L /\ L < B) /\
    (p = 31 -> ResultadoIp.totalHosts r = 0 /\ F = B /\ L = N).
Proof.
  apply (X4_rango_de_hosts "10.1.2.3" "255.255.255.254"); reflexivity.
Defined.

(** X5. Under a validated mask, [ipEstaEnSubred] against the network
    address of a computed record is the range test: it answers on every
    well-formed address, and answers true exactly when the address lies
    between the network and the broadcast address of the record.  The
    input address, the broadcast address and both host ends of the record
    are inside. *)
Theorem X5_pertenencia_es_rango (ip mascara x : string) :
  esDireccionIPValida ip = Val true ->
  esMascaraSubredValida mascara = Val true ->
  test ipRegex x = true ->
  exists (r : ResultadoIp.t) (b : bool),
    calcularSubredCompleta ip mascara = Val r /\
    ipEstaEnSubred x (ResultadoIp.networkIP r) mascara = Val b /\
    (b = true <->
     Spec.addressToInteger (ResultadoIp.networkIP r) <= Spec.addressToInteger x
     <= Spec.addressToInteger (ResultadoIp.broadcastIP r)) /\
    ipEstaEnSubred ip (ResultadoIp.networkIP r) mascara = Val true /\
    ipEstaEnSubred (ResultadoIp.broadcastIP r) (ResultadoIp.networkIP r) mascara
    = Val true /\
    ipEstaEnSubred (ResultadoIp.firstHostIP r) (ResultadoIp.networkIP r) mascara
    = Val true /\
    ipEstaEnSubred (ResultadoIp.lastHostIP r) (ResultadoIp.networkIP r) mascara
    = Val true.
Proof.
  intros Hip Hm Hx.
  apply esDireccionIPValida_spec in Hip as (a & Ha & _ & _).
  apply mascara_valida_prefijo in Hm as (p & Hp & Hmd).
  pose proof (direccion_rango _ _ Ha) as Ra.
  destruct (subred_enteros a p Ra Hp) as (H0 & Hmod & Hd & Hlt & Hin & H2).
  set (m := Spec.maskFromPrefix p) in *.
  assert (Hen : forall y yu, direccion y yu ->
            ipEstaEnSubred y (Spec.integerToAddress (red a m)) mascara
            = Val ((red a m <=? yu) && (yu <=? difusion a m))).
  { intros y yu Hy. now apply ipEstaEnSubred_rango. }
  assert (Hsi : forall yu, red a m <= yu <= difusion a m ->
            ipEstaEnSubred (Spec.integerToAddress yu)
              (Spec.integerToAddress (red a m)) mascara = Val true).
  { intros yu Hyu.
    rewrite (Hen _ yu) by (apply integerToAddress_direccion; lia).
    f_equal. apply andb_true_iff. split; apply Z.leb_le; lia. }
  eexists. eexists.
  split; [apply (completa_prefijo ip mascara a p Ha Hmd Hp) |]. campos. fold m.
  split; [apply (Hen x (Spec.addressToInteger x)); now split |].
  rewrite !enteroDe_impresa by lia.
  split; [rewrite andb_true_iff, !Z.leb_le; reflexivity |].
  split.
  { rewrite (Hen _ _ Ha). f_equal. apply andb_true_iff. split; apply Z.leb_le; lia. }
  repeat split; apply Hsi; lia.
Qed.

Lemma X5_pertenencia_es_rango_witness :
  exists (r : ResultadoIp.t) (b : bool),
    calcularSubredCompleta "192.168.1.100" "255.255.255.192" = Val r /\
    ipEstaEnSubred "192.168.1.130" (ResultadoIp.networkIP r) "255.255.255.192"
    = Val b /\
    (b = true <->
     Spec.addressToInteger (ResultadoIp.networkIP r)
     <= Spec.addressToInteger "192.168.1.130"
     <= Spec.addressToInteger (ResultadoIp.broadcastIP r)).
Proof.
  destruct (X5_pertenencia_es_rango "192.168.1.100" "255.255.255.192" "192.168.1.130"
              eq_refl eq_refl eq_refl) as (r & b & Hr & Hb & Hiff & _).
  exists r, b. auto.
Defined.

(** X6. Under a validated mask every address of a subnet leads to the
    same record: [calcularSubredCompleta] on a well-formed address gives
    the record of [ip] exactly when [ipEstaEnSubred] places the address
    in the network of that record; in particular the calculation is
    unchanged when it is repeated from its own network or broadcast
    address. *)
Theorem X6_misma_subred (ip mascara x : string) :
  esDireccionIPValida ip = Val true ->
  esMascaraSubredValida mascara = Val true ->
  test ipRegex x = true ->
  exists r : ResultadoIp.t,
    calcularSubredCompleta ip mascara = Val r /\
    (calcularSubredCompleta x mascara = Val r <->
     ipEstaEnSubred x (ResultadoIp.networkIP r) mascara = Val true) /\
    calcularSubredCompleta (ResultadoIp.networkIP r) mascara = Val r /\
    calcularSubredCompleta (ResultadoIp.broadcastIP r) mascara = Val r.
Proof.
  intros Hip Hm Hx.
  apply esDireccionIPValida_spec in Hip as (a & Ha & _ & _).
  apply mascara_valida_prefijo in Hm as (p & Hp & Hmd).
  pose proof (direccion_rango _ _ Ha) as Ra.
  destruct (subred_enteros a p Ra Hp) as (H0 & Hmod & Hd & Hlt & Hin & H2).
  pose proof (maskFromPrefix_rango p ltac:(lia)) as Rm.
  set (m := Spec.maskFromPrefix p) in *.
  assert (Higual : forall y yu, direccion y yu ->
            (calcularSubredCompleta y mascara
             = calcularSubredCompleta ip mascara <-> Z.land yu m = red a m)).
  { intros y yu Hy. pose proof (direccion_rango _ _ Hy) as Ry.
    rewrite (completa_prefijo y mascara yu p Hy Hmd Hp).
    rewrite (completa_prefijo ip mascara a p Ha Hmd Hp). fold m. split.
    - intros H. injection H as H _. apply (f_equal Spec.addressToInteger) in H.
      pose proof (land_u32 yu m Ry Rm). unfold red in H at 1.
      rewrite !enteroDe_impresa in H by lia. exact H.
    - intros H. unfold difusion. fold (red yu m) in H. now rewrite H. }
  assert (Hmio : forall yu, red a m <= yu <= difusion a m -> Z.land yu m = red a m).
  { intros yu Hyu.
    apply (pertenece_rango yu (red a m) (32 - p)); [lia | lia | assumption | lia]. }
  exists (ResultadoIp.nuevo
            (Spec.integerToAddress (red a m)) mascara
            (Spec.integerToAddress (difusion a m))
            (Spec.integerToAddress (red a m + 1))
            (Spec.integerToAddress (difusion a m - 1))
            (Spec.integerToAddress (red a m + 1))
            (2 ^ (32 - p) - 2)).
  pose proof (completa_prefijo ip mascara a p Ha Hmd Hp) as Hr. fold m in Hr.
  split; [exact Hr |]. campos. rewrite <- Hr. split.
  - rewrite (Higual x (Spec.addressToInteger x)) by (now split).
    pose proof (ipEstaEnSubred_rango x mascara _ a p (conj Hx eq_refl) Hmd Ra Hp)
      as Hen.
    cbv zeta in Hen. fold m in Hen. rewrite Hen. clear Hen.
    pose proof (direccion_rango x _ (conj Hx eq_refl)) as Rx.
    pose proof (pertenece_rango _ (red a m) (32 - p) Rx ltac:(lia) Hmod) as Hiff.
    fold (Spec.maskFromPrefix p) in Hiff. fold m in Hiff. split.
    + intros He. apply Hiff in He. f_equal. apply andb_true_iff.
      split; apply Z.leb_le; lia.
    + intros H. injection H as H. apply andb_true_iff in H as [H1 H3].
      apply Z.leb_le in H1, H3. apply Hiff. lia.
  - split.
    + apply (Higual _ (red a m)); [apply integerToAddress_direccion; lia |].
      apply Hmio. lia.
    + apply (Higual _ (difusion a m)); [apply integerToAddress_direccion; lia |].
      apply Hmio. lia.
Qed.

Lemma X6_misma_subred_witness :
  exists r : ResultadoIp.t,
    calcularSubredCompleta "172.16.5.9" "255.255.240.0" = Val r /\
    calcularSubredCompleta "172.16.15.200" "255.255.240.0" = Val r.
Proof.
  destruct (X6_misma_subred "172.16.5.9" "255.255.240.0" "172.16.15.200"
              eq_refl eq_refl eq_refl) as (r & Hr & Hiff & _).
  exists r. split; [exact Hr |]. apply Hiff.
  vm_compute in Hr. injection Hr as <-. reflexivity.
Defined.

(** X7. On the network address of a computed record and its validated
    mask, [calcularSiguienteSubred] gives the address right after the
    broadcast address, modulo 2^32: after the last block of the address
    space it answers 0.0.0.0 without an error; otherwise the answer is a
    network address under the same mask (masking leaves it unchanged)
    that lies outside the record's subnet. *)
Theorem X7_siguiente_subred (ip mascara : string) :
  esDireccionIPValida ip = Val true ->
  esMascaraSubredValida mascara = Val true ->
  exists (r : ResultadoIp.t) (siguiente : string),
    calcularSubredCompleta ip mascara = Val r /\
    calcularSiguienteSubred (ResultadoIp.networkIP r) mascara = Val siguiente /\
    test ipRegex siguiente = true /\
    Spec.addressToInteger siguiente
    = (Spec.addressToInteger (ResultadoIp.broadcastIP r) + 1) mod 2 ^ 32 /\
    (Spec.addressToInteger (ResultadoIp.broadcastIP r) = 2 ^ 32 - 1 ->
     siguiente = "0.0.0.0") /\
    (Spec.addressToInteger (ResultadoIp.broadcastIP r) < 2 ^ 32 - 1 ->
     Spec.addressToInteger siguiente
     = Spec.addressToInteger (ResultadoIp.broadcastIP r) + 1 /\
     calcularIpRed siguiente mascara = Val siguiente /\
     ipEstaEnSubred siguiente (ResultadoIp.networkIP r) mascara = Val false).
Proof.
  intros Hip Hm.
  apply esDireccionIPValida_spec in Hip as (a & Ha & _ & _).
  apply mascara_valida_prefijo in Hm as (p & Hp & Hmd).
  pose proof (direccion_rango _ _ Ha) as Ra.
  destruct (subred_enteros a p Ra Hp) as (H0 & Hmod & Hd & Hlt & Hin & H2).
  pose proof (ipEstaEnSubred_rango) as Hen.
  specialize (fun y yu Hy => Hen y mascara yu a p Hy Hmd Ra Hp). cbv zeta in Hen.
  set (m := Spec.maskFromPrefix p) in *.
  set (N := red a m) in *. set (B := difusion a m) in *.
  assert (HN : direccion (Spec.integerToAddress N) N)
    by (apply integerToAddress_direccion; lia).
  assert (Hs : direccion (Spec.integerToAddress ((B + 1) mod 2 ^ 32)) ((B + 1) mod 2 ^ 32)).
  { apply integerToAddress_direccion. apply Z.mod_pos_bound. lia. }
  eexists. exists (Spec.integerToAddress ((B + 1) mod 2 ^ 32)).
  split; [apply (completa_prefijo ip mascara a p Ha Hmd Hp) |]. campos.
  fold m. fold N. fold B.
  split.
  { rewrite (calcularSiguienteSubred_spec _ _ _ _ HN Hmd). do 3 f_equal.
    unfold m, Spec.maskFromPrefix. lia. }
  split; [apply Hs |]. rewrite (enteroDe_impresa B) by lia.
  split; [apply Hs |]. split.
  { intros ->. reflexivity. }
  intros Hlast. rewrite Z.mod_small in * by lia.
  split; [apply Hs |]. split.
  - rewrite (calcularIpRed_spec _ _ _ _ Hs Hmd). do 2 f_equal.
    unfold Spec.maskFromPrefix. apply land_multiplo; [lia | lia |].
    replace (B + 1) with (N + 1 * 2 ^ (32 - p)) by lia.
    rewrite Z.mod_add by lia. exact Hmod.
  - rewrite (Hen _ _ Hs). f_equal. apply andb_false_iff. right. apply Z.leb_gt. lia.
Qed.

Lemma X7_siguiente_subred_witness :
  exists (r : ResultadoIp.t) (siguiente : string),
    calcularSubredCompleta "255.255.255.100" "255.255.255.0" = Val r /\
    calcularSiguienteSubred (ResultadoIp.networkIP r) "255.255.255.0"
    = Val siguiente /\
    siguiente = "0.0.0.0".
Proof.
  destruct (X7_siguiente_subred "255.255.255.100" "255.255.255.0" eq_refl eq_refl)
    as (r & siguiente & Hr & Hs & _ & _ & Hfin & _).
  exists r, siguiente. split; [exact Hr |]. split; [exact Hs |].
  apply Hfin. vm_compute in Hr. injection Hr as <-. reflexivity.
Defined.

(** X8. When [dividirEnSubredes] succeeds on validated input, its records
    tile the start of the parent network: every record is a valid
    record of [2^(32 - q) - 2] hosts, [q] being the new prefix length,
    it is what [calcularSubredCompleta] gives on its own network address
    and mask, and it lies inside the parent network; each record starts
    right after the broadcast address of the one before, at the address
    that [calcularSiguienteSubred] computes from it; and when the count
    is a power of two the last record ends at the broadcast address of
    the parent network. *)
Theorem X8_bloques_contiguos (ip mascara : string) (n : Z) :
  esDireccionIPValida ip = Val true ->
  esMascaraSubredValida mascara = Val true ->
  1 <= n ->
  Spec.prefixLength (Spec.addressToInteger mascara) + Z.log2_up n <= 30 ->
  let q := Spec.prefixLength (Spec.addressToInteger mascara) + Z.log2_up n in
  let A := Spec.addressToInteger in
  exists (rs : list ResultadoIp.t) (padre : ResultadoIp.t),
    dividirEnSubredes ip mascara n = Val rs /\
    calcularSubredCompleta ip mascara = Val padre /\
    (forall (i : nat) (r : ResultadoIp.t),
       nth_error rs i = Some r ->
       ResultadoIp.totalHosts r = 2 ^ (32 - q) - 2 /\
       ResultadoIp.esValido r = true /\
       calcularSubredCompleta (ResultadoIp.networkIP r) (ResultadoIp.subnetMask r)
       = Val r /\
       A (ResultadoIp.broadcastIP r) = A (ResultadoIp.networkIP r) + 2 ^ (32 - q) - 1 /\
       A (ResultadoIp.networkIP padre) <= A (ResultadoIp.networkIP r) /\
       A (ResultadoIp.broadcastIP r) <= A (ResultadoIp.broadcastIP padre)) /\
    (forall (i : nat) (r r' : ResultadoIp.t),
       nth_error rs i = Some r -> nth_error rs (S i) = Some r' ->
       A (ResultadoIp.broadcastIP r) + 1 = A (ResultadoIp.networkIP r') /\
       calcularSiguienteSubred (ResultadoIp.networkIP r) (ResultadoIp.subnetMask r)
       = Val (ResultadoIp.networkIP r')) /\
    (n = 2 ^ Z.log2_up n ->
     forall r : ResultadoIp.t,
       nth_error rs (Z.to_nat (n - 1)) = Some r ->
       A (ResultadoIp.broadcastIP r) = A (ResultadoIp.broadcastIP padre)).
Proof.
  intros Hip Hm Hn.
  apply esDireccionIPValida_spec in Hip as (a & Ha & _ & _).
  apply mascara_valida_prefijo in Hm as (p & Hp & Hmd).
  assert (Hpl : Spec.prefixLength (Spec.addressToInteger mascara) = p).
  { destruct Hmd as [_ ->]. apply prefixLength_maskFromPrefix. lia. }
  rewrite Hpl. intros Hq q A.
  pose proof (direccion_rango _ _ Ha) as Ra.
  pose proof (log2_up_techo n Hn) as [Hb Hnb].
  destruct (subred_enteros a p Ra Hp) as (H0 & Hmod & Hd & Hlt & Hin & H2).
  pose proof (dividirEnSubredes_bloques ip mascara a p n Ha Hmd Hp Hn Hq) as Hdiv.
  pose proof (bloque_enteros a p n) as Hblo.
  specialize (fun i => Hblo i Ra Hp Hn Hq).
  cbv zeta in Hdiv, Hblo. fold q in Hdiv, Hblo.
  set (mq := Spec.maskFromPrefix q) in *.
  set (base := red a (Spec.maskFromPrefix p)) in *.
  set (size := 2 ^ (32 - q)) in *.
  assert (Hmq : direccion (Spec.integerToAddress mq) mq)
    by (apply direccion_mascara; lia).
  assert (Hpropio : forall k, 0 <= k < n ->
            calcularSubredCompleta (Spec.integerToAddress (base + k * size))
              (Spec.integerToAddress mq) = Val (bloque q (base + k * size))).
  { intros k Hk. destruct (Hblo k Hk) as (B0 & B1 & B2 & B3 & Br & _).
    rewrite (completa_prefijo _ _ (base + k * size) q);
      [| apply integerToAddress_direccion; lia | exact Hmq | lia].
    unfold bloque. cbv zeta. fold mq. now rewrite Br. }
  assert (Hnth : forall (i : nat) r,
            nth_error (map (fun i => bloque q (base + i * size)) (indices n)) i = Some r ->
            0 <= Z.of_nat i < n /\ r = bloque q (base + Z.of_nat i * size)).
  { intros i r H. rewrite nth_error_map in H.
    destruct (nth_error (indices n) i) as [k|] eqn:E; [| discriminate H].
    apply indices_nth_nat in E as [-> Hk]. simpl in H. injection H as <-. auto. }
  eexists. eexists. split; [exact Hdiv |].
  split; [apply (completa_prefijo ip mascara a p Ha Hmd Hp) |]. campos.
  fold base. unfold A. rewrite !enteroDe_impresa by lia.
  split; [| split].
  - intros i r H. apply Hnth in H as [Hi ->].
    destruct (Hblo _ Hi) as (B0 & B1 & B2 & B3 & Br & Bd & Bs & _).
    split; [reflexivity |]. split.
    { destruct (esValido_completa (Spec.integerToAddress (base + Z.of_nat i * size))
                  (Spec.integerToAddress mq) (base + Z.of_nat i * size) q)
        as (r0 & Hr0 & _ & Hv);
        [apply integerToAddress_direccion; lia | exact Hmq | lia |].
      rewrite (Hpropio _ Hi) in Hr0. injection Hr0 as <-. exact Hv. }
    split; [apply (Hpropio _ Hi) |].
    unfold bloque. campos. fold mq. rewrite Bd.
    rewrite !enteroDe_impresa by lia. lia.
  - intros i r r' H H'. apply Hnth in H as [Hi ->]. apply Hnth in H' as [Hi' ->].
    destruct (Hblo _ Hi) as (B0 & B1 & B2 & B3 & Br & Bd & Bs & _).
    destruct (Hblo _ Hi') as (B0' & B1' & B2' & B3' & _).
    unfold bloque. campos. fold mq. rewrite Bd.
    rewrite !enteroDe_impresa by lia. split; [lia |].
    rewrite (calcularSiguienteSubred_spec _ _ (base + Z.of_nat i * size) mq);
      [| apply integerToAddress_direccion; lia | exact Hmq].
    do 2 f_equal. unfold mq at 1. unfold Spec.maskFromPrefix. fold size.
    rewrite Z.mod_small by lia. lia.
  - intros Hpot r H. apply Hnth in H as [Hi ->].
    destruct (Hblo _ Hi) as (B0 & B1 & B2 & B3 & Br & Bd & Bs & Bfin).
    unfold bloque. campos. fold mq. rewrite Bd.
    rewrite !enteroDe_impresa by lia.
    specialize (Bfin Hpot ltac:(lia)). lia.
Qed.

Lemma X8_bloques_contiguos_witness :
  exists (rs : list ResultadoIp.t) (padre : ResultadoIp.t),
    dividirEnSubredes "10.20.30.40" "255.255.0.0" 4 = Val rs /\
    calcularSubredCompleta "10.20.30.40" "255.255.0.0" = Val padre /\
    forall r : ResultadoIp.t,
      nth_error rs 3 = Some r ->
      Spec.addressToInteger (ResultadoIp.broadcastIP r)
      = Spec.addressToInteger (ResultadoIp.broadcastIP padre).
Proof.
  destruct (X8_bloques_contiguos "10.20.30.40" "255.255.0.0" 4
              eq_refl eq_refl ltac:(lia) ltac:(vm_compute; discriminate))
    as (rs & padre & Hrs & Hpadre & _ & _ & Hfin).
  exists rs, padre. split; [exact Hrs |]. split; [exact Hpadre |].
  apply Hfin. reflexivity.
Defined.

(** X9. For a validated address and host count, the mask that
    [calcularMascaraDesdeHosts] derives passes the mask check and has a
    prefix length between 8 and 30; [calcularDesdeHosts] gives the same
    record as [calcularDesdeMascara] with that mask; the record holds at
    least the hosts asked for and fewer than twice as many plus two; and
    no validated mask with room for the hosts gives a smaller subnet. *)
Theorem X9_mascara_ajustada (ip : string) (hosts : Z) :
  esDireccionIPValida ip = Val true ->
  1 <= hosts <= 16777214 ->
  exists (mascara : string) (r : ResultadoIp.t),
    calcularMascaraDesdeHosts hosts = Val mascara /\
    esMascaraSubredValida mascara = Val true /\
    8 <= Spec.prefixLength (Spec.addressToInteger mascara) <= 30 /\
    calcularDesdeHosts ip hosts = Val r /\
    calcularDesdeMascara ip mascara = Val r /\
    ResultadoIp.subnetMask r = mascara /\
    hosts <= ResultadoIp.totalHosts r < 2 * hosts + 2 /\
    (forall (otra : string) (h : Z),
       esMascaraSubredValida otra = Val true ->
       calcularHostsDesdeMascara otra = Val h ->
       hosts <= h -> ResultadoIp.totalHosts r <= h).
Proof.
  intros Hip Hh.
  apply esDireccionIPValida_spec in Hip as (a & Ha & _ & _).
  destruct (log2_up_hosts hosts Hh) as [Hk Hs].
  set (k := Z.log2_up (hosts + 2)) in *.
  pose proof (direccion_mascara (32 - k) ltac:(lia)) as Hd.
  pose proof (calcularMascaraDesdeHosts_spec hosts ltac:(lia)) as Hm. fold k in Hm.
  pose proof (completa_prefijo ip _ a (32 - k) Ha Hd ltac:(lia)) as Hr.
  cbv zeta in Hr.
  eexists. eexists. split; [exact Hm |].
  split; [apply (prefijo_mascara_valida _ (32 - k)); [lia | exact Hd] |].
  split.
  { destruct Hd as [_ ->]. rewrite prefixLength_maskFromPrefix by lia. lia. }
  split.
  { unfold calcularDesdeHosts, calcularSubredPorHosts. rewrite Hm. cbn [JS.bind].
    exact Hr. }
  split; [exact Hr |]. campos. split; [reflexivity |].
  replace (32 - (32 - k)) with k by lia.
  assert (Hdoble : 2 ^ k = 2 * 2 ^ (k - 1)).
  { rewrite <- Z.pow_succ_r by lia. f_equal. lia. }
  split; [lia |].
  intros otra h Ho Hho Hle.
  apply mascara_valida_prefijo in Ho as (p & Hp & Hpd).
  rewrite (calcularHostsDesdeMascara_prefijo _ p ltac:(lia) Hpd) in Hho.
  injection Hho as <-.
  assert (Hkp : k <= 32 - p).
  { destruct (Z_le_gt_dec k (32 - p)) as [Hc|Hc]; [exact Hc | exfalso].
    assert (2 ^ (32 - p) <= 2 ^ (k - 1)) by (apply Z.pow_le_mono_r; lia). lia. }
  assert (2 ^ k <= 2 ^ (32 - p)) by (apply Z.pow_le_mono_r; lia). lia.
Qed.

Lemma X9_mascara_ajustada_witness :
  exists (mascara : string) (r : ResultadoIp.t),
    calcularMascaraDesdeHosts 500 = Val mascara /\
    esMascaraSubredValida mascara = Val true /\
    calcularDesdeHosts "10.0.0.50" 500 = Val r /\
    500 <= ResultadoIp.totalHosts r < 2 * 500 + 2.
Proof.
  destruct (X9_mascara_ajustada "10.0.0.50" 500 eq_refl ltac:(lia))
    as (mascara & r & Hm & Hv & _ & Hr & _ & _ & Ht & _).
  exists mascara, r. auto.
Defined.

(** X10. Mask to host count and back: on a mask that passes the mask
    check, [calcularHostsDesdeMascara] gives a count, never negative, from
    which [calcularMascaraDesdeHosts] rebuilds the same mask, printed
    without leading zeros.  The host check would reject that count
    exactly for a /31 mask, which reports zero hosts, and for the masks
    shorter than /8, which report more than 16777214. *)
Theorem X10_mascara_hosts_mascara (mascara : string) :
  esMascaraSubredValida mascara = Val true ->
  exists h : Z,
    calcularHostsDesdeMascara mascara = Val h /\
    0 <= h /\
    h + 2 = 2 ^ (32 - Spec.prefixLength (Spec.addressToInteger mascara)) /\
    calcularMascaraDesdeHosts h
    = Val (Spec.integerToAddress (Spec.addressToInteger mascara)) /\
    (Spec.canonica mascara = true -> calcularMascaraDesdeHosts h = Val mascara) /\
    (esNumeroHostsValido (VNum h) = Val false <->
     Spec.prefixLength (Spec.addressToInteger mascara) = 31 \/
     Spec.prefixLength (Spec.addressToInteger mascara) < 8).
Proof.
  intros Hm. apply mascara_valida_prefijo in Hm as (p & Hp & Hd).
  pose proof Hd as [Hr He]. rewrite He, prefixLength_maskFromPrefix by lia.
  assert (H2 : 2 ^ 1 <= 2 ^ (32 - p)) by (apply Z.pow_le_mono_r; lia).
  exists (2 ^ (32 - p) - 2).
  split; [apply calcularHostsDesdeMascara_prefijo; [lia | exact Hd] |].
  split; [lia |]. split; [lia |].
  assert (Hv : calcularMascaraDesdeHosts (2 ^ (32 - p) - 2)
               = Val (Spec.integerToAddress (Spec.maskFromPrefix p))).
  { rewrite calcularMascaraDesdeHosts_potencia by lia. do 3 f_equal. lia. }
  split; [exact Hv |]. split.
  { intros Hc. rewrite Hv, <- He. f_equal. now apply integerToAddress_canonica. }
  assert (H31 : 2 ^ (32 - p) <= 2 ^ 31) by (apply Z.pow_le_mono_r; lia).
  rewrite numero_hosts_invalido by (unfold MAX_SAFE_INTEGER; lia).
  change 16777214 with (2 ^ 24 - 2). split.
  - intros Hn. destruct (Z.eq_dec p 31) as [->|Hne]; [now left | right].
    destruct (Z_lt_le_dec p 8) as [Hlt|Hge]; [exact Hlt | exfalso]. apply Hn.
    assert (2 ^ 2 <= 2 ^ (32 - p)) by (apply Z.pow_le_mono_r; lia).
    assert (2 ^ (32 - p) <= 2 ^ 24) by (apply Z.pow_le_mono_r; lia). lia.
  - intros [-> | Hlt] Hc.
    + change (2 ^ (32 - 31)) with 2 in Hc. lia.
    + assert (2 ^ 25 <= 2 ^ (32 - p)) by (apply Z.pow_le_mono_r; lia). lia.
Qed.

Lemma X10_mascara_hosts_mascara_witness :
  exists h : Z,
    calcularHostsDesdeMascara "255.255.255.254" = Val h /\
    h = 0 /\
    calcularMascaraDesdeHosts h = Val "255.255.255.254".
Proof.
  destruct (X10_mascara_hosts_mascara "255.255.255.254" eq_refl)
    as (h & Hh & _ & _ & _ & Hc & _).
  exists h. split; [exact Hh |].
  split; [| apply Hc; reflexivity].
  clear Hc. vm_compute in Hh. now injection Hh.
Defined.

Lemma unos_de_mascara (p : Z) :
  0 <= p <= 32 ->
  let u := Spec.maskFromPrefix p in
  Z.of_nat (List.length (List.filter (Ascii.eqb "1")
              (Str.chars (binarioDe [byte u 3; byte u 2; byte u 1; byte u 0])))) = p.
Proof.
  intros Hp u. rewrite binarioDe_expansion, contar_unos. unfold u.
  rewrite expansion32_maskFromPrefix_Z, unos_de_unosCeros by lia. lia.
Qed.

Lemma prefijo_enumerado (p : Z) :
  1 <= p <= 31 -> In p (map Z.of_nat (seq 1 31)).
Proof.
  intros Hp. apply in_map_iff. exists (Z.to_nat p). split; [lia | apply in_seq; lia].
Qed.

(** X11. On a mask that passes the mask check, [obtenerInfoAdicional]
    reports the prefix length [p] of the mask as CIDR notation and as
    network bits, [32 - p] host bits, and the binary mask as [p] ones
    followed by [32 - p] zeros, 32 characters in all; the host count of
    [calcularHostsDesdeMascara] is [2^bitsHost - 2]; the number of
    subnets is the integer [2^(p - 8)] from /8 on, and a proper fraction
    for the shorter masks. *)
Theorem X11_info_adicional (mascara : string) :
  esMascaraSubredValida mascara = Val true ->
  exists (info : infoAdicional) (p : Z),
    obtenerInfoAdicional mascara = Val info /\
    1 <= p <= 31 /\
    p = Spec.prefixLength (Spec.addressToInteger mascara) /\
    notacionCIDR info = p /\ bitsRed info = p /\ bitsHost info = 32 - p /\
    mascaraBinaria info
    = Str.repeatNat "1" (Z.to_nat p) ++ Str.repeatNat "0" (Z.to_nat (32 - p)) /\
    String.length (mascaraBinaria info) = 32%nat /\
    calcularHostsDesdeMascara mascara = Val (2 ^ bitsHost info - 2) /\
    (8 <= p -> (numeroSubredes info == inject_Z (Z.pow 2 (p - 8)))%Q) /\
    (p < 8 -> (0 < numeroSubredes info)%Q /\ (numeroSubredes info < 1)%Q).
Proof.
  intros Hm. apply mascara_valida_prefijo in Hm as (p & Hp & Hd).
  pose proof (unos_de_mascara p ltac:(lia)) as Hunos. cbv zeta in Hunos.
  pose proof (binarioDe_prefijo p ltac:(lia)) as Hbin. cbv zeta in Hbin.
  unfold obtenerInfoAdicional. rewrite (direccion_octetos _ _ Hd). cbn [JS.bind].
  eexists. exists p. split; [reflexivity |].
  cbn [notacionCIDR bitsRed bitsHost mascaraBinaria numeroSubredes].
  rewrite Hunos, Hbin.
  split; [lia |]. split.
  { destruct Hd as [_ ->]. now rewrite prefixLength_maskFromPrefix by lia. }
  do 4 (split; [reflexivity |]).
  split.
  { rewrite length_append.
    assert (Hl : forall c n, String.length (Str.repeatNat c n) = n).
    { intros c n. induction n as [|n IH]; simpl; [reflexivity | now f_equal]. }
    rewrite !Hl. lia. }
  split; [apply calcularHostsDesdeMascara_prefijo; [lia | exact Hd] |].
  pose proof (prefijo_enumerado p Hp) as Hc. clear - Hc. vm_compute in Hc.
  repeat (destruct Hc as [<- | Hc];
          [split; intros H; try (exfalso; lia); vm_compute;
           try reflexivity; split; reflexivity |]).
  destruct Hc.
Qed.

Lemma X11_info_adicional_witness :
  exists (info : infoAdicional) (p : Z),
    obtenerInfoAdicional "240.0.0.0" = Val info /\
    p = 4 /\ bitsHost info = 32 - p /\
    mascaraBinaria info = "11110000000000000000000000000000" /\
    (0 < numeroSubredes info)%Q /\ (numeroSubredes info < 1)%Q.
Proof.
  destruct (X11_info_adicional "240.0.0.0" eq_refl)
    as (info & p & Hi & Hp & Hpl & _ & _ & Hb & Hbin & _ & _ & _ & Hq).
  assert (E : p = 4) by (rewrite Hpl; reflexivity).
  exists info, p. split; [exact Hi |]. split; [exact E |]. split; [exact Hb |].
  split; [rewrite Hbin, E; reflexivity |].
  apply Hq. rewrite E. lia.
Defined.

(** X12. [equals] holds between two records exactly when all seven
    fields agree.  On a record computed from validated input [toJSON]
    succeeds, its [redCIDR] is the network address, a slash and the
    prefix length of the mask, its [rangoHosts] is first and last host
    around a dash, and [fromObject] rebuilds from it a record that
    [equals] the original. *)
Theorem X12_toJSON_fromObject :
  (forall r o : ResultadoIp.t, ResultadoIp.equals r o = true <-> r = o) /\
  (forall ip mascara : string,
     esDireccionIPValida ip = Val true ->
     esMascaraSubredValida mascara = Val true ->
     exists (r : ResultadoIp.t) (j : ResultadoIp.Plano.t),
       calcularSubredCompleta ip mascara = Val r /\
       ResultadoIp._calcularCIDR r
       = Val (Spec.prefixLength (Spec.addressToInteger mascara)) /\
       ResultadoIp.toJSON r = Val j /\
       ResultadoIp.Plano.redCIDR j
       = ResultadoIp.networkIP r ++ "/"
         ++ Str.deNumero (Spec.prefixLength (Spec.addressToInteger mascara)) /\
       ResultadoIp.Plano.rangoHosts j
       = ResultadoIp.firstHostIP r ++ " - " ++ ResultadoIp.lastHostIP r /\
       ResultadoIp.fromObject j = r /\
       ResultadoIp.equals (ResultadoIp.fromObject j) r = true).
Proof.
  assert (Heq : forall r o : ResultadoIp.t, ResultadoIp.equals r o = true <-> r = o).
  { intros [n1 m1 b1 f1 l1 g1 t1] [n2 m2 b2 f2 l2 g2 t2].
    unfold ResultadoIp.equals. campos.
    rewrite !andb_true_iff, !String.eqb_eq, Z.eqb_eq. split.
    - intros ((((((-> & ->) & ->) & ->) & ->) & ->) & ->). reflexivity.
    - intros H. injection H as -> -> -> -> -> -> ->. repeat split. }
  split; [exact Heq |].
  intros ip mascara Hip Hm.
  apply esDireccionIPValida_spec in Hip as (a & Ha & _ & _).
  apply mascara_valida_prefijo in Hm as (p & Hp & Hd).
  pose proof (unos_de_mascara p ltac:(lia)) as Hunos. cbv zeta in Hunos.
  assert (Hpl : Spec.prefixLength (Spec.addressToInteger mascara) = p).
  { destruct Hd as [_ ->]. apply prefixLength_maskFromPrefix. lia. }
  rewrite Hpl.
  eexists. eexists.
  split; [apply (completa_prefijo ip mascara a p Ha Hd Hp) |].
  assert (Hc : forall n b f l g t,
            ResultadoIp._calcularCIDR (ResultadoIp.nuevo n mascara b f l g t) = Val p).
  { intros. unfold ResultadoIp._calcularCIDR. campos.
    rewrite (direccion_octetos _ _ Hd). cbn [JS.bind]. now rewrite Hunos. }
  split; [apply Hc |].
  unfold ResultadoIp.toJSON, ResultadoIp.getRedCIDR. rewrite Hc. cbn [JS.bind].
  split; [reflexivity |]. cbn [ResultadoIp.Plano.redCIDR ResultadoIp.Plano.rangoHosts].
  split; [reflexivity |]. split; [reflexivity |]. split; [reflexivity |].
  apply Heq. reflexivity.
Qed.

Lemma X12_toJSON_fromObject_witness :
  exists (r : ResultadoIp.t) (j : ResultadoIp.Plano.t),
    calcularSubredCompleta "192.168.1.100" "255.255.255.192" = Val r /\
    ResultadoIp.toJSON r = Val j /\
    ResultadoIp.Plano.redCIDR j = "192.168.1.64/26" /\
    ResultadoIp.equals (ResultadoIp.fromObject j) r = true.
Proof.
  destruct (proj2 X12_toJSON_fromObject "192.168.1.100" "255.255.255.192"
              eq_refl eq_refl) as (r & j & Hr & _ & Hj & Hc & _ & _ & He).
  exists r, j. split; [exact Hr |]. split; [exact Hj |]. split; [| exact He].
  rewrite Hc. vm_compute in Hr. injection Hr as <-. reflexivity.
Defined.

(** X13. [validarEntradaCompleta] on a host count that prints (a
    string, a safe integer) never leaves three outcomes: it throws a
    [TypeError], exactly when the address is accepted, the mode is
    ['hosts'] and the host count is a number other than zero that the
    host check rejects (the message lookup calls [trim] on the number);
    otherwise it returns a result that carries a message exactly when it
    is invalid, and that is valid exactly when the address is accepted
    and the input of the chosen mode passes its check.  A mode other
    than ['hosts'] and ['mascara'] is accepted on the address alone.
    The host check rejects a safe integer exactly when it is outside
    1..16777214; the number 10^21 passes it, and with an accepted
    address the validation. *)
Theorem X13_validarEntradaCompleta_tabla
    (ip tipoEntrada mascara : string) (numeroHosts : valor) (texto : string) :
  aCadena numeroHosts = Val texto ->
  let resultado := validarEntradaCompleta ip tipoEntrada mascara numeroHosts in
  (resultado = Exc TypeError <->
   esDireccionIPValida ip = Val true /\ tipoEntrada = "hosts" /\
   exists n : Z,
     numeroHosts = VNum n /\ n <> 0 /\ esNumeroHostsValido (VNum n) = Val false) /\
  (resultado = Exc TypeError \/
   exists v : validacion,
     resultado = Val v /\
     (esValido v = true <-> mensaje v = None) /\
     (esValido v = true <->
      esDireccionIPValida ip = Val true /\
      (tipoEntrada = "hosts" -> esNumeroHostsValido numeroHosts = Val true) /\
      (tipoEntrada = "mascara" -> esMascaraSubredValida mascara = Val true))) /\
  (forall n : Z,
     Z.abs n <= MAX_SAFE_INTEGER ->
     (esNumeroHostsValido (VNum n) = Val false <-> ~ 1 <= n <= 16777214)) /\
  (esDireccionIPValida ip = Val true ->
   validarEntradaCompleta ip "hosts" mascara (VNum (10 ^ 21))
   = Val {| esValido := true; mensaje := None |}).
Proof.
  intros Htexto resultado.
  match goal with
  | |- ?A /\ ?B /\ ?C =>
      cut (A /\ B); [intros [H1 H2]; split; [exact H1 | split; [exact H2 |]] |]
  end.
  { split; [exact numero_hosts_invalido |].
    intros Hv. unfold validarEntradaCompleta. rewrite Hv. reflexivity. }
  unfold resultado, validarEntradaCompleta. clear resultado.
  destruct (esDireccionIPValida_total ip) as [[] Hv]; rewrite Hv; cbn [JS.bind negb].
  2:{ destruct (mensaje_ip ip) as (m & -> & _). cbn [JS.bind]. split.
      - split; [discriminate | intros [H _]; discriminate].
      - right. eexists. split; [reflexivity |]. cbn [esValido mensaje].
        split; split; try discriminate. intros [H _]. discriminate. }
  destruct (String.eqb_spec tipoEntrada "hosts") as [->|Hh].
  - destruct (hosts_decidido numeroHosts texto Htexto) as [b En].
    rewrite En. cbn [JS.bind]. destruct b; cbn [negb].
    + split.
      * split; [discriminate |]. intros (_ & _ & n & -> & _ & Hn). congruence.
      * right. eexists. split; [reflexivity |]. cbn [esValido mensaje].
        split; [tauto |]. split; [| reflexivity]. intros _.
        split; [reflexivity |]. split; [reflexivity | discriminate].
    + destruct numeroHosts as [n|s].
      * rewrite mensaje_hosts_de_numero.
        destruct (Z.eqb_spec n 0) as [->|Hz]; cbn [JS.bind].
        -- split.
           ++ split; [discriminate |]. intros (_ & _ & n & Hn' & Hz & _).
              injection Hn' as <-. contradiction.
           ++ right. eexists. split; [reflexivity |]. cbn [esValido mensaje].
              split; split; try discriminate. intros (_ & H & _).
              specialize (H eq_refl). congruence.
        -- split; [| now left]. split; [| reflexivity]. intros _.
           split; [reflexivity |]. split; [reflexivity |]. eauto.
      * destruct (mensaje_hosts_cadena s) as (m & -> & _). cbn [JS.bind]. split.
        -- split; [discriminate |]. intros (_ & _ & n & Hn & _). discriminate.
        -- right. eexists. split; [reflexivity |]. cbn [esValido mensaje].
           split; split; try discriminate. intros (_ & H & _).
           specialize (H eq_refl). congruence.
  - destruct (String.eqb_spec tipoEntrada "mascara") as [->|Hm].
    + destruct (esMascaraSubredValida_total mascara) as [[] Hmv]; rewrite Hmv;
        cbn [JS.bind negb].
      * split; [split; [discriminate | intros (_ & H & _); discriminate] |].
        right. eexists. split; [reflexivity |]. cbn [esValido mensaje].
        split; [tauto |]. split; [| reflexivity]. intros _.
        split; [reflexivity |]. split; [discriminate | reflexivity].
      * destruct (mensaje_mascara mascara) as (m & -> & _). cbn [JS.bind].
        split; [split; [discriminate | intros (_ & H & _); discriminate] |].
        right. eexists. split; [reflexivity |]. cbn [esValido mensaje].
        split; split; try discriminate. intros (_ & _ & H).
        specialize (H eq_refl). discriminate.
    + split; [split; [discriminate | intros (_ & H & _); contradiction] |].
      right. eexists. split; [reflexivity |]. cbn [esValido mensaje].
      split; [tauto |]. split; [| reflexivity]. intros _.
      split; [reflexivity |]. split; intros; contradiction.
Qed.

Lemma X13_validarEntradaCompleta_tabla_witness :
  validarEntradaCompleta "192.168.1.100" "hosts" "" (VNum 20000000) = Exc TypeError /\
  validarEntradaCompleta "192.168.1.100" "hosts" "" (VNum (-5)) = Exc TypeError /\
  validarEntradaCompleta "192.168.1.100" "subredes" "no es una máscara" (VStr "x")
  = Val {| esValido := true; mensaje := None |}.
Proof.
  split; [| split].
  - apply (X13_validarEntradaCompleta_tabla "192.168.1.100" "hosts" "" (VNum 20000000)
             "20000000" eq_refl).
    split; [reflexivity |]. split; [reflexivity |]. exists 20000000.
    split; [reflexivity |]. split; [lia | reflexivity].
  - apply (X13_validarEntradaCompleta_tabla "192.168.1.100" "hosts" "" (VNum (-5))
             "-5" eq_refl).
    split; [reflexivity |]. split; [reflexivity |]. exists (-5).
    split; [reflexivity |]. split; [lia | reflexivity].
  - destruct (X13_validarEntradaCompleta_tabla "192.168.1.100" "subredes"
                "no es una máscara" (VStr "x") "x" eq_refl)
      as (_ & [H | (v & Hv & Hm & Hok)] & _).
    + discriminate H.
    + rewrite Hv. destruct v as [ok m]. cbn [esValido mensaje] in *.
      assert (E : ok = true).
      { apply Hok. split; [reflexivity |]. split; intros H; discriminate H. }
      subst ok. destruct Hm as [Hm _]. now rewrite (Hm eq_refl).
Defined.

(** X14. A submission of the form in one of the two modes of the
    selector, with a host field that reads as a safe integer (so that
    [obtenerDatosFormulario] gives a record [d] of the model), always
    ends with something on display.  A rejected address
    shows one of the address messages.  With an accepted address, mode
    ['hosts']: a count in 1..16777214 shows the record of
    [calcularDesdeHosts]; a count of zero (an empty or non-numeric field
    reads as zero) shows the request for a host count; any other count,
    negative or too large, ends in the [catch] and shows the internal
    error.  Mode ['mascara']: an accepted mask shows the record of
    [calcularDesdeMascara], a rejected one a mask message.  So the three
    messages about a host count that is too small, too large or not a
    number, and the message about invalid results, are never shown. *)
Theorem X14_manejarEnvioFormulario (f : formulario) (d : datos) :
  obtenerDatosFormulario f = Val d ->
  tipoEntrada d = "hosts" \/ tipoEntrada d = "mascara" ->
  exists p : pantalla,
    manejarEnvioFormulario f = Val p /\
    (esDireccionIPValida (ip d) = Val false ->
     exists m, In m mensajesIP /\ p = ConError m) /\
    (esDireccionIPValida (ip d) = Val true -> tipoEntrada d = "hosts" ->
     (1 <= numeroHosts d <= 16777214 ->
      exists r, calcularDesdeHosts (ip d) (numeroHosts d) = Val r /\
                p = ConResultados r) /\
     (numeroHosts d = 0 -> p = ConError "Por favor, ingresa el número de hosts.") /\
     (numeroHosts d <> 0 -> ~ 1 <= numeroHosts d <= 16777214 ->
      p = ConError
            "Error interno al procesar los datos. Por favor, inténtelo de nuevo.")) /\
    (esDireccionIPValida (ip d) = Val true -> tipoEntrada d = "mascara" ->
     (esMascaraSubredValida (GestorInterfaz.mascara d) = Val true ->
      exists r, calcularDesdeMascara (ip d) (GestorInterfaz.mascara d) = Val r /\
                p = ConResultados r) /\
     (esMascaraSubredValida (GestorInterfaz.mascara d) = Val false ->
      exists m, In m mensajesMascara /\ p = ConError m)) /\
    p <> ConError "El número de hosts debe ser mayor a 0." /\
    p <> ConError "El número de hosts es demasiado grande (máximo: 16,777,214)." /\
    p <> ConError "Por favor, ingresa un número válido de hosts (mínimo 1)." /\
    p <> ConError "Error: Los resultados del cálculo no son válidos.".
Proof.
  intros Hd Hmodo. destruct (manejar_casos f d Hd Hmodo) as (p & Hp & Hc).
  exists p. split; [exact Hp |].
  assert (Hdist : "hosts" <> "mascara") by discriminate.
  destruct Hc as [m Hv Hin | r Hv Ht Hn Hr | Hv Ht Hn | Hv Ht Hz Hn
                  | r Hv Ht Hm Hr | m Hv Ht Hm Hin].
  - split; [eauto |].
    split; [intros H; congruence |]. split; [intros H; congruence |].
    unfold mensajesIP in Hin. simpl in Hin.
    repeat split; intros H; injection H as ->;
      repeat (destruct Hin as [Hin | Hin]; try discriminate Hin); contradiction.
  - split; [intros H; congruence |]. split.
    { intros _ _. split; [eauto |]. split; intros; lia. }
    split; [intros _ H; congruence |]. repeat split; discriminate.
  - split; [intros H; congruence |]. split.
    { intros _ _. split; [intros; lia |]. split; [reflexivity | intros; congruence]. }
    split; [intros _ H; congruence |]. repeat split; discriminate.
  - split; [intros H; congruence |]. split.
    { intros _ _. split; [intros; contradiction |]. split; [intros; contradiction |].
      reflexivity. }
    split; [intros _ H; congruence |]. repeat split; discriminate.
  - split; [intros H; congruence |]. split; [intros _ H; congruence |]. split.
    { intros _ _. split; [eauto | intros; congruence]. }
    repeat split; discriminate.
  - split; [intros H; congruence |]. split; [intros _ H; congruence |]. split.
    { intros _ _. split; [intros; congruence | eauto]. }
    unfold mensajesMascara in Hin. simpl in Hin.
    repeat split; intros H; injection H as ->;
      repeat (destruct Hin as [Hin | Hin]; try discriminate Hin); contradiction.
Qed.

Lemma X14_manejarEnvioFormulario_witness :
  manejarEnvioFormulario
    {| entradaIP := " 192.168.1.100 "; selectorTipoEntrada := "hosts";
       entradaHosts := "-5"; entradaMascara := "" |}
  = Val (ConError
           "Error interno al procesar los datos. Por favor, inténtelo de nuevo.").
Proof.
  destruct (X14_manejarEnvioFormulario
              {| entradaIP := " 192.168.1.100 "; selectorTipoEntrada := "hosts";
                 entradaHosts := "-5"; entradaMascara := "" |}
              {| ip := "192.168.1.100"; tipoEntrada := "hosts";
                 numeroHosts := -5; GestorInterfaz.mascara := "" |}
              eq_refl (or_introl eq_refl)) as (p & Hp & _ & Hh & _).
  rewrite Hp. f_equal.
  apply (Hh eq_refl eq_refl); [discriminate | vm_compute; intros [H _]; apply H; reflexivity].
Defined.

(** X15. [obtenerClaseIP] always answers.  A rejected address has no
    class.  An accepted address gets its class from its first octet: A
    for 1..126, B for 128..191, C for 192..223, D for 224..239, E for
    240..255; the accepted addresses that start with 0 or with 127 have
    no class either. *)
Theorem X15_obtenerClaseIP (ip : string) :
  exists c : option string,
    obtenerClaseIP ip = Val c /\
    (esDireccionIPValida ip = Val false -> c = None) /\
    (esDireccionIPValida ip = Val true ->
     let o := Spec.addressToInteger ip / 2 ^ 24 in
     0 <= o <= 255 /\
     (1 <= o <= 126 -> c = Some "A") /\
     (128 <= o <= 191 -> c = Some "B") /\
     (192 <= o <= 223 -> c = Some "C") /\
     (224 <= o <= 239 -> c = Some "D") /\
     (240 <= o <= 255 -> c = Some "E") /\
     (o = 0 \/ o = 127 -> c = None)).
Proof.
  destruct (esDireccionIPValida_total ip) as [[] Hv].
  - exists (claseDe (Spec.addressToInteger ip / 2 ^ 24)).
    split; [now apply obtenerClaseIP_valida |]. split; [congruence |].
    intros _ o. pose proof Hv as Hv'.
    apply esDireccionIPValida_spec in Hv' as (u & [Hr _] & _).
    destruct (primer_octeto ip Hr) as (_ & _ & _ & _ & Ho). fold o in Ho. fold o.
    split; [exact Ho |]. unfold claseDe.
    repeat split; intros H;
      repeat match goal with
      | |- context [?a <=? ?b] => destruct (Z.leb_spec a b); try lia
      end; reflexivity.
  - exists None. split; [now apply obtenerClaseIP_invalida |].
    split; [reflexivity | congruence].
Qed.

Lemma X15_obtenerClaseIP_witness :
  esDireccionIPValida "127.0.0.1" = Val true /\
  obtenerClaseIP "127.0.0.1" = Val None.
Proof.
  split; [reflexivity |].
  destruct (X15_obtenerClaseIP "127.0.0.1") as (c & -> & _ & Hc).
  f_equal. apply (Hc eq_refl). right. reflexivity.
Defined.

Lemma en_bloque (ip ipRed mascara : string) (u r j : Z) :
  direccion ip u -> direccion ipRed r -> direccion mascara (2 ^ 32 - 2 ^ j) ->
  0 <= j <= 32 -> r mod 2 ^ j = 0 ->
  (ipEstaEnSubred ip ipRed mascara = Val true <-> r <= u < r + 2 ^ j).
Proof.
  intros Hu Hr Hm Hj Hmod.
  rewrite (ipEstaEnSubred_spec _ _ _ _ _ _ Hu Hr Hm).
  rewrite <- (pertenece_rango u r j (direccion_rango _ _ Hu) Hj Hmod).
  split.
  - intros H. injection H as H. now apply Z.eqb_eq.
  - intros H. f_equal. now apply Z.eqb_eq.
Qed.

(** X16. [esIPPrivada] always answers, and answers true exactly for the
    accepted addresses of four blocks: 10.0.0.0/8, 172.16.0.0/12,
    192.168.0.0/16 and the loopback block 127.0.0.0/8.  Those are the
    accepted addresses that [ipEstaEnSubred] places in one of the four
    networks. *)
Theorem X16_esIPPrivada (ip : string) :
  exists b : bool,
    esIPPrivada ip = Val b /\
    (b = true <->
     esDireccionIPValida ip = Val true /\
     (Spec.empaquetar 10 0 0 0 <= Spec.addressToInteger ip
      <= Spec.empaquetar 10 255 255 255 \/
      Spec.empaquetar 172 16 0 0 <= Spec.addressToInteger ip
      <= Spec.empaquetar 172 31 255 255 \/
      Spec.empaquetar 192 168 0 0 <= Spec.addressToInteger ip
      <= Spec.empaquetar 192 168 255 255 \/
      Spec.empaquetar 127 0 0 0 <= Spec.addressToInteger ip
      <= Spec.empaquetar 127 255 255 255)) /\
    (b = true <->
     esDireccionIPValida ip = Val true /\
     (ipEstaEnSubred ip "10.0.0.0" "255.0.0.0" = Val true \/
      ipEstaEnSubred ip "172.16.0.0" "255.240.0.0" = Val true \/
      ipEstaEnSubred ip "192.168.0.0" "255.255.0.0" = Val true \/
      ipEstaEnSubred ip "127.0.0.0" "255.0.0.0" = Val true)).
Proof.
  destruct (esDireccionIPValida_total ip) as [[] Hv].
  2:{ exists false. split; [unfold esIPPrivada; now rewrite Hv |].
      split; (split; [discriminate | intros [H _]; congruence]). }
  pose proof Hv as Hv'. apply esDireccionIPValida_spec in Hv' as (u & Hd & _).
  pose proof Hd as [Hr Hu].
  assert (Hrangos :
    (ipEstaEnSubred ip "10.0.0.0" "255.0.0.0" = Val true \/
     ipEstaEnSubred ip "172.16.0.0" "255.240.0.0" = Val true \/
     ipEstaEnSubred ip "192.168.0.0" "255.255.0.0" = Val true \/
     ipEstaEnSubred ip "127.0.0.0" "255.0.0.0" = Val true) <->
    (Spec.empaquetar 10 0 0 0 <= u <= Spec.empaquetar 10 255 255 255 \/
     Spec.empaquetar 172 16 0 0 <= u <= Spec.empaquetar 172 31 255 255 \/
     Spec.empaquetar 192 168 0 0 <= u <= Spec.empaquetar 192 168 255 255 \/
     Spec.empaquetar 127 0 0 0 <= u <= Spec.empaquetar 127 255 255 255)).
  { rewrite (en_bloque ip "10.0.0.0" "255.0.0.0" u (Spec.empaquetar 10 0 0 0) 24 Hd)
      by (split; reflexivity) || lia || reflexivity.
    rewrite (en_bloque ip "172.16.0.0" "255.240.0.0" u (Spec.empaquetar 172 16 0 0) 20 Hd)
      by (split; reflexivity) || lia || reflexivity.
    rewrite (en_bloque ip "192.168.0.0" "255.255.0.0" u (Spec.empaquetar 192 168 0 0) 16 Hd)
      by (split; reflexivity) || lia || reflexivity.
    rewrite (en_bloque ip "127.0.0.0" "255.0.0.0" u (Spec.empaquetar 127 0 0 0) 24 Hd)
      by (split; reflexivity) || lia || reflexivity.
    unfold Spec.empaquetar. lia. }
  rewrite Hu.
  apply bien_formada_octetos in Hr
    as (o0 & o1 & o2 & o3 & Ho & Hp & H0 & H1 & H2 & H3).
  rewrite Hu in Hp. subst u.
  unfold esIPPrivada. rewrite Hv, Ho. cbn [JS.bind negb nth_error cumple].
  rewrite Z.geb_leb. unfold Spec.empaquetar in *.
  assert (Hsi : forall P : Prop, P -> (true = true <-> Val true = Val true /\ P))
    by (intros P HP; split; [intros _; split; [reflexivity | exact HP] | reflexivity]).
  assert (Hno : forall P : Prop, ~ P -> (false = true <-> Val true = Val true /\ P))
    by (intros P HP; split; [discriminate | intros [_ H]; contradiction]).
  destruct (Z.eqb_spec o0 10).
  { exists true. split; [reflexivity |]. split; [| rewrite Hrangos]; apply Hsi; lia. }
  destruct (Z.eqb_spec o0 172); destruct (Z.leb_spec 16 o1); destruct (Z.leb_spec o1 31);
    cbn [andb];
    try (exists true; split; [reflexivity |];
         split; [| rewrite Hrangos]; apply Hsi; lia).
  all: destruct (Z.eqb_spec o0 192); destruct (Z.eqb_spec o1 168); cbn [andb];
    try (exists true; split; [reflexivity |];
         split; [| rewrite Hrangos]; apply Hsi; lia).
  all: destruct (Z.eqb_spec o0 127);
    try (exists true; split; [reflexivity |];
         split; [| rewrite Hrangos]; apply Hsi; lia).
  all: exists false; split; [reflexivity |];
    split; [| rewrite Hrangos]; apply Hno; lia.
Qed.

Lemma X16_esIPPrivada_witness :
  esIPPrivada "172.20.1.1" = Val true /\ esIPPrivada "172.32.1.1" = Val false /\
  esIPPrivada "127.0.0.1" = Val true.
Proof.
  split; [| split].
  - destruct (X16_esIPPrivada "172.20.1.1") as (b & -> & _ & Hb).
    f_equal. apply Hb. split; [reflexivity |]. right. left. reflexivity.
  - destruct (X16_esIPPrivada "172.32.1.1") as (b & -> & _ & Hb).
    f_equal. destruct b; [| reflexivity].
    destruct (proj1 Hb eq_refl) as [_ [H | [H | [H | H]]]]; discriminate H.
  - destruct (X16_esIPPrivada "127.0.0.1") as (b & -> & _ & Hb).
    f_equal. apply Hb. split; [reflexivity |]. right. right. right. reflexivity.
Defined.

Lemma octetos_255 (p : Z) :
  1 <= p <= 31 ->
  let u := Spec.maskFromPrefix p in
  (byte u 3 =? 255) = (8 <=? p) /\ (byte u 2 =? 255) = (16 <=? p) /\
  (byte u 1 =? 255) = (24 <=? p).
Proof.
  intros Hp. pose proof (prefijo_enumerado p Hp) as Hc. clear Hp.
  vm_compute in Hc.
  repeat (destruct Hc as [<- | Hc]; [vm_compute; auto |]).
  destruct Hc.
Qed.

(** X17. [esMascaraApropiadaParaClase] always answers, and answers true
    exactly when the address has a class, the mask passes the mask
    check, and the prefix length of the mask is at least 8 for class A,
    16 for class B and 24 for class C; for classes D and E every
    accepted mask is appropriate, and an address without class, like a
    loopback address, has no appropriate mask. *)
Theorem X17_esMascaraApropiadaParaClase (ip mascara : string) :
  exists b : bool,
    esMascaraApropiadaParaClase ip mascara = Val b /\
    (b = true <->
     exists c : string,
       obtenerClaseIP ip = Val (Some c) /\
       esMascaraSubredValida mascara = Val true /\
       (c = "A" -> 8 <= Spec.prefixLength (Spec.addressToInteger mascara)) /\
       (c = "B" -> 16 <= Spec.prefixLength (Spec.addressToInteger mascara)) /\
       (c = "C" -> 24 <= Spec.prefixLength (Spec.addressToInteger mascara))).
Proof.
  unfold esMascaraApropiadaParaClase.
  destruct (clase_letra ip) as (c & -> & Hc). cbn [JS.bind].
  destruct Hc as [-> | Hc].
  { exists false. split; [reflexivity |]. split; [discriminate |].
    intros (c & H & _). discriminate H. }
  destruct (esMascaraSubredValida_total mascara) as [[] Hm].
  2:{ exists false.
      split; [destruct Hc as [-> | [-> | [-> | [-> | ->]]]];
              cbn [String.eqb Ascii.eqb Bool.eqb]; rewrite Hm; reflexivity |].
      split; [discriminate |]. intros (c' & _ & H & _). congruence. }
  pose proof Hm as Hm'. apply mascara_valida_prefijo in Hm' as (p & Hp & Hd).
  assert (Hpl : Spec.prefixLength (Spec.addressToInteger mascara) = p).
  { destruct Hd as [_ ->]. apply prefixLength_maskFromPrefix. lia. }
  rewrite Hpl.
  destruct (octetos_255 p Hp) as (E3 & E2 & E1).
  assert (Hcuerpo : forall c : string,
            String.eqb c "" = false ->
            (if String.eqb c "" then Val false
             else
               let* mascaraValida := esMascaraSubredValida mascara in
               if negb mascaraValida then Val false
               else
                 let* octetos := octetosDe mascara in
                 let es255 (i : nat) := cumple (nth_error octetos i) (fun o => o =? 255) in
                 if String.eqb c "A" then Val (es255 0%nat)
                 else if String.eqb c "B" then Val (es255 0%nat && es255 1%nat)
                 else if String.eqb c "C"
                      then Val (es255 0%nat && es255 1%nat && es255 2%nat)
                      else Val true)
            = Val (if String.eqb c "A" then 8 <=? p
                   else if String.eqb c "B" then (8 <=? p) && (16 <=? p)
                   else if String.eqb c "C" then (8 <=? p) && (16 <=? p) && (24 <=? p)
                   else true)).
  { intros c' ->. rewrite Hm. cbn [JS.bind negb].
    rewrite (direccion_octetos _ _ Hd). cbn [JS.bind nth_error cumple].
    rewrite E3, E2, E1.
    destruct (String.eqb c' "A"); [reflexivity |].
    destruct (String.eqb c' "B"); [reflexivity |].
    destruct (String.eqb c' "C"); reflexivity. }
  destruct Hc as [-> | [-> | [-> | [-> | ->]]]];
    rewrite Hcuerpo by reflexivity; cbn [String.eqb Ascii.eqb Bool.eqb];
    eexists; (split; [reflexivity |]); split.
  all: try (intros H; eexists; split; [reflexivity |]; split; [exact Hm |];
            repeat rewrite andb_true_iff in H; rewrite ?Z.leb_le in H;
            repeat split; intros; (discriminate || lia)).
  all: try (intros (c' & Hc' & _ & HA & HB & HC); injection Hc' as <-;
            repeat rewrite andb_true_iff; rewrite ?Z.leb_le;
            pose proof (HA eq_refl); lia).
  all: try (intros (c' & Hc' & _ & HA & HB & HC); injection Hc' as <-;
            repeat rewrite andb_true_iff; rewrite ?Z.leb_le;
            pose proof (HB eq_refl); lia).
  all: try (intros (c' & Hc' & _ & HA & HB & HC); injection Hc' as <-;
            repeat rewrite andb_true_iff; rewrite ?Z.leb_le;
            pose proof (HC eq_refl); lia).
  all: reflexivity.
Qed.

Lemma X17_esMascaraApropiadaParaClase_witness :
  esMascaraApropiadaParaClase "172.16.5.9" "255.255.240.0" = Val true /\
  esMascaraApropiadaParaClase "192.168.1.1" "255.255.240.0" = Val false.
Proof.
  split.
  - destruct (X17_esMascaraApropiadaParaClase "172.16.5.9" "255.255.240.0")
      as (b & -> & Hb).
    f_equal. apply Hb. exists "B". split; [reflexivity |]. split; [reflexivity |].
    split; [discriminate |]. split; [intros _; vm_compute; discriminate | discriminate].
  - destruct (X17_esMascaraApropiadaParaClase "192.168.1.1" "255.255.240.0")
      as (b & -> & Hb).
    f_equal. destruct b; [| reflexivity].
    destruct (proj1 Hb eq_refl) as (c & Hc & _ & _ & _ & H24).
    vm_compute in Hc. injection Hc as <-. specialize (H24 eq_refl).
    vm_compute in H24. exfalso. apply H24. reflexivity.
Defined.

(** X18. [esDireccionIPValida] always answers, and accepts exactly the
    strings made of four parts separated by single dots, each part one
    to three decimal digits of value at most 255 (leading zeros
    allowed), except the strings whose four values are all 0 or all
    255. *)
Theorem X18_direcciones_aceptadas (s : string) :
  (exists b : bool, esDireccionIPValida s = Val b) /\
  (esDireccionIPValida s = Val true <->
   exists (a b c d : string) (va vb vc vd : Z),
     s = a ++ "." ++ b ++ "." ++ c ++ "." ++ d /\
     octeto a va /\ octeto b vb /\ octeto c vc /\ octeto d vd /\
     ~ (va = 0 /\ vb = 0 /\ vc = 0 /\ vd = 0) /\
     ~ (va = 255 /\ vb = 255 /\ vc = 255 /\ vd = 255)).
Proof.
  split; [apply esDireccionIPValida_total |].
  rewrite esDireccionIPValida_spec. split.
  - intros (u & [Hr Hu] & Hz & Hf).
    apply ipRegex_forma in Hr as (a & b & c & d & -> & Ea & Eb & Ec & Ed).
    destruct (En_octeto_bien _ Ea) as [va Ba], (En_octeto_bien _ Eb) as [vb Bb],
      (En_octeto_bien _ Ec) as [vc Bc], (En_octeto_bien _ Ed) as [vd Bd].
    destruct (octetosDe_punteada _ _ _ _ _ _ _ _ Ba Bb Bc Bd) as [_ Hp].
    rewrite Hp in Hu. subst u.
    assert (Hoct : forall x v, En octetoRegex x -> octetoBien x v -> octeto x v).
    { intros x v Hx (_ & Hv & _). apply octeto_En in Hx as (w & Hl & Hw & Hle).
      rewrite Hv in Hw. injection Hw as <-. now split. }
    exists a, b, c, d, va, vb, vc, vd.
    split; [reflexivity |]. repeat (split; [now apply Hoct |]).
    unfold Spec.empaquetar in Hz, Hf. split; intros (-> & -> & -> & ->); lia.
  - intros (a & b & c & d & va & vb & vc & vd & -> & Oa & Ob & Oc & Od & Hz & Hf).
    assert (Hbien : forall x v, octeto x v -> En octetoRegex x /\ octetoBien x v).
    { intros x v Hx. assert (Hen : En octetoRegex x) by (apply octeto_En; eauto).
      split; [exact Hen |]. destruct (En_octeto_bien x Hen) as (w & Hs & Hw & Hr).
      destruct Hx as (_ & Hv & _). rewrite Hv in Hw. injection Hw as <-.
      now split. }
    destruct (Hbien _ _ Oa) as [Ea Ba], (Hbien _ _ Ob) as [Eb Bb],
      (Hbien _ _ Oc) as [Ec Bc], (Hbien _ _ Od) as [Ed Bd].
    change (a ++ "." ++ b ++ "." ++ c ++ "." ++ d) with (punteada a b c d).
    exists (Spec.empaquetar va vb vc vd). split.
    + split; [now apply forma_ipRegex |].
      now apply octetosDe_punteada.
    + destruct Ba as (_ & _ & Ra), Bb as (_ & _ & Rb), Bc as (_ & _ & Rc),
        Bd as (_ & _ & Rd).
      unfold Spec.empaquetar. split; intros H; [apply Hz | apply Hf]; lia.
Qed.

Lemma X18_direcciones_aceptadas_witness :
  esDireccionIPValida "010.1.002.3" = Val true.
Proof.
  apply (X18_direcciones_aceptadas "010.1.002.3").
  exists "010", "1", "002", "3", 10, 1, 2, 3.
  split; [reflexivity |].
  repeat (split; [split; [simpl; lia | split; [reflexivity | lia]] |]).
  split; intros H; lia.
Defined.

(** X19. For validated host counts the entries of [optimizarSubredes]
    come with prefix lengths that never decrease and available hosts
    that never increase down the list; every entry has a mask that
    passes the mask check, of prefix length between 8 and 30, with
    [2^(32 - prefix) - 2] available hosts, fewer than twice the required
    hosts plus two; and the entries depend on the requirements only up
    to their order: any rearrangement of the input array gives the same
    list of entries. *)
Theorem X19_optimizarSubredes_orden
    (listaHosts : Arreglos.ref) (m : Arreglos.memoria) (requisitos : list Z) :
  m !! listaHosts = Some requisitos ->
  Forall (fun h => 1 <= h <= 16777214) requisitos ->
  exists (salida : list subredOptimizada) (m' : Arreglos.memoria),
    optimizarSubredes listaHosts m = Val (salida, m') /\
    StronglySorted Z.le (map notacionCIDR_ salida) /\
    StronglySorted Z.ge (map hostsDisponibles salida) /\
    Forall (fun e =>
              hostsDisponibles e < 2 * hostsRequeridos e + 2 /\
              8 <= notacionCIDR_ e <= 30 /\
              hostsDisponibles e = 2 ^ (32 - notacionCIDR_ e) - 2 /\
              esMascaraSubredValida (mascara e) = Val true) salida /\
    (forall (otra : Arreglos.ref) (m2 : Arreglos.memoria) (otros : list Z),
       m2 !! otra = Some otros -> Permutation otros requisitos ->
       exists m2' : Arreglos.memoria,
         optimizarSubredes otra m2 = Val (salida, m2')).
Proof.
  intros Hm Hval.
  assert (Hadm : forall l, Forall (fun h => 1 <= h <= 16777214) l ->
            Forall Optimizar.admisible l).
  { intros l. apply Forall_impl. intros h Hh. unfold Optimizar.admisible. lia. }
  destruct (optimizarSubredes_entradas listaHosts m requisitos Hm (Hadm _ Hval))
    as (m' & Hr).
  destruct (Orden.ordenar_descendente requisitos) as (Hperm & Hsort & _).
  cbv zeta in Hperm, Hsort.
  set (s := Arreglos.ordenar (fun a b => b - a) requisitos) in *.
  eexists. exists m'. split; [exact Hr |].
  split.
  { rewrite entradas_cidr. apply descendente_map; [| exact Hsort].
    intros a b Hab. assert (Z.log2_up (b + 2) <= Z.log2_up (a + 2))
      by (apply Z.log2_up_le_mono; lia). lia. }
  split.
  { rewrite entradas_disponibles. apply descendente_map; [| exact Hsort].
    intros a b Hab. assert (Z.log2_up (b + 2) <= Z.log2_up (a + 2))
      by (apply Z.log2_up_le_mono; lia).
    assert (2 ^ Z.log2_up (b + 2) <= 2 ^ Z.log2_up (a + 2))
      by (apply Z.pow_le_mono_r; lia). lia. }
  split.
  { apply entradas_Forall. intros h i Hin.
    assert (Hh : 1 <= h <= 16777214).
    { rewrite Forall_forall in Hval. apply Hval.
      eapply Permutation_in; [exact Hperm | exact Hin]. }
    destruct (log2_up_hosts h Hh) as [Hk Hs']. cbv zeta in Hk, Hs'.
    unfold Optimizar.entradaDe.
    cbn [hostsDisponibles hostsRequeridos notacionCIDR_ mascara].
    set (k := Z.log2_up (h + 2)) in *.
    assert (Hdoble : 2 ^ k = 2 * 2 ^ (k - 1)).
    { rewrite <- Z.pow_succ_r by lia. f_equal. lia. }
    split; [lia |]. split; [lia |].
    split; [do 2 f_equal; lia |].
    apply (prefijo_mascara_valida _ (32 - k)); [lia |].
    apply direccion_mascara. lia. }
  intros otra m2 otros Hm2 Hp.
  assert (Hval2 : Forall (fun h => 1 <= h <= 16777214) otros).
  { eapply Permutation_Forall; [symmetry; exact Hp | exact Hval]. }
  destruct (optimizarSubredes_entradas otra m2 otros Hm2 (Hadm _ Hval2)) as (m2' & Hr2).
  exists m2'. rewrite Hr2. unfold s. now rewrite (ordenar_permutacion _ _ Hp).
Qed.

Lemma X19_optimizarSubredes_orden_witness :
  exists (salida : list subredOptimizada) (m' m2' : gmap nat (list Z)),
    optimizarSubredes 0%nat (<[0%nat := [50; 200; 10]]> ∅) = Val (salida, m') /\
    optimizarSubredes 0%nat (<[0%nat := [10; 50; 200]]> ∅) = Val (salida, m2') /\
    StronglySorted Z.le (map notacionCIDR_ salida).
Proof.
  set (m := <[0%nat := [50; 200; 10]]> ∅ : gmap nat (list Z)).
  set (m2 := <[0%nat := [10; 50; 200]]> ∅ : gmap nat (list Z)).
  assert (H0 : m !! 0%nat = Some [50; 200; 10]) by (vm_compute; reflexivity).
  assert (H2 : m2 !! 0%nat = Some [10; 50; 200]) by (vm_compute; reflexivity).
  assert (Hv : Forall (fun h => 1 <= h <= 16777214) [50; 200; 10])
    by (repeat (apply Forall_cons; [lia |]); apply Forall_nil).
  assert (Hp : Permutation [10; 50; 200] [50; 200; 10]).
  { exact (Permutation_cons_append [50; 200] 10). }
  destruct (X19_optimizarSubredes_orden 0%nat m [50; 200; 10] H0 Hv)
    as (salida & m' & Hr & Hs & _ & _ & Hotra).
  destruct (Hotra 0%nat m2 [10; 50; 200] H2 Hp) as (m2' & Hr2).
  exists salida, m', m2'. auto.
Defined.

(** X20. [calcularMascaraDesdeHosts] outside the validated range.  It
    throws a [RangeError], from [String.prototype.repeat], exactly for a
    count of -2 and for the counts above 2^32 - 2; for a count below -2
    it returns the text NaN.NaN.NaN.NaN; for every count from -1 to
    2^32 - 2 it returns a well-formed dotted decimal, the mask of prefix
    length 32 minus the ceiling of the binary logarithm of the count
    plus two, which passes the mask check exactly when the count lies
    between 0 and 2^31 - 2. *)
Theorem X20_calcularMascaraDesdeHosts_bordes (hosts : Z) :
  (calcularMascaraDesdeHosts hosts = Exc RangeError <->
   hosts = -2 \/ 2 ^ 32 - 2 < hosts) /\
  (hosts < -2 -> calcularMascaraDesdeHosts hosts = Val "NaN.NaN.NaN.NaN") /\
  (-1 <= hosts <= 2 ^ 32 - 2 ->
   exists mascara : string,
     calcularMascaraDesdeHosts hosts = Val mascara /\
     test ipRegex mascara = true /\
     Spec.addressToInteger mascara
     = Spec.maskFromPrefix (32 - Z.log2_up (hosts + 2)) /\
     (esMascaraSubredValida mascara = Val true <-> 0 <= hosts <= 2 ^ 31 - 2)).
Proof.
  assert (Hnan : hosts < -2 -> calcularMascaraDesdeHosts hosts = Val "NaN.NaN.NaN.NaN").
  { intros H. unfold calcularMascaraDesdeHosts, ceilLog2.
    destruct (Z.ltb_spec (hosts + 2) 0); [reflexivity | lia]. }
  assert (Hmenos : calcularMascaraDesdeHosts (-2) = Exc RangeError) by reflexivity.
  assert (Hgrande : 2 ^ 32 - 2 < hosts -> calcularMascaraDesdeHosts hosts = Exc RangeError).
  { intros H. unfold calcularMascaraDesdeHosts, ceilLog2.
    destruct (Z.ltb_spec (hosts + 2) 0); [lia |].
    destruct (Z.eqb_spec (hosts + 2) 0); [lia |].
    cbn [restarDe Str.repeat].
    assert (Hk : ~ Z.log2_up (hosts + 2) <= 32).
    { intros Hc. apply Z.log2_up_le_pow2 in Hc; lia. }
    destruct (Z.ltb_spec (32 - Z.log2_up (hosts + 2)) 0); [reflexivity | lia]. }
  assert (Hbien : -1 <= hosts <= 2 ^ 32 - 2 ->
            calcularMascaraDesdeHosts hosts
            = Val (Spec.integerToAddress
                     (Spec.maskFromPrefix (32 - Z.log2_up (hosts + 2)))))
    by (intros H; apply calcularMascaraDesdeHosts_spec; lia).
  split; [| split; [exact Hnan |]].
  - split.
    + intros He. destruct (Z_lt_le_dec hosts (-2)) as [H1|H1];
        [rewrite (Hnan H1) in He; discriminate He |].
      destruct (Z.eq_dec hosts (-2)) as [H2|H2]; [now left | right].
      destruct (Z_lt_le_dec (2 ^ 32 - 2) hosts) as [H3|H3]; [exact H3 |].
      rewrite Hbien in He by lia. discriminate He.
    + intros [-> | H]; [exact Hmenos | now apply Hgrande].
  - intros Hh. rewrite (Hbien Hh).
    set (k := Z.log2_up (hosts + 2)).
    assert (Hk : 0 <= k <= 32).
    { split; [apply Z.log2_up_nonneg | apply Z.log2_up_le_pow2; lia]. }
    pose proof (direccion_mascara (32 - k) ltac:(lia)) as Hd.
    eexists. split; [reflexivity |]. split; [apply Hd |]. split; [apply Hd |].
    assert (Hrango : 1 <= 32 - k <= 31 <-> 0 <= hosts <= 2 ^ 31 - 2).
    { unfold k. split.
      - intros [H1 H2]. split.
        + destruct (Z_lt_le_dec hosts 0) as [Hn|Hn]; [| exact Hn].
          assert (Hc : Z.log2_up (hosts + 2) <= 0)
            by (apply Z.log2_up_le_pow2; [lia | change (2 ^ 0) with 1; lia]).
          lia.
        + assert (Hc : hosts + 2 <= 2 ^ 31)
            by (apply Z.log2_up_le_pow2; lia). lia.
      - intros [H1 H2].
        assert (Hc : Z.log2_up (hosts + 2) <= 31)
          by (apply Z.log2_up_le_pow2; lia).
        assert (Hc' : ~ Z.log2_up (hosts + 2) <= 0).
        { intros Hc'. apply Z.log2_up_le_pow2 in Hc'; [| lia].
          change (2 ^ 0) with 1 in Hc'. lia. }
        lia. }
    rewrite <- Hrango. split.
    + intros Hv. apply mascara_valida_prefijo in Hv as (p & Hp & Hdp).
      destruct Hd as [_ Hd], Hdp as [_ Hdp]. rewrite Hd in Hdp.
      unfold Spec.maskFromPrefix in Hdp.
      assert (Hpow : 2 ^ (32 - (32 - k)) = 2 ^ (32 - p)) by lia.
      apply Z.pow_inj_r in Hpow; lia.
    + intros Hp. now apply (prefijo_mascara_valida _ (32 - k)).
Qed.

Lemma X20_calcularMascaraDesdeHosts_bordes_witness :
  calcularMascaraDesdeHosts (-7) = Val "NaN.NaN.NaN.NaN" /\
  calcularMascaraDesdeHosts (2 ^ 32) = Exc RangeError /\
  exists mascara : string,
    calcularMascaraDesdeHosts (-1) = Val mascara /\
    ~ esMascaraSubredValida mascara = Val true.
Proof.
  split; [apply (X20_calcularMascaraDesdeHosts_bordes (-7)); lia |].
  split; [apply (X20_calcularMascaraDesdeHosts_bordes (2 ^ 32)); right; lia |].
  destruct (proj2 (proj2 (X20_calcularMascaraDesdeHosts_bordes (-1))) ltac:(lia))
    as (mascara & Hm & _ & _ & Hv).
  exists mascara. split; [exact Hm |]. intros Hc. apply Hv in Hc. lia.
Defined.

Lemma dividir_sin_sitio (ip mascara : string) (a p n : Z) :
  direccion ip a -> direccion mascara (Spec.maskFromPrefix p) -> 1 <= p <= 31 ->
  1 <= n -> 30 < p + Z.log2_up n ->
  dividirEnSubredes ip mascara n
  = Exc (Error "No es posible crear tantas subredes con hosts válidos").
Proof.
  intros Ha Hm Hp Hn Hq. unfold dividirEnSubredes, ceilLog2.
  destruct (Z.ltb_spec n 0); [lia |]. destruct (Z.eqb_spec n 0); [lia |].
  destruct (obtenerInfoAdicional_prefijo mascara p ltac:(lia) Hm) as (info & Hi & Hb).
  rewrite Hi. cbn [JS.bind]. rewrite Hb. cbn [sumarA mayorQue].
  destruct (Z.gtb_spec (p + Z.log2_up n) 30); [reflexivity | lia].
Qed.

(** X21. [dividirEnSubredes] at the ends of its range, on validated
    address and mask.  A count of zero throws a [RangeError] (from
    [repeat], not the capacity error); a negative count returns the
    empty list; a count of one returns the single record of the network
    itself, with the mask printed without leading zeros; under a /31
    mask every positive count is refused, and under any mask every count
    above 2^29 is. *)
Theorem X21_dividirEnSubredes_bordes (ip mascara : string) :
  esDireccionIPValida ip = Val true ->
  esMascaraSubredValida mascara = Val true ->
  dividirEnSubredes ip mascara 0 = Exc RangeError /\
  (forall n : Z, n < 0 -> dividirEnSubredes ip mascara n = Val []) /\
  (Spec.prefixLength (Spec.addressToInteger mascara) <= 30 ->
   exists r : ResultadoIp.t,
     calcularSubredCompleta ip
       (Spec.integerToAddress (Spec.addressToInteger mascara)) = Val r /\
     dividirEnSubredes ip mascara 1 = Val [r]) /\
  (forall n : Z,
     1 <= n ->
     Spec.prefixLength (Spec.addressToInteger mascara) = 31 \/ 2 ^ 29 < n ->
     dividirEnSubredes ip mascara n
     = Exc (Error "No es posible crear tantas subredes con hosts válidos")).
Proof.
  intros Hip Hm.
  apply esDireccionIPValida_spec in Hip as (a & Ha & _ & _).
  apply mascara_valida_prefijo in Hm as (p & Hp & Hd).
  assert (Hpl : Spec.prefixLength (Spec.addressToInteger mascara) = p).
  { destruct Hd as [_ ->]. apply prefixLength_maskFromPrefix. lia. }
  rewrite Hpl. pose proof (direccion_rango _ _ Ha) as Ra.
  destruct (obtenerInfoAdicional_prefijo mascara p ltac:(lia) Hd) as (info & Hi & Hb).
  split; [| split; [| split]].
  - unfold dividirEnSubredes, ceilLog2. cbn [Z.ltb Z.eqb Z.compare].
    rewrite Hi. reflexivity.
  - intros n Hn. unfold dividirEnSubredes, ceilLog2.
    destruct (Z.ltb_spec n 0); [| lia]. rewrite Hi.
    cbn [JS.bind sumarA mayorQue restarDe Str.repeat potencia2].
    rewrite (calcularIpRed_spec _ _ _ _ Ha Hd). cbn [JS.bind].
    destruct (subred_enteros a p Ra Hp) as (H0 & _ & _ & Hlt & Hin & _).
    rewrite (direccion_ipANumero _ (Z.land a (Spec.maskFromPrefix p)))
      by (apply integerToAddress_direccion; unfold red in *; lia).
    cbn [JS.bind]. unfold indices.
    destruct n as [|n|n]; try lia. reflexivity.
  - intros Hle.
    pose proof (dividirEnSubredes_bloques ip mascara a p 1 Ha Hd Hp ltac:(lia)) as Hdiv.
    change (Z.log2_up 1) with 0 in Hdiv. rewrite Z.add_0_r in Hdiv.
    specialize (Hdiv Hle). cbv zeta in Hdiv.
    eexists. split.
    + destruct Hd as [_ ->].
      apply (completa_prefijo ip _ a p Ha (direccion_mascara p ltac:(lia)) Hp).
    + rewrite Hdiv. change (indices 1) with [0]. cbn [map].
      rewrite Z.mul_0_l, Z.add_0_r. unfold bloque. cbv zeta.
      set (m := Spec.maskFromPrefix p).
      assert (Hrr : red (red a m) m = red a m).
      { unfold red. now rewrite <- Z.land_assoc, Z.land_diag. }
      unfold difusion at 1 2. rewrite Hrr. reflexivity.
  - intros n Hn Hcaso.
    apply (dividir_sin_sitio ip mascara a p n Ha Hd Hp Hn).
    destruct Hcaso as [-> | Hg].
    + pose proof (Z.log2_up_nonneg n). destruct (Z.eq_dec n 1) as [->|Hne].
      * change (Z.log2_up 1) with 0. lia.
      * assert (~ Z.log2_up n <= 0).
        { intros Hc. apply Z.log2_up_le_pow2 in Hc; [| lia].
          change (2 ^ 0) with 1 in Hc. lia. }
        lia.
    + assert (~ Z.log2_up n <= 29).
      { intros Hc. apply Z.log2_up_le_pow2 in Hc; lia. }
      lia.
Qed.

Lemma X21_dividirEnSubredes_bordes_witness :
  dividirEnSubredes "10.20.30.40" "255.255.0.0" 0 = Exc RangeError /\
  dividirEnSubredes "10.20.30.40" "255.255.0.0" (-3) = Val [] /\
  dividirEnSubredes "10.20.30.40" "255.255.0.0" (2 ^ 29 + 1)
  = Exc (Error "No es posible crear tantas subredes con hosts válidos").
Proof.
  destruct (X21_dividirEnSubredes_bordes "10.20.30.40" "255.255.0.0" eq_refl eq_refl)
    as (H0 & Hneg & _ & Herr).
  split; [exact H0 |]. split; [apply Hneg; lia |].
  apply Herr; [lia | right; lia].
Defined.

(** X22. [calcularSubredCompleta] does not validate.  On any two
    well-formed dotted decimals it returns a record: network and
    broadcast address by masking, first and last host by adding and
    subtracting one modulo 2^32, and as host count two to the number of
    zero bits of the mask, minus two, whether or not the mask is a run
    of ones followed by zeros.  The record fails [esValido], and
    [mostrarResultados] shows its error in place of the record, exactly
    for the mask 255.255.255.255, where the host count is -1. *)
Theorem X22_calculo_sin_validar (ip mascara : string) :
  test ipRegex ip = true -> test ipRegex mascara = true ->
  let m := Spec.addressToInteger mascara in
  let N := Z.land (Spec.addressToInteger ip) m in
  let B := Z.lor N (2 ^ 32 - 1 - m) in
  exists r : ResultadoIp.t,
    calcularSubredCompleta ip mascara = Val r /\
    ResultadoIp.networkIP r = Spec.integerToAddress N /\
    ResultadoIp.subnetMask r = mascara /\
    ResultadoIp.broadcastIP r = Spec.integerToAddress B /\
    ResultadoIp.firstHostIP r = Spec.integerToAddress ((N + 1) mod 2 ^ 32) /\
    ResultadoIp.lastHostIP r = Spec.integerToAddress ((B - 1) mod 2 ^ 32) /\
    ResultadoIp.gatewayIP r = ResultadoIp.firstHostIP r /\
    ResultadoIp.totalHosts r = 2 ^ (32 - Spec.prefixLength m) - 2 /\
    (ResultadoIp.esValido r = false <-> m = 2 ^ 32 - 1) /\
    (mostrarResultados r = ConResultados r <-> m <> 2 ^ 32 - 1) /\
    (mostrarResultados r
     = ConError "Error: Los resultados del cálculo no son válidos." <->
     m = 2 ^ 32 - 1) /\
    (m = 2 ^ 32 - 1 -> ResultadoIp.totalHosts r = -1).
Proof.
  intros Hip Hmr m N B.
  assert (Ha : direccion ip (Spec.addressToInteger ip)) by (now split).
  assert (Hm : direccion mascara m) by (now split).
  pose proof (direccion_rango _ _ Ha) as Ra. pose proof (direccion_rango _ _ Hm) as Rm.
  pose proof (land_u32 _ _ Ra Rm) as RN. fold N in RN.
  assert (RB : 0 <= B < 2 ^ 32) by (apply lor_u32; lia).
  assert (HN : direccion (Spec.integerToAddress N) N)
    by (now apply integerToAddress_direccion).
  assert (HB : direccion (Spec.integerToAddress B) B)
    by (now apply integerToAddress_direccion).
  destruct (calcularHostsDesdeMascara_bits mascara m Hm) as (Hh & Hp & Htodo).
  assert (Hr : calcularSubredCompleta ip mascara
               = Val (ResultadoIp.nuevo (Spec.integerToAddress N) mascara
                        (Spec.integerToAddress B)
                        (Spec.integerToAddress ((N + 1) mod 2 ^ 32))
                        (Spec.integerToAddress ((B - 1) mod 2 ^ 32))
                        (Spec.integerToAddress ((N + 1) mod 2 ^ 32))
                        (2 ^ (32 - Spec.prefixLength m) - 2))).
  { unfold calcularSubredCompleta, calcularGateway.
    rewrite (calcularIpRed_spec _ _ _ _ Ha Hm). cbn [JS.bind]. fold m. fold N.
    rewrite (calcularIpBroadcast_spec _ _ _ _ HN Hm). cbn [JS.bind]. fold B.
    rewrite (calcularPrimerHost_mod _ _ HN). cbn [JS.bind].
    rewrite (calcularUltimoHost_mod _ _ HB). cbn [JS.bind].
    rewrite Hh. reflexivity. }
  eexists. split; [exact Hr |]. campos.
  do 7 (split; [reflexivity |]).
  assert (Hval : ResultadoIp.esValido
                   (ResultadoIp.nuevo (Spec.integerToAddress N) mascara
                      (Spec.integerToAddress B)
                      (Spec.integerToAddress ((N + 1) mod 2 ^ 32))
                      (Spec.integerToAddress ((B - 1) mod 2 ^ 32))
                      (Spec.integerToAddress ((N + 1) mod 2 ^ 32))
                      (2 ^ (32 - Spec.prefixLength m) - 2))
                 = (2 ^ (32 - Spec.prefixLength m) - 2 >=? 0)).
  { unfold ResultadoIp.esValido. campos.
    assert (Hne : forall u, negb (String.eqb (Spec.integerToAddress u) "") = true).
    { intros u. apply negb_true_iff, String.eqb_neq, integerToAddress_no_vacia. }
    rewrite !Hne.
    assert (Hmne : negb (String.eqb mascara "") = true).
    { apply negb_true_iff, String.eqb_neq, test_ipRegex_no_vacia, Hmr. }
    rewrite Hmne. reflexivity. }
  assert (Hcero : 2 ^ (32 - Spec.prefixLength m) - 2 < 0 <-> m = 2 ^ 32 - 1).
  { rewrite <- Htodo. split.
    - intros Hlt. destruct (Z.eq_dec (Spec.prefixLength m) 32) as [He|Hne]; [exact He |].
      assert (2 ^ 1 <= 2 ^ (32 - Spec.prefixLength m))
        by (apply Z.pow_le_mono_r; lia). lia.
    - intros ->. reflexivity. }
  unfold mostrarResultados, mostrarError. rewrite Hval.
  destruct (Z.geb_spec (2 ^ (32 - Spec.prefixLength m) - 2) 0) as [Hge|Hlt]; cbn [negb].
  - split; [split; [discriminate | intros H; apply Hcero in H; lia] |].
    split; [split; [intros _ H; apply Hcero in H; lia | reflexivity] |].
    split; [split; [discriminate | intros H; apply Hcero in H; lia] |].
    intros H. apply Hcero in H. lia.
  - pose proof (proj1 Hcero Hlt) as Hmm.
    split; [split; [intros _; exact Hmm | reflexivity] |].
    split; [split; [discriminate | intros H; contradiction] |].
    split; [split; [intros _; exact Hmm | reflexivity] |].
    intros _. apply Htodo in Hmm. rewrite Hmm. reflexivity.
Qed.

Lemma X22_calculo_sin_validar_witness :
  exists r : ResultadoIp.t,
    calcularSubredCompleta "10.0.0.50" "255.255.255.255" = Val r /\
    ResultadoIp.totalHosts r = -1 /\
    mostrarResultados r = ConError "Error: Los resultados del cálculo no son válidos.".
Proof.
  destruct (X22_calculo_sin_validar "10.0.0.50" "255.255.255.255" eq_refl eq_refl)
    as (r & Hr & _ & _ & _ & _ & _ & _ & _ & _ & _ & He & Ht).
  exists r. split; [exact Hr |]. split; [apply Ht | apply He]; reflexivity.
Defined.

(** X23. Every mask that [configurarSugerencias] offers passes the mask
    check, is written without leading zeros and has a prefix length
    between 24 and 30; with any accepted address it gives a valid record
    of 2 to 254 hosts, and it is appropriate for the class of every
    address that has a class. *)
Theorem X23_mascarasComunes (mascara : string) :
  In mascara mascarasComunes ->
  esMascaraSubredValida mascara = Val true /\
  Spec.canonica mascara = true /\
  24 <= Spec.prefixLength (Spec.addressToInteger mascara) <= 30 /\
  forall ip : string,
    esDireccionIPValida ip = Val true ->
    (exists r : ResultadoIp.t,
       calcularDesdeMascara ip mascara = Val r /\
       ResultadoIp.esValido r = true /\
       2 <= ResultadoIp.totalHosts r <= 254) /\
    (forall c : string,
       obtenerClaseIP ip = Val (Some c) ->
       esMascaraApropiadaParaClase ip mascara = Val true).
Proof.
  intros Hin.
  assert (Hv : esMascaraSubredValida mascara = Val true).
  { unfold mascarasComunes in Hin. simpl in Hin.
    repeat (destruct Hin as [<- | Hin]; [reflexivity |]). destruct Hin. }
  assert (Hp : 24 <= Spec.prefixLength (Spec.addressToInteger mascara) <= 30).
  { unfold mascarasComunes in Hin. simpl in Hin.
    repeat (destruct Hin as [<- | Hin]; [vm_compute; split; discriminate |]).
    destruct Hin. }
  split; [exact Hv |]. split.
  { unfold mascarasComunes in Hin. simpl in Hin.
    repeat (destruct Hin as [<- | Hin]; [reflexivity |]). destruct Hin. }
  split; [exact Hp |]. intros ip Hip. split.
  - pose proof Hip as Hip'. apply esDireccionIPValida_spec in Hip' as (a & Ha & _ & _).
    pose proof Hv as Hv'. apply mascara_valida_prefijo in Hv' as (p & Hpr & Hd).
    assert (Hpl : Spec.prefixLength (Spec.addressToInteger mascara) = p).
    { destruct Hd as [_ ->]. apply prefixLength_maskFromPrefix. lia. }
    rewrite Hpl in Hp.
    destruct (esValido_completa ip mascara a p Ha Hd Hpr) as (r & Hr & Ht & Hok).
    exists r. split; [exact Hr |]. split; [exact Hok |]. rewrite Ht.
    assert (2 ^ 2 <= 2 ^ (32 - p)) by (apply Z.pow_le_mono_r; lia).
    assert (2 ^ (32 - p) <= 2 ^ 8) by (apply Z.pow_le_mono_r; lia). lia.
  - intros c Hc. unfold esMascaraApropiadaParaClase.
    destruct (clase_letra ip) as (c' & Hc' & Hletra). rewrite Hc' in Hc.
    injection Hc as ->. rewrite Hc'. cbn [JS.bind].
    unfold mascarasComunes in Hin. simpl in Hin.
    destruct Hletra as [H | [H | [H | [H | [H | H]]]]]; try discriminate H;
      injection H as ->;
      repeat (destruct Hin as [<- | Hin]; [reflexivity |]); destruct Hin.
Qed.

Lemma X23_mascarasComunes_witness :
  esMascaraSubredValida "255.255.255.248" = Val true /\
  esMascaraApropiadaParaClase "10.1.2.3" "255.255.255.248" = Val true.
Proof.
  assert (Hin : In "255.255.255.248" mascarasComunes) by (simpl; auto 8).
  destruct (X23_mascarasComunes "255.255.255.248" Hin) as (Hv & _ & _ & Hip).
  split; [exact Hv |].
  destruct (Hip "10.1.2.3" eq_refl) as [_ Hc]. apply (Hc "A"). reflexivity.
Defined.

(** X24. The address field, when the user leaves it and when the form
    is sent.  Leaving the field marks it as wrong exactly when its
    trimmed text is not empty and fails the address check.  Sending the
    form with a blank field, which is never marked, shows the request
    for an address; sending it with a marked field shows the message
    for 0.0.0.0, the one for 255.255.255.255, or the general one, by the
    trimmed text; all of that whatever the mode and the mask field
    hold, for every host field that reads as a safe integer (so that
    [obtenerDatosFormulario] gives a record of the model). *)
Theorem X24_campo_direccion (f : formulario) :
  let t := Str.trim (entradaIP f) in
  exists b : bool,
    validarIPEnTiempoReal f = Val b /\
    (b = true <-> t <> "" /\ esDireccionIPValida t = Val false) /\
    forall d : datos,
      obtenerDatosFormulario f = Val d ->
      (t = "" ->
       manejarEnvioFormulario f = Val (ConError "Por favor, ingresa una dirección IP.")) /\
      (b = true ->
       manejarEnvioFormulario f
       = Val (ConError
                (if String.eqb t "0.0.0.0"
                 then "La dirección 0.0.0.0 no es válida para cálculos de subred."
                 else if String.eqb t "255.255.255.255"
                 then "La dirección 255.255.255.255 es una dirección de broadcast global."
                 else "Por favor, ingresa una dirección IP válida (ej: 192.168.1.100)."))).
Proof.
  intros t.
  assert (Henvio : forall d : datos,
            obtenerDatosFormulario f = Val d ->
            esDireccionIPValida t = Val false ->
            forall m, obtenerMensajeError "ip" (VStr t) = Val m ->
            manejarEnvioFormulario f = Val (ConError m)).
  { intros d Hd Hv m Hm. unfold manejarEnvioFormulario.
    destruct (datos_leidos f d Hd) as (Hip & _). fold t in Hip.
    rewrite Hd. cbn [JS.bind]. rewrite Hip.
    unfold validarEntradaCompleta. rewrite Hv. cbn [JS.bind negb].
    rewrite Hm. reflexivity. }
  unfold validarIPEnTiempoReal, marcadoEnRojo. fold t.
  destruct (String.eqb_spec t "") as [He|Hne].
  - exists false. split; [reflexivity |].
    split; [split; [discriminate | intros [H _]; contradiction] |].
    intros d Hd. split; [| discriminate]. intros _.
    apply (Henvio d Hd); rewrite He; reflexivity.
  - destruct (esDireccionIPValida_total t) as [v Hv]. rewrite Hv. cbn [JS.bind].
    exists (negb v). split; [reflexivity |].
    split.
    { destruct v; cbn [negb]; split.
      - discriminate.
      - intros [_ H]. discriminate H.
      - intros _. now split.
      - reflexivity. }
    intros d Hd. split; [intros H; contradiction |].
    intros Hb. destruct v; [discriminate Hb |].
    apply (Henvio d Hd Hv). unfold obtenerMensajeError.
    cbn [String.eqb Ascii.eqb Bool.eqb estaVacio JS.bind esCadena].
    assert (E1 : String.eqb t "" = false) by (now apply String.eqb_neq).
    assert (E2 : String.eqb (Str.trim t) "" = false).
    { apply String.eqb_neq. intros Hc. apply Hne. unfold t in *.
      now apply trim_trim_vacio. }
    rewrite E1, E2. cbn [orb].
    destruct (String.eqb t "0.0.0.0"); [reflexivity |].
    destruct (String.eqb t "255.255.255.255"); reflexivity.
Qed.

Lemma X24_campo_direccion_witness :
  validarIPEnTiempoReal
    {| entradaIP := "  0.0.0.0 "; selectorTipoEntrada := "hosts";
       entradaHosts := "20"; entradaMascara := "" |} = Val true /\
  manejarEnvioFormulario
    {| entradaIP := "  0.0.0.0 "; selectorTipoEntrada := "hosts";
       entradaHosts := "20"; entradaMascara := "" |}
  = Val (ConError "La dirección 0.0.0.0 no es válida para cálculos de subred.").
Proof.
  destruct (X24_campo_direccion
              {| entradaIP := "  0.0.0.0 "; selectorTipoEntrada := "hosts";
                 entradaHosts := "20"; entradaMascara := "" |})
    as (b & Hb & Hiff & Hd).
  destruct (Hd {| ip := "0.0.0.0"; tipoEntrada := "hosts"; numeroHosts := 20;
                  GestorInterfaz.mascara := "" |} eq_refl) as [_ Hm].
  assert (E : b = true).
  { apply Hiff. split; [discriminate | reflexivity]. }
  split; [rewrite Hb, E; reflexivity | exact (Hm E)].
Defined.

(** X25. The mask field, when the user leaves it and when the form is
    sent in mode ['mascara'] with an accepted address and a host field
    that reads as a safe integer (so that [obtenerDatosFormulario] gives
    a record [d] of the model).  Leaving the field marks it as wrong
    exactly when its trimmed text is not empty and fails the mask check.
    Sending the form with a blank field shows the request for a mask,
    with a marked field the message about a valid mask, and with a field
    that is neither blank nor marked the record of
    [calcularDesdeMascara]. *)
Theorem X25_campo_mascara (f : formulario) :
  let t := Str.trim (entradaMascara f) in
  exists b : bool,
    validarMascaraEnTiempoReal f = Val b /\
    (b = true <-> t <> "" /\ esMascaraSubredValida t = Val false) /\
    forall d : datos,
      obtenerDatosFormulario f = Val d ->
      esDireccionIPValida (ip d) = Val true -> tipoEntrada d = "mascara" ->
      (t = "" ->
       manejarEnvioFormulario f
       = Val (ConError "Por favor, ingresa una máscara de subred.")) /\
      (b = true ->
       manejarEnvioFormulario f
       = Val (ConError
                "Por favor, ingresa una máscara de subred válida (ej: 255.255.255.0).")) /\
      (t <> "" -> b = false ->
       exists r : ResultadoIp.t,
         calcularDesdeMascara (ip d) t = Val r /\
         manejarEnvioFormulario f = Val (ConResultados r)).
Proof.
  intros t.
  assert (Hmal : forall d : datos,
            obtenerDatosFormulario f = Val d ->
            esDireccionIPValida (ip d) = Val true -> tipoEntrada d = "mascara" ->
            esMascaraSubredValida t = Val false ->
            forall m, obtenerMensajeError "mascara" (VStr t) = Val m ->
            manejarEnvioFormulario f = Val (ConError m)).
  { intros d Hd Hip Hmodo Hv m Hm. unfold manejarEnvioFormulario.
    destruct (datos_leidos f d Hd) as (_ & _ & Hmasc & _). fold t in Hmasc.
    rewrite Hd. cbn [JS.bind]. rewrite Hmasc.
    unfold validarEntradaCompleta. rewrite Hip, Hmodo. cbn [JS.bind negb].
    cbn [String.eqb Ascii.eqb Bool.eqb]. rewrite Hv. cbn [JS.bind negb].
    rewrite Hm. reflexivity. }
  assert (Hbien : forall d : datos,
            obtenerDatosFormulario f = Val d ->
            esDireccionIPValida (ip d) = Val true -> tipoEntrada d = "mascara" ->
            esMascaraSubredValida t = Val true ->
            exists r : ResultadoIp.t,
              calcularDesdeMascara (ip d) t = Val r /\
              manejarEnvioFormulario f = Val (ConResultados r)).
  { intros d Hd Hip Hmodo Hv.
    destruct (desdeMascara_valido (ip d) t Hip Hv) as (r & Hr & Hok).
    exists r. split; [exact Hr |].
    unfold manejarEnvioFormulario.
    destruct (datos_leidos f d Hd) as (_ & _ & Hmasc & _). fold t in Hmasc.
    rewrite Hd. cbn [JS.bind]. rewrite Hmasc.
    unfold validarEntradaCompleta. rewrite Hip, Hmodo. cbn [JS.bind negb].
    cbn [String.eqb Ascii.eqb Bool.eqb]. rewrite Hv. cbn [JS.bind negb esValido].
    rewrite Hr. cbn [JS.bind capturar]. unfold mostrarResultados. now rewrite Hok. }
  unfold validarMascaraEnTiempoReal, marcadoEnRojo. fold t.
  destruct (String.eqb_spec t "") as [He|Hne].
  - exists false. split; [reflexivity |].
    split; [split; [discriminate | intros [H _]; contradiction] |].
    intros d Hd Hip Hmodo. split; [| split; [discriminate | intros H; contradiction]].
    intros _. apply (Hmal d Hd Hip Hmodo); rewrite He; reflexivity.
  - destruct (esMascaraSubredValida_total t) as [v Hv]. rewrite Hv. cbn [JS.bind].
    exists (negb v). split; [reflexivity |].
    split.
    { destruct v; cbn [negb]; split.
      - discriminate.
      - intros [_ H]. discriminate H.
      - intros _. now split.
      - reflexivity. }
    intros d Hd Hip Hmodo. split; [intros H; contradiction |]. split.
    + intros Hb. destruct v; [discriminate Hb |].
      apply (Hmal d Hd Hip Hmodo Hv). unfold obtenerMensajeError.
      cbn [String.eqb Ascii.eqb Bool.eqb estaVacio JS.bind esCadena].
      assert (E1 : String.eqb t "" = false) by (now apply String.eqb_neq).
      assert (E2 : String.eqb (Str.trim t) "" = false).
      { apply String.eqb_neq. intros Hc. apply Hne. unfold t in *.
        now apply trim_trim_vacio. }
      rewrite E1, E2. reflexivity.
    + intros _ Hb. destruct v; [| discriminate Hb]. now apply (Hbien d).
Qed.

Lemma X25_campo_mascara_witness :
  manejarEnvioFormulario
    {| entradaIP := "10.0.0.50"; selectorTipoEntrada := "mascara";
       entradaHosts := ""; entradaMascara := " 255.0.255.0" |}
  = Val (ConError
           "Por favor, ingresa una máscara de subred válida (ej: 255.255.255.0).").
Proof.
  destruct (X25_campo_mascara
              {| entradaIP := "10.0.0.50"; selectorTipoEntrada := "mascara";
                 entradaHosts := ""; entradaMascara := " 255.0.255.0" |})
    as (b & _ & Hiff & Hm).
  destruct (Hm {| ip := "10.0.0.50"; tipoEntrada := "mascara"; numeroHosts := 0;
                  GestorInterfaz.mascara := "255.0.255.0" |}
               eq_refl eq_refl eq_refl) as (_ & Hmarcado & _).
  apply Hmarcado. apply Hiff. split; [discriminate | reflexivity].
Defined.
End Cobertura.
